(** * fritzbox-cloudflare-dyndns: the update propagation engine

    A shallow embedding of [pkg/updater/cloudflare.go], [pkg/updater/updater.go]
    and of the IPv6 prefix construction of [startPollServer], with the
    properties the design document states about them.

    Conventions.
    - A [net.IP] is a byte slice: [list byte].
    - Go's [int] is modelled by [Z]; the only arithmetic on it here
      ([i*8 + j], [7 - j]) stays far from the bounds of a machine word.
    - Arithmetic on Go's [byte] wraps around modulo 256 ([byte.of_Z]).
    - The DNS provider is a black box with a state of its own ([World]);
      every call made to it is recorded, in order, in a trace.
    - [os.Exit(1)] ends the run of the worker: an [Exited] outcome. *)

From Stdlib Require Import ZArith Lia String Ascii List DecimalString.
From stdpp Require Import gmap strings list.
From coqutil Require Import Byte.

Local Open Scope Z_scope.

(** * Bytes and addresses *)

Abbreviation IP := (list byte).

Definition IPv4len : nat := 4.
Definition IPv6len : nat := 16.

(** [a + b] on [byte]: wraps around. *)
Definition byte_add (a b : byte) : byte :=
  byte.of_Z (byte.unsigned a + byte.unsigned b).

(** [a & b] on [byte]. *)
Definition byte_and (a b : byte) : byte :=
  byte.of_Z (Z.land (byte.unsigned a) (byte.unsigned b)).

(** [a | b] on [byte]. *)
Definition byte_or (a b : byte) : byte :=
  byte.of_Z (Z.lor (byte.unsigned a) (byte.unsigned b)).

(** [a << n] on [byte]: the bits shifted out are lost. *)
Definition byte_shl (a : byte) (n : Z) : byte :=
  byte.of_Z (Z.shiftl (byte.unsigned a) n).

(** [make(net.IP, n)]: [n] zero bytes. *)
Definition make_IP (n : nat) : IP := replicate n Byte.x00.

(** Go's builtin [copy(dst, src)]: the first [min (len dst) (len src)]
    bytes of [dst] are overwritten, the length of [dst] is kept. *)
Definition copy (dst src : IP) : IP :=
  take (length dst) src ++ drop (length src) dst.

(** Bit [i] of an address, bit 0 being the most significant bit of byte 0. *)
Definition ip_bit (a : IP) (i : nat) : bool :=
  match a !! (i / 8)%nat with
  | Some b => Z.testbit (byte.unsigned b) (7 - Z.of_nat (i mod 8))
  | None => false
  end.

(** * PrefixCombiner: the construction of [startPollServer] *)

Module PrefixCombiner.

(** The inner loop, [for j := 0; j < 8; j++]: the bit [1 << (7-j)] is
    added to [mask] when [i*8 + j >= maskLen]. *)
Fixpoint mask_loop (i maskLen : Z) (js : list Z) (mask : byte) : byte :=
  match js with
  | [] => mask
  | j :: js' =>
      let mask' :=
        if (i * 8 + j >=? maskLen)
        then byte_add mask (byte_shl Byte.x01 (7 - j))
        else mask in
      mask_loop i maskLen js' mask'
  end.

Definition byte_mask (i maskLen : Z) : byte :=
  mask_loop i maskLen [0; 1; 2; 3; 4; 5; 6; 7] Byte.x00.

(** The outer loop, [for i := 0; i < net.IPv6len; i++]. Indexing a slice
    out of range panics: [None]. *)
Fixpoint combine_loop (idx : list nat) (maskLen : Z) (localIp constructedIp : IP)
  : option IP :=
  match idx with
  | [] => Some constructedIp
  | i :: idx' =>
      b ← constructedIp !! i;
      lb ← localIp !! i;
      let mask := byte_mask (Z.of_nat i) maskLen in
      let b' := byte_add b (byte_and lb mask) in
      combine_loop idx' maskLen localIp (<[i := b']> constructedIp)
  end.

(** [prefixIP] is [prefix.IP], [maskLen] the first result of
    [prefix.Mask.Size()], [localIp] the configured host address. *)
Definition constructIp (prefixIP : IP) (maskLen : Z) (localIp : IP) : option IP :=
  let constructedIp := copy (make_IP IPv6len) prefixIP in
  combine_loop (seq 0 IPv6len) maskLen localIp constructedIp.

(** The combination the design document compares with: a bitwise OR of
    the network byte and the masked host byte. *)
Definition or_combine (n s mask : byte) : byte := byte_or n (byte_and s mask).

(** The combination of the source: an addition. *)
Definition add_combine (n s mask : byte) : byte := byte_add n (byte_and s mask).

(** A delegated prefix is well formed when all its bits from position
    [L] on are zero. *)
Definition wellformed (network : IP) (L : Z) : Prop :=
  forall i : nat, (i < 128)%nat -> L <= Z.of_nat i -> ip_bit network i = false.

(** No carry in the addition of byte [k]: the two summands share no bit. *)
Definition no_carry (network suffix : IP) (L : Z) : Prop :=
  forall (k : nat) n s, network !! k = Some n -> suffix !! k = Some s ->
    Z.land (byte.unsigned n) (byte.unsigned (byte_and s (byte_mask (Z.of_nat k) L))) = 0.

(** The whole construction with the OR combination of the design
    document in place of the addition. *)
Definition constructIp_or (prefixIP : IP) (maskLen : Z) (localIp : IP) : IP :=
  imap (fun k '(n, s) => or_combine n s (byte_mask (Z.of_nat k) maskLen))
       (zip prefixIP localIp).

(** Addresses written as their sixteen byte values. *)
Definition of_bytes (l : list Z) : IP := map byte.of_Z l.

(** [2001:db8:1:2::], [::1] and [2001:db8:1:2::1]. *)
Definition net_2001_db8_1_2 : IP :=
  of_bytes [0x20; 0x01; 0x0d; 0xb8; 0; 1; 0; 2; 0; 0; 0; 0; 0; 0; 0; 0].
Definition host_1 : IP :=
  of_bytes [0; 0; 0; 0; 0; 0; 0; 0; 0; 0; 0; 0; 0; 0; 0; 1].
Definition addr_2001_db8_1_2_1 : IP :=
  of_bytes [0x20; 0x01; 0x0d; 0xb8; 0; 1; 0; 2; 0; 0; 0; 0; 0; 0; 0; 1].

(** [::2] and [2001:db8:1:2::3]. *)
Definition host_2 : IP :=
  of_bytes [0; 0; 0; 0; 0; 0; 0; 0; 0; 0; 0; 0; 0; 0; 0; 2].
Definition addr_2001_db8_1_2_3 : IP :=
  of_bytes [0x20; 0x01; 0x0d; 0xb8; 0; 1; 0; 2; 0; 0; 0; 0; 0; 0; 0; 3].

(** [::ff] and [2001:db8:1:2::], the last byte of the wrapped sum
    [0x01 + 0xff]. *)
Definition host_ff : IP :=
  of_bytes [0; 0; 0; 0; 0; 0; 0; 0; 0; 0; 0; 0; 0; 0; 0; 0xff].

(** A decidable form of [wellformed], to check concrete prefixes. *)
Definition wellformedb (network : IP) (L : Z) : bool :=
  forallb (fun i : nat => implb (L <=? Z.of_nat i) (negb (ip_bit network i)))
          (seq 0 128).

End PrefixCombiner.

(** * Go values

    The functions of Go's standard library the engine calls ([net.IP.To4],
    [net.IP.Equal], [strings.Split], [strconv.Atoi]) are written after
    the library's source; the text of the errors of [Atoi] is shortened. *)

Definition error : Type := string.

(** A Go result [(value, err)]: the value when [err == nil], the error
    otherwise. *)
Inductive result (A : Type) : Type :=
| Ok (a : A)
| Err (err : error).
Arguments Ok {A} a.
Arguments Err {A} err.

Definition err_of {A} (r : result A) : option error :=
  match r with
  | Ok _ => None
  | Err e => Some e
  end.

(** ** [net.IP]: [To4] and [Equal] *)

(** [bytealg.Equal]. *)
Fixpoint bytes_Equal (a b : IP) : bool :=
  match a, b with
  | [], [] => true
  | x :: a', y :: b' => Byte.eqb x y && bytes_Equal a' b'
  | _, _ => false
  end.

Definition v4InV6Prefix : IP :=
  [Byte.x00; Byte.x00; Byte.x00; Byte.x00; Byte.x00; Byte.x00;
   Byte.x00; Byte.x00; Byte.x00; Byte.x00; Byte.xff; Byte.xff].

Definition isZeros (p : IP) : bool := forallb (Byte.eqb Byte.x00) p.

(** [ip[i] == b], for an index within the slice. *)
Definition byte_is (ip : IP) (i : nat) (b : byte) : bool :=
  match ip !! i with
  | Some x => Byte.eqb x b
  | None => false
  end.

(** [ip.To4()]: [None] is Go's [nil]. *)
Definition To4 (ip : IP) : option IP :=
  if (length ip =? IPv4len)%nat then Some ip
  else if (length ip =? IPv6len)%nat
          && isZeros (take 10 ip)
          && byte_is ip 10 Byte.xff
          && byte_is ip 11 Byte.xff
  then Some (take 4 (drop 12 ip))
  else None.

(** [ip.Equal(x)]: an IPv4 address and its IPv6 form are equal. *)
Definition Equal (ip x : IP) : bool :=
  if (length ip =? length x)%nat then bytes_Equal ip x
  else if (length ip =? IPv4len)%nat && (length x =? IPv6len)%nat
  then bytes_Equal (take 12 x) v4InV6Prefix && bytes_Equal ip (drop 12 x)
  else if (length ip =? IPv6len)%nat && (length x =? IPv4len)%nat
  then bytes_Equal (take 12 ip) v4InV6Prefix && bytes_Equal (drop 12 ip) x
  else false.

(** The 16-byte form of a 4-byte address; any other address as it is. *)
Definition canonical (ip : IP) : IP :=
  if (length ip =? IPv4len)%nat then v4InV6Prefix ++ ip else ip.

(** The IP family of an address, as the worker tells it: 4 when
    [ip.To4()] is not [nil], 6 otherwise. *)
Definition family_of (ip : IP) : Z :=
  match To4 ip with
  | None => 6
  | Some _ => 4
  end.

(** The addresses of [l] that are not [Equal] to the last address kept,
    [prev] being the last address kept so far. *)
Fixpoint skip_equal (prev : IP) (l : list IP) : list IP :=
  match l with
  | [] => []
  | ip :: l' =>
      if Equal prev ip then skip_equal prev l' else ip :: skip_equal ip l'
  end.

(** The first address of each run of equal addresses. *)
Definition first_of_runs (l : list IP) : list IP :=
  match l with
  | [] => []
  | ip :: l' => ip :: skip_equal ip l'
  end.

(** ** [strings.Split] with a one-byte separator, [strconv.Atoi] *)

Fixpoint Split (s : string) (sep : ascii) : list string :=
  match s with
  | EmptyString => [EmptyString]
  | String c s' =>
      if Ascii.eqb c sep then EmptyString :: Split s' sep
      else match Split s' sep with
           | field :: fields => String c field :: fields
           | [] => [String c EmptyString]
           end
  end.

Definition digit_of (c : ascii) : option Z :=
  let n := Z.of_N (N_of_ascii c) in
  if (48 <=? n) && (n <=? 57) then Some (n - 48) else None.

(** The decimal value of a string of digits, [acc] being the value of
    the digits already read. *)
Fixpoint digits_value (s : string) (acc : Z) : option Z :=
  match s with
  | EmptyString => Some acc
  | String c s' =>
      match digit_of c with
      | Some d => digits_value s' (acc * 10 + d)
      | None => None
      end
  end.

(** [strconv.Atoi]: an optional sign, then one decimal digit or more,
    the value within the range of a 64-bit [int]. *)
Definition Atoi (s : string) : result Z :=
  let '(neg, body) :=
    match s with
    | String "-"%char s' => (true, s')
    | String "+"%char s' => (false, s')
    | _ => (false, s)
    end in
  match body with
  | EmptyString => Err ("strconv.Atoi: parsing: invalid syntax")%string
  | _ =>
      match digits_value body 0 with
      | None => Err ("strconv.Atoi: parsing: invalid syntax")%string
      | Some n =>
          let v := if neg then - n else n in
          if (- 2 ^ 63 <=? v) && (v <? 2 ^ 63) then Ok v
          else Err ("strconv.Atoi: parsing: value out of range")%string
      end
  end.

(** [fmt.Sprintf("%d", n)]. *)
Definition itoa (n : Z) : string := NilZero.string_of_int (Z.to_int n).

(** * The package [updater] *)

Module Updater.

(** ** Types of [cloudflare-go] *)

Record DNSRecord := {
  ID : string;
  Content : string;
  TTL : Z;
  Proxied : option bool;
}.

Record ListDNSRecordsParams := {
  l_Type : string;
  l_Name : string;
}.

Record CreateDNSRecordParams := {
  c_Type : string;
  c_Name : string;
  c_Content : string;
  c_Proxied : option bool;
  c_TTL : Z;
  c_ZoneID : string;
}.

Record UpdateDNSRecordParams := {
  u_ID : string;
  u_Content : string;
  u_TTL : Z;
  u_Proxied : option bool;
}.

(** A call to the provider; [rc] is the zone identifier of
    [cf.ZoneIdentifier(action.CfZoneId)]. *)
Inductive Call :=
| CallZoneIDByName (zone : string)
| CallListDNSRecords (rc : string) (params : ListDNSRecordsParams)
| CallCreateDNSRecord (rc : string) (params : CreateDNSRecordParams)
| CallUpdateDNSRecord (rc : string) (params : UpdateDNSRecordParams).

(** A call with the error it returned, if any. *)
Record Event := {
  ev_call : Call;
  ev_err : option error;
}.

(** The client library and the provider behind it: a black box with a
    state of its own. *)
Class Provider := {
  World : Type;
  API : Type;
  cf_New : string -> string -> result API;
  cf_NewWithAPIToken : string -> result API;
  cf_UsingRetryPolicy : Z -> Z -> Z -> API -> API;
  ZoneIDByName : World -> string -> World * result string;
  ListDNSRecords :
    World -> string -> ListDNSRecordsParams -> World * result (list DNSRecord);
  CreateDNSRecord :
    World -> string -> CreateDNSRecordParams -> World * result DNSRecord;
  UpdateDNSRecord :
    World -> string -> UpdateDNSRecordParams -> World * result DNSRecord;
}.

(** What the engine takes from the Go runtime and other libraries:
    [net.IP.String], [publicsuffix.EffectiveTLDPlusOne], and the order in
    which a [range] over a map visits its keys. *)
Class Runtime := {
  IP_String : IP -> string;
  EffectiveTLDPlusOne : string -> result string;
  range_keys : gmap string string -> list string;
}.

(** A [range] over a map visits every key once, in some order. *)
Definition range_visits_each_key_once `{Runtime} : Prop :=
  forall m : gmap string string,
    NoDup (range_keys m) /\ forall k, k ∈ range_keys m <-> k ∈ dom m.

(** ** The structs of the package *)

Record Action := {
  DnsRecord : string;
  CfZoneId : string;
  IpVersion : Z;
}.

Record CloudFlareConfigs := {
  token : string;
  email : string;
  key : string;
  retryPolicy : string;
}.

(** [lastIpv4] and [lastIpv6] are pointers: [None] is [nil]. *)
Record UpdaterOptions := {
  ipv4Zones : list string;
  ipv6Zones : list string;
  lastIpv4 : option IP;
  lastIpv6 : option IP;
}.

(** ** Logging *)

Inductive Level := LevelInfo | LevelError.

Inductive AttrValue :=
| AString (s : string)
| AIP (ip : IP)
| AError (err : error).

Record LogEntry := {
  level : Level;
  msg : string;
  attrs : list (string * AttrValue);
}.

Section WithProvider.
Context {provider : Provider} {runtime : Runtime}.

Record CloudflareUpdater := {
  options : UpdaterOptions;
  configs : CloudFlareConfigs;
  actions : list Action;
  isInit : bool;
  api : option API;
}.

(** The state a run goes through: the updater struct, the provider's
    state, the calls made so far (oldest first) and the log. *)
Record Sys := {
  updater : CloudflareUpdater;
  world : World;
  calls : list Event;
  logs : list LogEntry;
}.

(** How a piece of code ends: it returns, the process exits
    ([os.Exit]), or it panics. *)
Inductive Outcome (A : Type) : Type :=
| Running (a : A) (s : Sys)
| Exited (code : Z) (s : Sys)
| Panicked (reason : string) (s : Sys).
Arguments Running {A} a s.
Arguments Exited {A} code s.
Arguments Panicked {A} reason s.

Definition M (A : Type) : Type := Sys -> Outcome A.

Definition ret {A} (a : A) : M A := fun s => Running a s.

Definition bind {A B} (m : M A) (k : A -> M B) : M B :=
  fun s =>
    match m s with
    | Running a s' => k a s'
    | Exited code s' => Exited code s'
    | Panicked reason s' => Panicked reason s'
    end.

Definition os_Exit {A} (code : Z) : M A := fun s => Exited code s.

Definition panic {A} (reason : string) : M A := fun s => Panicked reason s.

Definition get_updater : M CloudflareUpdater := fun s => Running (updater s) s.

Definition set_updater (u : CloudflareUpdater) : M unit :=
  fun s =>
    Running tt {| updater := u; world := world s; calls := calls s; logs := logs s |}.

(** One call to the provider: its state moves on, the call is recorded. *)
Definition api_call {A} (c : Call) (f : World -> World * result A) : M (result A) :=
  fun s =>
    let '(w, r) := f (world s) in
    Running r {| updater := updater s; world := w;
                 calls := calls s ++ [{| ev_call := c; ev_err := err_of r |}];
                 logs := logs s |}.

Definition write_log (e : LogEntry) : M unit :=
  fun s =>
    Running tt {| updater := updater s; world := world s; calls := calls s;
                  logs := logs s ++ [e] |}.

Notation "x <- c ;; k" := (bind c (fun x => k))
  (at level 100, c at next level, right associativity).
Notation "c ;; k" := (bind c (fun _ => k))
  (at level 100, right associativity).

(** [for _, x := range l { body }]; a [continue] ends one run of [body]. *)
Fixpoint for_range {A} (l : list A) (body : A -> M unit) : M unit :=
  match l with
  | [] => ret tt
  | x :: l' => body x ;; for_range l' body
  end.

(** [l[i]]: out of range, the runtime panics. *)
Definition index (l : list string) (i : nat) : M string :=
  match l !! i with
  | Some x => ret x
  | None => panic "index out of range"
  end.

(** [u.log] is [log.With(slog.String("updater", "cloudflare"))]. *)
Definition u_log (lv : Level) (m : string) (more : list (string * AttrValue)) : M unit :=
  write_log {| level := lv; msg := m;
               attrs := ("updater", AString "cloudflare") :: more |}.

Definition set_api (a : option API) : M unit :=
  u <- get_updater ;;
  set_updater {| options := options u; configs := configs u;
                 actions := actions u; isInit := isInit u; api := a |}.

Definition set_actions (acts : list Action) : M unit :=
  u <- get_updater ;;
  set_updater {| options := options u; configs := configs u;
                 actions := acts; isInit := isInit u; api := api u |}.

Definition set_isInit (b : bool) : M unit :=
  u <- get_updater ;;
  set_updater {| options := options u; configs := configs u;
                 actions := actions u; isInit := b; api := api u |}.

Definition set_options (o : UpdaterOptions) : M unit :=
  u <- get_updater ;;
  set_updater {| options := o; configs := configs u;
                 actions := actions u; isInit := isInit u; api := api u |}.

Definition set_lastIpv4 (ip : IP) : M unit :=
  u <- get_updater ;;
  set_options {| ipv4Zones := ipv4Zones (options u); ipv6Zones := ipv6Zones (options u);
                 lastIpv4 := Some ip; lastIpv6 := lastIpv6 (options u) |}.

Definition set_lastIpv6 (ip : IP) : M unit :=
  u <- get_updater ;;
  set_options {| ipv4Zones := ipv4Zones (options u); ipv6Zones := ipv6Zones (options u);
                 lastIpv4 := lastIpv4 (options u); lastIpv6 := Some ip |}.

(** ** [InitApi] *)

Definition InitApi : M (option error) :=
  u <- get_updater ;;
  let created :=
    if String.eqb (token (configs u)) ""
    then cf_New (key (configs u)) (email (configs u))
    else cf_NewWithAPIToken (token (configs u)) in
  match created with
  | Err err => ret (Some err)
  | Ok api0 =>
      set_api (Some api0) ;;
      if negb (String.eqb (retryPolicy (configs u)) "") then
        let retryPolicySplit := Split (retryPolicy (configs u)) " " in
        f0 <- index retryPolicySplit 0 ;;
        match Atoi f0 with
        | Err err =>
            ret (Some ("Failed to parse retry policy's maxRetries: " ++ err)%string)
        | Ok maxRetries =>
            f1 <- index retryPolicySplit 1 ;;
            match Atoi f1 with
            | Err err =>
                ret (Some ("Failed to parse retry policy's minRetryDelaySeconds: "
                           ++ err)%string)
            | Ok minRetryDelaySeconds =>
                f2 <- index retryPolicySplit 2 ;;
                match Atoi f2 with
                | Err err =>
                    ret (Some ("Failed to parse retry policy's maxRetryDelaySecs: "
                               ++ err)%string)
                | Ok maxRetryDelaySecs =>
                    u_log LevelInfo
                      ("Setting Cloudflare retry policy. MaxRetries "
                       ++ itoa maxRetries ++ ", minRetryDelaySeconds "
                       ++ itoa minRetryDelaySeconds ++ "s, maxRetryDelaySeconds "
                       ++ itoa maxRetryDelaySecs ++ "s.")%string [] ;;
                    set_api (Some (cf_UsingRetryPolicy maxRetries minRetryDelaySeconds
                                     maxRetryDelaySecs api0)) ;;
                    ret None
                end
            end
        end
      else ret None
  end.

(** ** [init] *)

(** [zoneIdMap[val]]: the zero value for a key that is absent. *)
Definition map_get (zoneIdMap : gmap string string) (val : string) : string :=
  default EmptyString (zoneIdMap !! val).

(** [for val := range zoneIdMap], over the keys in the order the runtime
    chose; an error returns from [init]. *)
Fixpoint resolve_zones (keys : list string) (zoneIdMap : gmap string string)
  : M (result (gmap string string)) :=
  match keys with
  | [] => ret (Ok zoneIdMap)
  | val :: keys' =>
      match EffectiveTLDPlusOne val with
      | Err err => ret (Err err)
      | Ok zone =>
          r <- api_call (CallZoneIDByName zone) (fun w => ZoneIDByName w zone) ;;
          match r with
          | Err err => ret (Err err)
          | Ok id => resolve_zones keys' (<[val := id]> zoneIdMap)
          end
      end
  end.

(** [u.actions = append(u.actions, a)]. *)
Definition append_action (a : Action) : M unit :=
  u <- get_updater ;;
  set_actions (actions u ++ [a]).

Definition init : M (option error) :=
  u <- get_updater ;;
  let zoneIdMap : gmap string string := ∅ in
  let zoneIdMap :=
    foldl (fun m val => <[val := EmptyString]> m) zoneIdMap (ipv4Zones (options u)) in
  let zoneIdMap :=
    foldl (fun m val => <[val := EmptyString]> m) zoneIdMap (ipv6Zones (options u)) in
  r <- resolve_zones (range_keys zoneIdMap) zoneIdMap ;;
  match r with
  | Err err => ret (Some err)
  | Ok zoneIdMap =>
      for_range (ipv4Zones (options u)) (fun val =>
        append_action {| DnsRecord := val; CfZoneId := map_get zoneIdMap val;
                         IpVersion := 4 |}) ;;
      for_range (ipv6Zones (options u)) (fun val =>
        append_action {| DnsRecord := val; CfZoneId := map_get zoneIdMap val;
                         IpVersion := 6 |}) ;;
      set_isInit true ;;
      ret None
  end.

(** ** [spawnWorker] *)

(** The sub-logger [alog] of an action. *)
Definition domain_attr (action : Action) : string * AttrValue :=
  ("domain", AString (DnsRecord action ++ "/IPv" ++ itoa (IpVersion action)))%string.

Definition alog (action : Action) (lv : Level) (m : string)
    (more : list (string * AttrValue)) : M unit :=
  u_log lv m (domain_attr action :: more).

Definition recordType_of (ip : IP) : string :=
  match To4 ip with
  | None => "AAAA"
  | Some _ => "A"
  end.

(** The body of [for _, record := range records]. *)
Definition update_record (ip : IP) (action : Action) (record : DNSRecord) : M unit :=
  alog action LevelInfo "Updating DNS record" [("record-id", AString (ID record))] ;;
  if String.eqb (Content record) (IP_String ip) then ret tt
  else
    let params := {| u_ID := ID record; u_Content := IP_String ip;
                     u_TTL := TTL record; u_Proxied := Proxied record |} in
    r <- api_call (CallUpdateDNSRecord (CfZoneId action) params)
           (fun w => UpdateDNSRecord w (CfZoneId action) params) ;;
    match r with
    | Err err =>
        alog action LevelError "Action failed, could not update DNS record"
          [("error", AError err)] ;;
        os_Exit 1
    | Ok _ => ret tt
    end.

(** The part of the action loop's body after the two family checks. *)
Definition reconcile (ip : IP) (action : Action) : M unit :=
  let recordType := recordType_of ip in
  let rc := CfZoneId action in
  let lparams := {| l_Type := recordType; l_Name := DnsRecord action |} in
  r <- api_call (CallListDNSRecords rc lparams) (fun w => ListDNSRecords w rc lparams) ;;
  match r with
  | Err err =>
      alog action LevelError "Action failed, could not research DNS records"
        [("error", AError err)] ;;
      os_Exit 1
  | Ok records =>
      (if (length records =? 0)%nat then
         alog action LevelInfo "Creating DNS record" [] ;;
         let proxied := false in
         let cparams := {| c_Type := recordType; c_Name := DnsRecord action;
                           c_Content := IP_String ip; c_Proxied := Some proxied;
                           c_TTL := 120; c_ZoneID := CfZoneId action |} in
         r <- api_call (CallCreateDNSRecord rc cparams)
                (fun w => CreateDNSRecord w rc cparams) ;;
         match r with
         | Err err =>
             alog action LevelError "Action failed, could not create DNS record"
               [("error", AError err)] ;;
             os_Exit 1
         | Ok _ => ret tt
         end
       else ret tt) ;;
      for_range records (update_record ip action)
  end.

(** The body of [for _, action := range u.actions]. *)
Definition action_step (ip : IP) (action : Action) : M unit :=
  if bool_decide (To4 ip = None) && negb (IpVersion action =? 6) then ret tt
  else if negb (bool_decide (To4 ip = None)) && (IpVersion action =? 6) then ret tt
  else reconcile ip action.

(** The dedup check at the head of the [select] case. *)
Definition is_duplicate (o : UpdaterOptions) (ip : IP) : bool :=
  match To4 ip with
  | None =>
      match lastIpv6 o with
      | Some last => Equal last ip
      | None => false
      end
  | Some _ =>
      match lastIpv4 o with
      | Some last => Equal last ip
      | None => false
      end
  end.

(** The [select] case for one address received from [u.In]. *)
Definition receive (ip : IP) : M unit :=
  u <- get_updater ;;
  if is_duplicate (options u) ip then ret tt
  else
    u_log LevelInfo "Received update request" [("ip", AIP ip)] ;;
    for_range (actions u) (action_step ip) ;;
    match To4 ip with
    | None => set_lastIpv6 ip
    | Some _ => set_lastIpv4 ip
    end.

(** The worker on the addresses [In] delivers, in order. *)
Definition spawnWorker (In : list IP) : M unit := for_range In receive.

Definition StartWorker (In : list IP) : M unit :=
  u <- get_updater ;;
  if negb (isInit u) then ret tt else spawnWorker In.

Definition NewCloudflareUpdater (o : UpdaterOptions) (c : CloudFlareConfigs)
    (In : list IP) : M (option error) :=
  set_updater {| options := o; configs := c; actions := []; isInit := false;
                 api := None |} ;;
  err <- InitApi ;;
  match err with
  | Some e => ret (Some e)
  | None =>
      err <- init ;;
      match err with
      | Some e => ret (Some e)
      | None => StartWorker In ;; ret None
      end
  end.

(** ** What the properties are stated with *)

Definition state_of {A} (o : Outcome A) : Sys :=
  match o with
  | Running _ s => s
  | Exited _ s => s
  | Panicked _ s => s
  end.

(** The LastAddress slot of the family of [ip]. *)
Definition last_of (o : UpdaterOptions) (ip : IP) : option IP :=
  match To4 ip with
  | None => lastIpv6 o
  | Some _ => lastIpv4 o
  end.

(** The parameters of the create call for [ip] and [action]. *)
Definition create_params (ip : IP) (action : Action) : CreateDNSRecordParams :=
  {| c_Type := if decide (family_of ip = 4) then "A" else "AAAA";
     c_Name := DnsRecord action;
     c_Content := IP_String ip;
     c_Proxied := Some false;
     c_TTL := 120;
     c_ZoneID := CfZoneId action |}.

(** The update call that echoes the TTL and the proxied flag of [record]. *)
Definition update_call (ip : IP) (action : Action) (record : DNSRecord) : Call :=
  CallUpdateDNSRecord (CfZoneId action)
    {| u_ID := ID record; u_Content := IP_String ip;
       u_TTL := TTL record; u_Proxied := Proxied record |}.

(** A listed record whose content is not the new address. *)
Definition stale (ip : IP) (record : DNSRecord) : bool :=
  negb (String.eqb (Content record) (IP_String ip)).

Definition is_create (c : Call) : bool :=
  match c with CallCreateDNSRecord _ _ => true | _ => false end.

Definition is_update (c : Call) : bool :=
  match c with CallUpdateDNSRecord _ _ => true | _ => false end.

Definition succeeded (e : Event) : Prop := ev_err e = None.

(** The entry [alog.Error(m, logging.ErrorAttr(err))] of an action. *)
Definition error_entry (action : Action) (m : string) (err : error) : LogEntry :=
  {| level := LevelError; msg := m;
     attrs := [("updater", AString "cloudflare"); domain_attr action;
               ("error", AError err)] |}.

(** How a piece of the worker that made the calls [evs] from the state
    [s] ended, the updater struct untouched: either it returned and every
    call succeeded; or the process exited with code 1, the last call made
    is the one call that failed, and the last log entry reports that
    error for an action among [P]. It never panics. *)
Definition ended (P : Action -> Prop) (s : Sys) {A} (o : Outcome A)
    (evs : list Event) : Prop :=
  calls (state_of o) = calls s ++ evs /\
  updater (state_of o) = updater s /\
  match o with
  | Running _ _ => Forall succeeded evs
  | Exited code s' =>
      code = 1 /\
      exists evs0 e err action m,
        evs = evs0 ++ [e] /\ Forall succeeded evs0 /\ ev_err e = Some err /\
        P action /\ last (logs s') = Some (error_entry action m err)
  | Panicked _ _ => False
  end.

(** ** The pieces of a run the properties name *)

(** The event of the update call for [record] made in the state [s]. *)
Definition update_event (ip : IP) (action : Action) (record : DNSRecord) (s : Sys)
  : Event :=
  {| ev_call := update_call ip action record;
     ev_err := err_of (UpdateDNSRecord (world s) (CfZoneId action)
                         {| u_ID := ID record; u_Content := IP_String ip;
                            u_TTL := TTL record; u_Proxied := Proxied record |}).2 |}.

(** The parameters and the event of the list call of an action. *)
Definition list_params (ip : IP) (action : Action) : ListDNSRecordsParams :=
  {| l_Type := recordType_of ip; l_Name := DnsRecord action |}.

Definition list_event (ip : IP) (action : Action) (r : result (list DNSRecord))
  : Event :=
  {| ev_call := CallListDNSRecords (CfZoneId action) (list_params ip action);
     ev_err := err_of r |}.

(** The state after the list call. *)
Definition listed (ip : IP) (action : Action) (s : Sys) (w : World)
    (r : result (list DNSRecord)) : Sys :=
  {| updater := updater s; world := w;
     calls := calls s ++ [list_event ip action r]; logs := logs s |}.

(** The two family checks at the head of the loop body. *)
Definition skipped (ip : IP) (action : Action) : bool :=
  (bool_decide (To4 ip = None) && negb (IpVersion action =? 6))
  || (negb (bool_decide (To4 ip = None)) && (IpVersion action =? 6)).

(** The state after the receipt of [ip] was logged. *)
Definition received (ip : IP) (s : Sys) : Sys :=
  {| updater := updater s; world := world s; calls := calls s;
     logs := logs s ++ [{| level := LevelInfo; msg := "Received update request";
                           attrs := [("updater", AString "cloudflare");
                                     ("ip", AIP ip)] |}] |}.

(** What the worker does with an address it does not drop: the [select]
    case after the dedup check, that is the receipt logged, the loop
    over the actions, and the address written to the slot of its
    family. *)
Definition process (ip : IP) : M unit :=
  u <- get_updater ;;
  u_log LevelInfo "Received update request" [("ip", AIP ip)] ;;
  for_range (actions u) (action_step ip) ;;
  match To4 ip with
  | None => set_lastIpv6 ip
  | Some _ => set_lastIpv4 ip
  end.

(** The addresses of [l] that differ from the address before them, the
    slot of their family holding [prev] when the first arrives. *)
Definition kept (prev : option IP) (l : list IP) : list IP :=
  match prev with
  | Some last => skip_equal last l
  | None => first_of_runs l
  end.

(** The address [ip] is not the one the slot of its family holds. *)
Definition changed (o : UpdaterOptions) (ip : IP) : Prop :=
  forall last, last_of o ip = Some last -> Equal last ip = false.

(** The map [init] starts from: every configured name, of either list,
    bound to the empty string. *)
Definition zone_map0 (v4 v6 : list string) : gmap string string :=
  foldl (fun m val => <[val := EmptyString]> m)
        (foldl (fun m val => <[val := EmptyString]> m) ∅ v4) v6.

(** The action [init] builds for the name [val] in the list of family
    [fam], the zone identifiers being those of [zoneIdMap]. *)
Definition mk_action (zoneIdMap : gmap string string) (fam : Z) (val : string)
  : Action :=
  {| DnsRecord := val; CfZoneId := map_get zoneIdMap val; IpVersion := fam |}.

(** The state [s] with the action list [acts]. *)
Definition with_actions (acts : list Action) (s : Sys) : Sys :=
  {| updater := {| options := options (updater s); configs := configs (updater s);
                   actions := acts; isInit := isInit (updater s);
                   api := api (updater s) |};
     world := world s; calls := calls s; logs := logs s |}.

(** A name resolved by one successful zone lookup. *)
Definition resolved (val : string) (ev : Event) : Prop :=
  exists zone, EffectiveTLDPlusOne val = Ok zone /\
    ev = {| ev_call := CallZoneIDByName zone; ev_err := None |}.

(** The actions of [acts] for the record [name] and the family [fam]. *)
Definition actions_for (acts : list Action) (name : string) (fam : Z) : list Action :=
  List.filter (fun a => String.eqb (DnsRecord a) name && (IpVersion a =? fam)) acts.

End WithProvider.

Arguments M {provider} A.
Arguments Outcome {provider} A.
Arguments Running {provider A} a s.
Arguments Exited {provider A} code s.
Arguments Panicked {provider A} reason s.

End Updater.

(** ** A scripted provider and a small runtime, to run the engine on
    concrete inputs *)

Module Script.
Import Updater.

(** What the provider answers to the next call of each kind. *)
Inductive Reply :=
| RZone (r : result string)
| RList (r : result (list DNSRecord))
| RCreate (r : result DNSRecord)
| RUpdate (r : result DNSRecord).

(** The client object: how it was made, and its retry policy. *)
Record Client := {
  made_with : list string;
  retry : option (Z * Z * Z);
}.

Definition unexpected {A} : result A := Err "unexpected call"%string.

(** The provider answers the calls from a script, in order; a call the
    script does not expect next returns an error. *)
#[export] Instance scripted : Provider := {|
  World := list Reply;
  API := Client;
  cf_New k e :=
    if (String.eqb k "" || String.eqb e "")%bool
    then Err "invalid credentials: key & email must not be empty"%string
    else Ok {| made_with := [k; e]; retry := None |};
  cf_NewWithAPIToken t :=
    if String.eqb t ""
    then Err "invalid credentials: API Token must not be empty"%string
    else Ok {| made_with := [t]; retry := None |};
  cf_UsingRetryPolicy maxRetries minDelay maxDelay c :=
    {| made_with := made_with c; retry := Some (maxRetries, minDelay, maxDelay) |};
  ZoneIDByName w _ :=
    match w with RZone r :: w' => (w', r) | _ => (w, unexpected) end;
  ListDNSRecords w _ _ :=
    match w with RList r :: w' => (w', r) | _ => (w, unexpected) end;
  CreateDNSRecord w _ _ :=
    match w with RCreate r :: w' => (w', r) | _ => (w, unexpected) end;
  UpdateDNSRecord w _ _ :=
    match w with RUpdate r :: w' => (w', r) | _ => (w, unexpected) end;
|}.

Definition dotted (ip : IP) : string :=
  String.concat "." (map (fun b => itoa (byte.unsigned b)) ip).

(** A stand-in for the runtime: [IP_String] is Go's text for an IPv4
    address (four decimal bytes) and the sixteen decimal bytes for any
    other; [EffectiveTLDPlusOne] keeps the last two labels of a name;
    a [range] visits the keys in the order of [map_to_list]. *)
#[export] Instance small_runtime : Runtime := {|
  IP_String ip :=
    match To4 ip with
    | Some p4 => dotted p4
    | None => dotted ip
    end;
  EffectiveTLDPlusOne name :=
    let labels := Split name "." in
    if (length labels <? 2)%nat
    then Err "publicsuffix: cannot derive eTLD+1"%string
    else Ok (String.concat "." (drop (length labels - 2) labels));
  range_keys m := (map_to_list m).*1;
|}.

(** A fresh updater struct and a state around it. *)
Definition updater0 (v4 v6 : list string) (retryPolicy0 : string) : CloudflareUpdater :=
  {| options := {| ipv4Zones := v4; ipv6Zones := v6;
                   lastIpv4 := None; lastIpv6 := None |};
     configs := {| token := "t"; email := ""; key := ""; retryPolicy := retryPolicy0 |};
     actions := []; isInit := false; api := None |}.

Definition sys0 (u : CloudflareUpdater) (script : list Reply) : Sys :=
  {| updater := u; world := script; calls := []; logs := [] |}.

(** The addresses [203.0.113.5] and [203.0.113.9]. *)
Definition ip_203_0_113_5 : IP := PrefixCombiner.of_bytes [203; 0; 113; 5].
Definition ip_203_0_113_9 : IP := PrefixCombiner.of_bytes [203; 0; 113; 9].

(** The action for the "A" records of [home.example.com], and an
    initialised updater that has this one action. *)
Definition home4 : Action :=
  {| DnsRecord := "home.example.com"; CfZoneId := "z1"; IpVersion := 4 |}.

Definition u_home : CloudflareUpdater :=
  {| options := {| ipv4Zones := ["home.example.com"]; ipv6Zones := [];
                   lastIpv4 := None; lastIpv6 := None |};
     configs := {| token := "t"; email := ""; key := ""; retryPolicy := "" |};
     actions := [home4]; isInit := true; api := None |}.

(** Two records of the provider, both with the content [203.0.113.5]. *)
Definition r1 : DNSRecord :=
  {| ID := "r1"; Content := "203.0.113.5"; TTL := 300; Proxied := Some true |}.
Definition r2 : DNSRecord :=
  {| ID := "r2"; Content := "203.0.113.5"; TTL := 60; Proxied := Some false |}.

(** [home.example.com] configured for both families, before and after
    [init]. *)
Definition s_both0 : Sys :=
  sys0 (updater0 ["home.example.com"] ["home.example.com"] "") [RZone (Ok "z1")].
Definition s_both : Sys := state_of (init s_both0).

(** [home.example.com] configured twice for IPv4. *)
Definition s_twice0 : Sys :=
  sys0 (updater0 ["home.example.com"; "home.example.com"] [] "") [RZone (Ok "z1")].

End Script.

(** * The package [main] *)

Module Main.
Import Updater.

(** ** Configuration: [splitZones], [newUpdater] *)

Definition splitZones (zones : string) : list string :=
  if String.eqb zones "" then [] else Split zones ",".

(** [updater.NewUpdaterOptions], of [updater.go]: the two slots start
    as [nil]. *)
Definition NewUpdaterOptions (ipv4Zones0 ipv6Zones0 : list string) : UpdaterOptions :=
  {| ipv4Zones := ipv4Zones0; ipv6Zones := ipv6Zones0;
     lastIpv4 := None; lastIpv6 := None |}.

(** [updater.NewCLoudflareConfigs]. *)
Definition NewCLoudflareConfigs (token0 email0 key0 retryPolicy0 : string)
  : CloudFlareConfigs :=
  {| token := token0; email := email0; key := key0; retryPolicy := retryPolicy0 |}.

(** A delegated prefix, [*net.IPNet]. *)
Record IPNet := {
  net_IP : IP;
  net_Mask : list byte;
}.

(** The log of package [main] ([slog]'s default logger). *)
Inductive SlogLevel := SlogDebug | SlogInfo | SlogWarn | SlogError.

Inductive SlogValue :=
| VError (err : error)
| VIP (ip : IP)
| VPrefix (prefix : IPNet).

Record SlogEntry := {
  s_level : SlogLevel;
  s_msg : string;
  s_attrs : list (string * SlogValue);
}.

(** What package [main] takes from libraries: [strings.EqualFold] and
    [net.IPMask.Size]. *)
Class MainRuntime := {
  EqualFold : string -> string -> bool;
  Mask_Size : list byte -> Z * Z;
}.

(** The router client ([avm.FritzBox]): a black box with a state of its
    own. *)
Class Router := {
  Box : Type;
  GetWanIpv4 : Box -> Box * result IP;
  GetwanIpv6 : Box -> Box * result IP;
  GetIpv6Prefix : Box -> Box * result IPNet;
}.

(** The two implementations of the [Updater] interface; the struct of
    the Cloudflare updater is in the state. *)
Inductive UpdaterImpl :=
| NoOPUpdater (o : UpdaterOptions)
| CloudflareUpdaterImpl.

Section WithMain.
Context {provider : Provider} {runtime : Runtime} {main_runtime : MainRuntime}.

(** [newUpdater]; [env] is [os.Getenv], [In] what the channel of the
    updater delivers once its worker runs. The first component is what
    [newUpdater] itself writes to the log of package [main]. *)
Definition newUpdater (env : string -> string) (In : list IP)
  : Sys -> list SlogEntry * Outcome (result UpdaterImpl) :=
  fun s =>
    let ipv4Zone := splitZones (env "CLOUDFLARE_ZONES_IPV4"%string) in
    let ipv6Zone := splitZones (env "CLOUDFLARE_ZONES_IPV6"%string) in
    if (length ipv4Zone =? 0)%nat && (length ipv6Zone =? 0)%nat then
      ([], Running
             (Err "Env CLOUDFLARE_ZONES_IPV4 and CLOUDFLARE_ZONES_IPV6 not found"%string)
             s)
    else
      let updaterOptions := NewUpdaterOptions ipv4Zone ipv6Zone in
      if EqualFold (env "UPDATER"%string) "NOOP" then
        ([], Running (Ok (NoOPUpdater updaterOptions)) s)
      else
        let token0 := env "CLOUDFLARE_API_TOKEN"%string in
        let email0 := env "CLOUDFLARE_API_EMAIL"%string in
        let key0 := env "CLOUDFLARE_API_KEY"%string in
        if String.eqb token0 "" && (String.eqb email0 "" || String.eqb key0 "") then
          ([], Running
                 (Err "No CloudFlare token or email&key pair was provided."%string) s)
        else
          let warned :=
            if String.eqb token0 ""
            then [{| s_level := SlogWarn;
                     s_msg := "Using deprecated credentials via the API key";
                     s_attrs := [] |}]
            else [] in
          let retryPolicy0 := env "CLOUDFLARE_RETRY_POLICY"%string in
          let cloudflareConfigs :=
            NewCLoudflareConfigs token0 email0 key0 retryPolicy0 in
          (warned,
           bind (NewCloudflareUpdater updaterOptions cloudflareConfigs In)
                (fun err =>
                   match err with
                   | Some e => ret (Err e)
                   | None => ret (Ok CloudflareUpdaterImpl)
                   end) s).

End WithMain.

(** ** The poller of [startPollServer] *)

Record PollConfig := {
  useIpv4 : bool;
  useIpv6 : bool;
  localIp : option IP;
}.

Section WithRouter.
Context {router : Router} {main_runtime : MainRuntime}.

(** The state of the polling goroutine: the router, [lastV4] and
    [lastV6], the addresses handed to [updater.OnNewIp] so far (oldest
    first) and the log. *)
Record PollState := {
  box : Box;
  lastV4 : IP;
  lastV6 : IP;
  sent : list IP;
  slog : list SlogEntry;
}.

Definition set_box (b : Box) (s : PollState) : PollState :=
  {| box := b; lastV4 := lastV4 s; lastV6 := lastV6 s; sent := sent s;
     slog := slog s |}.

Definition set_lastV4 (ip : IP) (s : PollState) : PollState :=
  {| box := box s; lastV4 := ip; lastV6 := lastV6 s; sent := sent s;
     slog := slog s |}.

Definition set_lastV6 (ip : IP) (s : PollState) : PollState :=
  {| box := box s; lastV4 := lastV4 s; lastV6 := ip; sent := sent s;
     slog := slog s |}.

(** [updater.OnNewIp(&ip)]. *)
Definition OnNewIp (ip : IP) (s : PollState) : PollState :=
  {| box := box s; lastV4 := lastV4 s; lastV6 := lastV6 s; sent := sent s ++ [ip];
     slog := slog s |}.

Definition slog_write (lv : SlogLevel) (m : string)
    (more : list (string * SlogValue)) (s : PollState) : PollState :=
  {| box := box s; lastV4 := lastV4 s; lastV6 := lastV6 s; sent := sent s;
     slog := slog s ++ [{| s_level := lv; s_msg := m; s_attrs := more |}] |}.

(** The state the goroutine starts in: [lastV4 := net.IP{}],
    [lastV6 := net.IP{}]. *)
Definition poll_start (b : Box) : PollState :=
  {| box := b; lastV4 := []; lastV6 := []; sent := []; slog := [] |}.

(** The branch [if useIpv4]. *)
Definition poll_ipv4 (s : PollState) : PollState :=
  let '(b, r) := GetWanIpv4 (box s) in
  let s := set_box b s in
  match r with
  | Err err =>
      slog_write SlogWarn "Failed to poll WAN IPv4 from router" [("error", VError err)] s
  | Ok ipv4 =>
      let s := OnNewIp ipv4 s in
      if negb (Equal (lastV4 s) ipv4) then
        set_lastV4 ipv4 (slog_write SlogInfo "New WAN IPv4 found" [("ipv4", VIP ipv4)] s)
      else s
  end.

(** The branch [if *localIp == nil && useIpv6]. *)
Definition poll_ipv6 (s : PollState) : PollState :=
  let '(b, r) := GetwanIpv6 (box s) in
  let s := set_box b s in
  match r with
  | Err err =>
      slog_write SlogWarn "Failed to poll WAN IPv6 from router" [("error", VError err)] s
  | Ok ipv6 =>
      if negb (Equal (lastV6 s) ipv6) then
        set_lastV6 ipv6
          (OnNewIp ipv6
             (slog_write SlogInfo "New WAN IPv6 found" [("ipv6", VIP ipv6)] s))
      else s
  end.

(** The branch [else if useIpv6]; [None] is the panic of an index out
    of range. *)
Definition poll_prefix (lip : IP) (s : PollState) : option PollState :=
  let '(b, r) := GetIpv6Prefix (box s) in
  let s := set_box b s in
  match r with
  | Err err =>
      Some (slog_write SlogWarn "Failed to poll IPv6 Prefix from router"
              [("error", VError err)] s)
  | Ok prefix =>
      let maskLen := (Mask_Size (net_Mask prefix)).1 in
      constructedIp ← PrefixCombiner.constructIp (net_IP prefix) maskLen lip;
      let s := slog_write SlogInfo "New IPv6 Prefix found"
                 [("prefix", VPrefix prefix); ("ipv6", VIP constructedIp)] s in
      let s := OnNewIp constructedIp s in
      Some (if negb (Equal (lastV6 s) (net_IP prefix))
            then set_lastV6 (net_IP prefix) s
            else s)
  end.

(** The closure [poll]. *)
Definition poll (cfg : PollConfig) (s : PollState) : option PollState :=
  let s := slog_write SlogDebug "Polling WAN IPs from router" [] s in
  let s := if useIpv4 cfg then poll_ipv4 s else s in
  match localIp cfg with
  | None => if useIpv6 cfg then Some (poll_ipv6 s) else Some s
  | Some lip => if useIpv6 cfg then poll_prefix lip s else Some s
  end.

(** [poll()] once, then once more at each of [ticks] ticks of the
    ticker. *)
Fixpoint polls (cfg : PollConfig) (ticks : nat) (s : PollState) : option PollState :=
  match ticks with
  | O => poll cfg s
  | S n => s' ← poll cfg s; polls cfg n s'
  end.

End WithRouter.

End Main.

(** ** A scripted router, to run the poller on concrete inputs *)

Module MainScript.
Import Updater Main.

(** What the router answers to the next call of each kind. *)
Inductive Answer :=
| AWan4 (r : result IP)
| AWan6 (r : result IP)
| APrefix (r : result IPNet).

(** The router answers from a script, in order; with the script used
    up, or on a call it does not expect next, it returns an error. *)
#[export] Instance scripted_router : Router := {|
  Box := list Answer;
  GetWanIpv4 b :=
    match b with AWan4 r :: b' => (b', r) | _ => (b, Script.unexpected) end;
  GetwanIpv6 b :=
    match b with AWan6 r :: b' => (b', r) | _ => (b, Script.unexpected) end;
  GetIpv6Prefix b :=
    match b with APrefix r :: b' => (b', r) | _ => (b, Script.unexpected) end;
|}.

(** The number of leading one bits of a byte. *)
Definition leading_ones (v : byte) : Z :=
  let n := byte.unsigned v in
  if n =? 255 then 8 else if 254 <=? n then 7 else if 252 <=? n then 6
  else if 248 <=? n then 5 else if 240 <=? n then 4 else if 224 <=? n then 3
  else if 192 <=? n then 2 else if 128 <=? n then 1 else 0.

(** A stand-in for the libraries: [EqualFold] compares the two strings
    with their ASCII letters in upper case; [Mask_Size] counts the
    leading one bits of the bytes up to the first byte that is not
    [0xff]. *)
Definition upper (c : ascii) : ascii :=
  let n := nat_of_ascii c in
  if (97 <=? n)%nat && (n <=? 122)%nat then ascii_of_nat (n - 32) else c.

Fixpoint map_string (f : ascii -> ascii) (s : string) : string :=
  match s with
  | EmptyString => EmptyString
  | String c s' => String (f c) (map_string f s')
  end.

Fixpoint mask_ones (mask : list byte) : Z :=
  match mask with
  | [] => 0
  | v :: rest =>
      if Byte.eqb v Byte.xff then 8 + mask_ones rest else leading_ones v
  end.

#[export] Instance small_main_runtime : MainRuntime := {|
  EqualFold a b := String.eqb (map_string upper a) (map_string upper b);
  Mask_Size mask := (mask_ones mask, Z.of_nat (length mask) * 8);
|}.

(** A router that gives the same two answers at every poll. *)
Definition steady_router (r4 r6 : result IP) : Router :=
  {| Box := unit;
     GetWanIpv4 _ := (tt, r4);
     GetwanIpv6 _ := (tt, r6);
     GetIpv6Prefix _ := (tt, Script.unexpected) |}.

(** The router of a home with the steady addresses [203.0.113.5] and
    [2001:db8:1:2::1], and a router that cannot be reached. *)
Definition steady_home : Router :=
  steady_router (Ok Script.ip_203_0_113_5) (Ok PrefixCombiner.addr_2001_db8_1_2_1).

Definition router_down : Router :=
  steady_router (Err "unreachable"%string) (Err "unreachable"%string).

(** [home.example.com] configured for IPv4, with a token. *)
Definition o_home4 : UpdaterOptions :=
  NewUpdaterOptions ["home.example.com"%string] [].

Definition c_token : CloudFlareConfigs :=
  NewCLoudflareConfigs "t" "" "" "".

(** IPv6 alone in use, with the local address [lip]. *)
Definition prefix_only (lip : IP) : PollConfig :=
  {| useIpv4 := false; useIpv6 := true; localIp := Some lip |}.

(** An environment: the variables listed, every other one unset. *)
Fixpoint env_of (vars : list (string * string)) (name : string) : string :=
  match vars with
  | [] => EmptyString
  | (n, v) :: vars' => if String.eqb n name then v else env_of vars' name
  end.

(** The mask of a prefix of length 64. *)
Definition mask_64 : list byte :=
  replicate 8 Byte.xff ++ replicate 8 Byte.x00.

(** The prefix [2001:db8:1:2::/64]. *)
Definition prefix_2001_db8_1_2 : IPNet :=
  {| net_IP := PrefixCombiner.net_2001_db8_1_2; net_Mask := mask_64 |}.

End MainScript.

(** * What the further properties are stated with *)

(** How often the character [c] occurs in [s]. *)
Fixpoint count_char (c : ascii) (s : string) : nat :=
  match s with
  | EmptyString => O
  | String a s' => (if Ascii.eqb a c then 1 else 0) + count_char c s'
  end.

(** Whether the character [c] occurs in [s]. *)
Fixpoint contains (c : ascii) (s : string) : bool :=
  match s with
  | EmptyString => false
  | String a s' => Ascii.eqb a c || contains c s'
  end.

Section StatedWith.
Import Updater.
Context {provider : Provider} {runtime : Runtime}.

(** The client [InitApi] makes from the credentials. *)
Definition made_client (c : CloudFlareConfigs) : result API :=
  if String.eqb (token c) ""
  then cf_New (key c) (email c)
  else cf_NewWithAPIToken (token c).

(** A field of the retry policy that [strconv.Atoi] accepts. *)
Definition parses (field : string) : Prop := exists n, Atoi field = Ok n.

(** The name [InitApi] gives the field [i] of the retry policy in its
    errors. *)
Definition retry_field (i : nat) : string :=
  match i with
  | O => "maxRetries"
  | S O => "minRetryDelaySeconds"
  | _ => "maxRetryDelaySecs"
  end.

Definition is_zone_call (c : Call) : bool :=
  match c with CallZoneIDByName _ => true | _ => false end.

Definition zone_lookup (e : Event) : Prop := is_zone_call (ev_call e) = true.

(** The call [c] is one the reconciliation of [action] for the address
    [ip] makes: in the zone of the action, for its record name and the
    record type of the family of [ip], with the text of [ip] as content. *)
Definition targets (ip : IP) (action : Action) (c : Call) : Prop :=
  match c with
  | CallZoneIDByName _ => False
  | CallListDNSRecords rc p =>
      rc = CfZoneId action /\ l_Name p = DnsRecord action /\
      l_Type p = recordType_of ip
  | CallCreateDNSRecord rc p =>
      rc = CfZoneId action /\ c_ZoneID p = CfZoneId action /\
      c_Name p = DnsRecord action /\ c_Type p = recordType_of ip /\
      c_Content p = IP_String ip
  | CallUpdateDNSRecord rc p =>
      rc = CfZoneId action /\ u_Content p = IP_String ip
  end.

End StatedWith.

Section StatedWithRouter.
Import Main.
Context {router : Router} {main_runtime : MainRuntime}.

(** The router as the IPv6 branch of [poll] finds it: after the call of
    [GetWanIpv4] when IPv4 is in use. *)
Definition box_for_ipv6 (cfg : PollConfig) (s : PollState) : Box :=
  if useIpv4 cfg then (GetWanIpv4 (box s)).1 else box s.

(** Both families configured and no local address: the two WAN
    addresses are polled. *)
Definition direct_mode : PollConfig :=
  {| useIpv4 := true; useIpv6 := true; localIp := None |}.

(** The prefix length [poll] takes from a prefix: the first result of
    [prefix.Mask.Size()]. *)
Definition maskLen_of (prefix : IPNet) : Z := (Mask_Size (net_Mask prefix)).1.

End StatedWithRouter.

(** * Properties of the prefix construction *)

Section PrefixCombinerFacts.
Import PrefixCombiner.

Lemma byte_unsigned_small (z : Z) : 0 <= z < 256 -> byte.unsigned (byte.of_Z z) = z.
Proof.
  intros H. rewrite byte.unsigned_of_Z. unfold byte.wrap.
  apply Z.mod_small. change (2 ^ 8) with 256. lia.
Qed.

(** The mask of byte [k] has one of nine values, by the position of [L]
    relative to the eight bit positions of the byte. *)
Lemma byte_mask_cases (k L : Z) :
  byte.unsigned (byte_mask k L) =
    if (L <=? k * 8) then 255
    else if (L <=? k * 8 + 1) then 127
    else if (L <=? k * 8 + 2) then 63
    else if (L <=? k * 8 + 3) then 31
    else if (L <=? k * 8 + 4) then 15
    else if (L <=? k * 8 + 5) then 7
    else if (L <=? k * 8 + 6) then 3
    else if (L <=? k * 8 + 7) then 1
    else 0.
Proof.
  unfold byte_mask, mask_loop.
  repeat match goal with
  | |- context [ (?a >=? ?b) ] =>
      rewrite (Z.geb_leb a b); destruct (Z.leb_spec b a); try lia
  | |- context [ (?a <=? ?b) ] =>
      destruct (Z.leb_spec a b); try lia
  end; reflexivity.
Qed.

Lemma byte_testbit_high (b : byte) (p : Z) :
  8 <= p -> Z.testbit (byte.unsigned b) p = false.
Proof.
  intros Hp. pose proof (byte.unsigned_range b) as Hb.
  destruct (Z.eq_dec (byte.unsigned b) 0) as [-> | Hnz].
  - apply Z.bits_0.
  - apply Z.bits_above_log2; [lia |].
    assert (Z.log2 (byte.unsigned b) < 8); [| lia].
    apply Z.log2_lt_pow2; lia.
Qed.

Lemma unsigned_byte_and (a b : byte) :
  byte.unsigned (byte_and a b) = Z.land (byte.unsigned a) (byte.unsigned b).
Proof.
  unfold byte_and. rewrite byte.unsigned_of_Z. unfold byte.wrap.
  rewrite <- Z.land_ones by lia.
  apply Z.bits_inj'. intros p Hp.
  rewrite !Z.land_spec, Z.testbit_ones by lia.
  destruct (Z.ltb_spec p 8) as [Hlt | Hge].
  - replace (0 <=? p) with true by (symmetry; apply Z.leb_le; lia).
    now rewrite andb_true_r.
  - rewrite (byte_testbit_high a p Hge). now rewrite andb_false_r.
Qed.

Lemma unsigned_byte_or (a b : byte) :
  byte.unsigned (byte_or a b) = Z.lor (byte.unsigned a) (byte.unsigned b).
Proof.
  unfold byte_or. rewrite byte.unsigned_of_Z. unfold byte.wrap.
  rewrite <- Z.land_ones by lia.
  apply Z.bits_inj'. intros p Hp.
  rewrite Z.land_spec, !Z.lor_spec, Z.testbit_ones by lia.
  destruct (Z.ltb_spec p 8) as [Hlt | Hge].
  - replace (0 <=? p) with true by (symmetry; apply Z.leb_le; lia).
    now rewrite andb_true_r.
  - rewrite (byte_testbit_high a p Hge), (byte_testbit_high b p Hge).
    reflexivity.
Qed.

(** Bit [j] (0 = most significant) of the mask of byte [k] is set exactly
    when the bit position [k*8 + j] is not below [L]. *)
Lemma byte_mask_bit (k L j : Z) :
  0 <= j < 8 ->
  Z.testbit (byte.unsigned (byte_mask k L)) (7 - j) = (L <=? k * 8 + j).
Proof.
  intros Hj. rewrite byte_mask_cases.
  assert (j = 0 \/ j = 1 \/ j = 2 \/ j = 3 \/ j = 4 \/ j = 5 \/ j = 6 \/ j = 7)
    as Hcases by lia.
  repeat match goal with
  | |- context [ (?a <=? ?b) ] => destruct (Z.leb_spec a b); try lia
  end;
  repeat (destruct Hcases as [-> | Hcases]; [try reflexivity; try lia |]);
  subst; try reflexivity; lia.
Qed.

(** Without a shared bit, adding is the same as OR-ing. *)
Lemma add_combine_or (n s m : byte) :
  Z.land (byte.unsigned n) (byte.unsigned (byte_and s m)) = 0 ->
  add_combine n s m = or_combine n s m.
Proof.
  intros Hdisj. unfold add_combine, or_combine, byte_add, byte_or.
  f_equal. rewrite Z.add_nocarry_lxor by exact Hdisj.
  now apply Z.lxor_lor.
Qed.

Lemma copy_full (src : IP) :
  length src = IPv6len -> copy (make_IP IPv6len) src = src.
Proof.
  intros Hlen. unfold copy, make_IP.
  rewrite length_replicate, Hlen.
  rewrite take_ge by (rewrite Hlen; reflexivity).
  rewrite drop_ge by (rewrite length_replicate; reflexivity).
  apply app_nil_r.
Qed.

(** The outer loop over the indices [a, a+1, ..., a+n-1]: these bytes are
    combined, every other byte of [constructedIp] is left as it was. *)
Lemma combine_loop_seq (n a : nat) (L : Z) (l c : IP) :
  (a + n <= length c)%nat -> (a + n <= length l)%nat ->
  exists r, combine_loop (seq a n) L l c = Some r /\
    length r = length c /\
    forall k : nat,
      r !! k =
        if decide (a <= k < a + n)%nat
        then b ← c !! k; lb ← l !! k;
             Some (add_combine b lb (byte_mask (Z.of_nat k) L))
        else c !! k.
Proof.
  revert a c. induction n as [| n IH]; intros a c Hc Hl.
  - exists c. split; [reflexivity |]. split; [reflexivity |].
    intros k. case_decide; [lia | reflexivity].
  - cbn [seq combine_loop].
    destruct (lookup_lt_is_Some_2 c a ltac:(lia)) as [b Hb].
    destruct (lookup_lt_is_Some_2 l a ltac:(lia)) as [lb Hlb].
    rewrite Hb, Hlb. cbn.
    destruct (IH (S a)
      (<[a := byte_add b (byte_and lb (byte_mask (Z.of_nat a) L))]> c))
      as (r & Hr & Hlen & Hk).
    { rewrite length_insert. lia. }
    { lia. }
    exists r. split; [exact Hr |]. split.
    { rewrite Hlen. apply length_insert. }
    intros k. rewrite Hk.
    destruct (decide (k = a)) as [-> | Hne].
    + rewrite decide_False by lia. rewrite decide_True by lia.
      rewrite list_lookup_insert_eq by lia.
      rewrite Hb, Hlb. reflexivity.
    + rewrite list_lookup_insert_ne by congruence.
      repeat case_decide; try lia; reflexivity.
Qed.

(** The result of the construction, byte by byte. *)
Lemma constructIp_bytes (network suffix : IP) (L : Z) :
  length network = IPv6len -> length suffix = IPv6len ->
  exists r, constructIp network L suffix = Some r /\
    length r = IPv6len /\
    forall (k : nat) n s, network !! k = Some n -> suffix !! k = Some s ->
      r !! k = Some (add_combine n s (byte_mask (Z.of_nat k) L)).
Proof.
  intros Hn Hs. unfold constructIp. rewrite (copy_full network Hn).
  destruct (combine_loop_seq IPv6len 0 L suffix network) as (r & Hr & Hlen & Hk).
  { rewrite Hn. reflexivity. }
  { rewrite Hs. reflexivity. }
  exists r. split; [exact Hr |]. split; [congruence |].
  intros k n s Hnk Hsk. rewrite Hk.
  apply lookup_lt_Some in Hnk as Hlt. rewrite Hn in Hlt.
  rewrite decide_True by (unfold IPv6len in *; lia).
  rewrite Hnk, Hsk. reflexivity.
Qed.

Lemma ip_bit_at (a : IP) (k j : nat) (b : byte) :
  a !! k = Some b -> (j < 8)%nat ->
  ip_bit a (k * 8 + j) = Z.testbit (byte.unsigned b) (7 - Z.of_nat j).
Proof.
  intros Hk Hj. unfold ip_bit.
  replace ((k * 8 + j) / 8)%nat with k
    by (apply Nat.div_unique with j; lia).
  replace ((k * 8 + j) mod 8)%nat with j
    by (apply Nat.mod_unique with k; lia).
  now rewrite Hk.
Qed.

(** A well-formed network byte shares no bit with the mask of its index. *)
Lemma wellformed_disjoint (network : IP) (L : Z) (k : nat) (n : byte) :
  wellformed network L -> network !! k = Some n -> (k < 16)%nat ->
  Z.land (byte.unsigned n) (byte.unsigned (byte_mask (Z.of_nat k) L)) = 0.
Proof.
  intros Hwf Hk Hlt. apply Z.bits_inj'. intros p Hp.
  rewrite Z.land_spec, Z.bits_0.
  destruct (Z.ltb_spec p 8) as [Hp8 | Hp8].
  - replace p with (7 - Z.of_nat (Z.to_nat (7 - p))) by lia.
    rewrite byte_mask_bit by lia.
    destruct (Z.leb_spec L (Z.of_nat k * 8 + Z.of_nat (Z.to_nat (7 - p))))
      as [Hle | Hgt]; [| apply andb_false_r].
    rewrite <- (ip_bit_at network k (Z.to_nat (7 - p)) n Hk) by lia.
    rewrite Hwf; [reflexivity | lia | lia].
  - now rewrite (byte_testbit_high n p Hp8).
Qed.

Lemma land_masked_0 (n s m : byte) :
  Z.land (byte.unsigned n) (byte.unsigned m) = 0 ->
  Z.land (byte.unsigned n) (byte.unsigned (byte_and s m)) = 0.
Proof.
  intros H. rewrite unsigned_byte_and.
  rewrite (Z.land_comm (byte.unsigned s)), Z.land_assoc, H.
  apply Z.land_0_l.
Qed.

(** Bit [i] of the constructed address when the delegated prefix is well
    formed: a network bit below [L], a host bit from [L] on. *)
Lemma constructIp_bit (network suffix r : IP) (L : Z) (i : nat) :
  length network = IPv6len -> length suffix = IPv6len ->
  constructIp network L suffix = Some r ->
  wellformed network L -> (i < 128)%nat ->
  ip_bit r i = if Z.of_nat i <? L then ip_bit network i else ip_bit suffix i.
Proof.
  intros Hn Hs Hr Hwf Hi.
  destruct (constructIp_bytes network suffix L Hn Hs) as (r' & Hr' & _ & Hbytes).
  assert (r' = r) as -> by congruence.
  assert (exists k j : nat, i = (k * 8 + j)%nat /\ (j < 8)%nat) as (k & j & -> & Hj).
  { exists (i / 8)%nat, (i mod 8)%nat. split.
    - pose proof (Nat.div_mod_eq i 8). lia.
    - apply Nat.mod_upper_bound. lia. }
  assert (k < 16)%nat as Hk by lia.
  unfold IPv6len in *.
  destruct (lookup_lt_is_Some_2 network k ltac:(lia)) as [n Hnk].
  destruct (lookup_lt_is_Some_2 suffix k ltac:(lia)) as [s Hsk].
  pose proof (Hwf (k * 8 + j)%nat Hi) as Hzero.
  rewrite (ip_bit_at network k j n Hnk Hj) in *.
  rewrite (ip_bit_at suffix k j s Hsk Hj).
  rewrite (ip_bit_at r k j _ (Hbytes k n s Hnk Hsk) Hj).
  pose proof (wellformed_disjoint network L k n Hwf Hnk Hk) as Hdisj.
  rewrite add_combine_or by now apply land_masked_0.
  unfold or_combine. rewrite unsigned_byte_or, unsigned_byte_and.
  rewrite Z.lor_spec, Z.land_spec, byte_mask_bit by lia.
  replace (Z.of_nat k * 8 + Z.of_nat j) with (Z.of_nat (k * 8 + j)) by lia.
  destruct (Z.ltb_spec (Z.of_nat (k * 8 + j)) L) as [Hlt | Hge].
  - replace (L <=? Z.of_nat (k * 8 + j)) with false
      by (symmetry; apply Z.leb_gt; lia).
    now rewrite andb_false_r, orb_false_r.
  - replace (L <=? Z.of_nat (k * 8 + j)) with true
      by (symmetry; apply Z.leb_le; lia).
    rewrite andb_true_r, (Hzero Hge). reflexivity.
Qed.

Lemma wellformedb_sound (network : IP) (L : Z) :
  wellformedb network L = true -> wellformed network L.
Proof.
  unfold wellformedb, wellformed. rewrite forallb_forall.
  intros Hall i Hi HL.
  specialize (Hall i). rewrite in_seq in Hall.
  specialize (Hall ltac:(lia)).
  replace (L <=? Z.of_nat i) with true in Hall
    by (symmetry; apply Z.leb_le; lia).
  cbn in Hall. now apply negb_true_iff in Hall.
Qed.

Lemma byte_mask_128 (k : nat) : (k < 16)%nat -> byte_mask (Z.of_nat k) 128 = Byte.x00.
Proof.
  intros Hk. apply byte.unsigned_inj. rewrite byte_mask_cases.
  repeat match goal with
  | |- context [ (?a <=? ?b) ] => destruct (Z.leb_spec a b); try lia
  end. reflexivity.
Qed.

Lemma byte_mask_0 (k : nat) : byte.unsigned (byte_mask (Z.of_nat k) 0) = 255.
Proof.
  rewrite byte_mask_cases.
  destruct (Z.leb_spec 0 (Z.of_nat k * 8)); [reflexivity | lia].
Qed.

Lemma add_combine_mask_x00 (n s : byte) : add_combine n s Byte.x00 = n.
Proof.
  unfold add_combine, byte_add. rewrite unsigned_byte_and.
  change (byte.unsigned Byte.x00) with 0.
  rewrite Z.land_0_r, Z.add_0_r. apply byte.of_Z_unsigned.
Qed.

Lemma byte_and_full (s m : byte) : byte.unsigned m = 255 -> byte_and s m = s.
Proof.
  intros Hm. apply byte.unsigned_inj. rewrite unsigned_byte_and, Hm.
  change 255 with (Z.ones 8). rewrite Z.land_ones by lia.
  apply Z.mod_small. apply byte.unsigned_range.
Qed.

(** With prefix length 0 every byte is the wrapped sum of the two bytes. *)
Lemma add_combine_mask_0 (n s : byte) (k : nat) :
  add_combine n s (byte_mask (Z.of_nat k) 0) = byte_add n s.
Proof.
  unfold add_combine. now rewrite (byte_and_full s _ (byte_mask_0 k)).
Qed.

Lemma wellformed_0_zero (network : IP) (k : nat) (n : byte) :
  wellformed network 0 -> network !! k = Some n -> (k < 16)%nat -> n = Byte.x00.
Proof.
  intros Hwf Hk Hlt.
  pose proof (wellformed_disjoint network 0 k n Hwf Hk Hlt) as Hdisj.
  rewrite byte_mask_0 in Hdisj.
  apply byte.unsigned_inj. change (byte.unsigned Byte.x00) with 0.
  rewrite <- Hdisj. change 255 with (Z.ones 8).
  rewrite Z.land_ones by lia. symmetry.
  apply Z.mod_small. apply byte.unsigned_range.
Qed.

Lemma byte_add_x00_l (s : byte) : byte_add Byte.x00 s = s.
Proof. unfold byte_add. cbn. apply byte.of_Z_unsigned. Qed.

(** Under well-formedness the source's addition and the document's OR
    build the same address. *)
Lemma constructIp_or_eq (network suffix : IP) (L : Z) :
  length network = IPv6len -> length suffix = IPv6len ->
  wellformed network L ->
  constructIp network L suffix = Some (constructIp_or network L suffix).
Proof.
  intros Hn Hs Hwf.
  destruct (constructIp_bytes network suffix L Hn Hs) as (r & Hr & Hlen & Hbytes).
  rewrite Hr. f_equal. apply list_eq. intros k.
  unfold constructIp_or. rewrite list_lookup_imap, lookup_zip_with.
  destruct (network !! k) as [n |] eqn:Hnk; cbn.
  - apply lookup_lt_Some in Hnk as Hk. rewrite Hn in Hk. unfold IPv6len in *.
    destruct (lookup_lt_is_Some_2 suffix k ltac:(lia)) as [s Hsk].
    rewrite Hsk. cbn. rewrite (Hbytes k n s Hnk Hsk). f_equal.
    apply add_combine_or, land_masked_0.
    now apply (wellformed_disjoint network L k n).
  - apply lookup_ge_None. apply lookup_ge_None in Hnk. lia.
Qed.

End PrefixCombinerFacts.

(** * The stated properties of the prefix construction *)

Section PrefixCombinerClaims.
Import PrefixCombiner.

(** C5 (as amended). For a 16-byte network address, a 16-byte host
    suffix and any prefix length [L], the construction returns a 16-byte
    address whose byte [k] is [network[k] + (suffix[k] & mask_k)] in byte
    arithmetic, where bit [j] (0 = most significant) of [mask_k] is set
    exactly when [k*8 + j >= L]. When the network address is well formed
    (all its bits from position [L] on are zero), bit [i] of the result is
    the network bit for [i < L] and the host bit otherwise. *)
Theorem prefix_combiner_bytewise (network suffix : IP) (L : Z) :
  length network = IPv6len -> length suffix = IPv6len ->
  exists r, constructIp network L suffix = Some r /\ length r = IPv6len /\
    (forall (k : nat) n s, network !! k = Some n -> suffix !! k = Some s ->
       r !! k = Some (byte_add n (byte_and s (byte_mask (Z.of_nat k) L))) /\
       forall j, 0 <= j < 8 ->
         (Z.testbit (byte.unsigned (byte_mask (Z.of_nat k) L)) (7 - j) = true
          <-> Z.of_nat k * 8 + j >= L)) /\
    (wellformed network L ->
     forall i : nat, (i < 128)%nat ->
       ip_bit r i = if Z.of_nat i <? L then ip_bit network i else ip_bit suffix i).
Proof.
  intros Hn Hs.
  destruct (constructIp_bytes network suffix L Hn Hs) as (r & Hr & Hlen & Hbytes).
  exists r. split; [exact Hr |]. split; [exact Hlen |]. split.
  - intros k n s Hnk Hsk. split; [exact (Hbytes k n s Hnk Hsk) |].
    intros j Hj. rewrite byte_mask_bit by exact Hj.
    rewrite Z.leb_le. lia.
  - intros Hwf i Hi. now apply (constructIp_bit network suffix r L i).
Qed.

Lemma prefix_combiner_bytewise_witness :
  exists r, constructIp net_2001_db8_1_2 64 host_1 = Some r /\ length r = IPv6len /\
    (forall (k : nat) n s,
       net_2001_db8_1_2 !! k = Some n -> host_1 !! k = Some s ->
       r !! k = Some (byte_add n (byte_and s (byte_mask (Z.of_nat k) 64))) /\
       forall j, 0 <= j < 8 ->
         (Z.testbit (byte.unsigned (byte_mask (Z.of_nat k) 64)) (7 - j) = true
          <-> Z.of_nat k * 8 + j >= 64)) /\
    (wellformed net_2001_db8_1_2 64 ->
     forall i : nat, (i < 128)%nat ->
       ip_bit r i =
         if Z.of_nat i <? 64 then ip_bit net_2001_db8_1_2 i else ip_bit host_1 i).
Proof.
  apply (prefix_combiner_bytewise net_2001_db8_1_2 host_1 64); reflexivity.
Defined.

(** C5 as stated does not hold: with network [2001:db8:1:2::1],
    suffix [::2] and [L = 64] no byte addition carries, the result is
    [2001:db8:1:2::3], and its bit 127 is set although bit 127 of the
    suffix is not. *)
Lemma prefix_combiner_no_carry_counterexample :
  no_carry addr_2001_db8_1_2_1 host_2 64 /\
  constructIp addr_2001_db8_1_2_1 64 host_2 = Some addr_2001_db8_1_2_3 /\
  ~ (forall i : nat, (i < 128)%nat ->
       ip_bit addr_2001_db8_1_2_3 i =
         if Z.of_nat i <? 64 then ip_bit addr_2001_db8_1_2_1 i else ip_bit host_2 i).
Proof.
  split; [| split].
  - intros k n s Hn Hs.
    do 16 (destruct k as [| k];
           [injection Hn as <-; injection Hs as <-; vm_compute; reflexivity |]).
    discriminate Hn.
  - vm_compute. reflexivity.
  - intros H. specialize (H 127%nat ltac:(lia)). vm_compute in H. discriminate H.
Qed.

(** C6 (as amended). With [L = 128] the result is the network address
    unchanged. With [L = 0] every byte of the result is the byte sum of
    the network byte and the suffix byte, so the result is the suffix
    unchanged when the network address is all zero (the well-formed
    prefix of length 0). With [L = 64], network [2001:db8:1:2::] and
    suffix [::1] the result is [2001:db8:1:2::1]. *)
Theorem prefix_combiner_boundaries (network suffix : IP) :
  length network = IPv6len -> length suffix = IPv6len ->
  constructIp network 128 suffix = Some network /\
  (exists r, constructIp network 0 suffix = Some r /\
     forall (k : nat) n s, network !! k = Some n -> suffix !! k = Some s ->
       r !! k = Some (byte_add n s)) /\
  (wellformed network 0 -> constructIp network 0 suffix = Some suffix) /\
  constructIp net_2001_db8_1_2 64 host_1 = Some addr_2001_db8_1_2_1.
Proof.
  intros Hn Hs. split; [| split; [| split]].
  - destruct (constructIp_bytes network suffix 128 Hn Hs) as (r & Hr & Hlen & Hb).
    rewrite Hr. f_equal. apply list_eq. intros k.
    destruct (network !! k) as [n |] eqn:Hnk.
    + apply lookup_lt_Some in Hnk as Hk. rewrite Hn in Hk. unfold IPv6len in *.
      destruct (lookup_lt_is_Some_2 suffix k ltac:(lia)) as [s Hsk].
      rewrite (Hb k n s Hnk Hsk), byte_mask_128 by exact Hk.
      now rewrite add_combine_mask_x00.
    + apply lookup_ge_None. apply lookup_ge_None in Hnk. lia.
  - destruct (constructIp_bytes network suffix 0 Hn Hs) as (r & Hr & Hlen & Hb).
    exists r. split; [exact Hr |]. intros k n s Hnk Hsk.
    rewrite (Hb k n s Hnk Hsk). now rewrite add_combine_mask_0.
  - intros Hwf.
    destruct (constructIp_bytes network suffix 0 Hn Hs) as (r & Hr & Hlen & Hb).
    rewrite Hr. f_equal. apply list_eq. intros k.
    destruct (suffix !! k) as [s |] eqn:Hsk.
    + apply lookup_lt_Some in Hsk as Hk. rewrite Hs in Hk. unfold IPv6len in *.
      destruct (lookup_lt_is_Some_2 network k ltac:(lia)) as [n Hnk].
      rewrite (Hb k n s Hnk Hsk), add_combine_mask_0.
      rewrite (wellformed_0_zero network k n Hwf Hnk Hk).
      now rewrite byte_add_x00_l.
    + apply lookup_ge_None. apply lookup_ge_None in Hsk. lia.
  - vm_compute. reflexivity.
Qed.

Lemma prefix_combiner_boundaries_witness :
  constructIp net_2001_db8_1_2 128 host_1 = Some net_2001_db8_1_2 /\
  (exists r, constructIp net_2001_db8_1_2 0 host_1 = Some r /\
     forall (k : nat) n s,
       net_2001_db8_1_2 !! k = Some n -> host_1 !! k = Some s ->
       r !! k = Some (byte_add n s)) /\
  (wellformed net_2001_db8_1_2 0 ->
   constructIp net_2001_db8_1_2 0 host_1 = Some host_1) /\
  constructIp net_2001_db8_1_2 64 host_1 = Some addr_2001_db8_1_2_1.
Proof.
  apply (prefix_combiner_boundaries net_2001_db8_1_2 host_1); reflexivity.
Defined.

(** C6 as stated does not hold for [L = 0]: with network
    [2001:db8:1:2::] and suffix [::1] the result is [2001:db8:1:2::1],
    not the suffix. *)
Lemma prefix_combiner_length_0_counterexample :
  constructIp net_2001_db8_1_2 0 host_1 = Some addr_2001_db8_1_2_1 /\
  addr_2001_db8_1_2_1 <> host_1.
Proof.
  split; [vm_compute; reflexivity | vm_compute; discriminate].
Qed.

(** C7. For a well-formed delegated network address (all bits from
    position [L] on are zero) the byte-wise addition of the source gives,
    for every byte, the same value as the bitwise OR, and the constructed
    address is the one the OR combination builds. Without well-formedness
    the two can differ: [0x01 + (0xff & 0xff)] wraps to [0x00] while
    [0x01 | 0xff] is [0xff]. *)
Theorem add_or_equivalence :
  (forall (network suffix : IP) (L : Z),
     length network = IPv6len -> length suffix = IPv6len ->
     wellformed network L ->
     (forall (k : nat) n s, network !! k = Some n -> suffix !! k = Some s ->
        add_combine n s (byte_mask (Z.of_nat k) L) =
        or_combine n s (byte_mask (Z.of_nat k) L)) /\
     constructIp network L suffix = Some (constructIp_or network L suffix)) /\
  (length addr_2001_db8_1_2_1 = IPv6len /\ length host_ff = IPv6len /\
   ~ wellformed addr_2001_db8_1_2_1 64 /\
   constructIp addr_2001_db8_1_2_1 64 host_ff = Some net_2001_db8_1_2 /\
   constructIp_or addr_2001_db8_1_2_1 64 host_ff <> net_2001_db8_1_2).
Proof.
  split.
  - intros network suffix L Hn Hs Hwf. split.
    + intros k n s Hnk Hsk.
      apply lookup_lt_Some in Hnk as Hk. rewrite Hn in Hk.
      apply add_combine_or, land_masked_0.
      now apply (wellformed_disjoint network L k n).
    + now apply constructIp_or_eq.
  - split; [reflexivity |]. split; [reflexivity |]. split; [| split].
    + intros Hwf. specialize (Hwf 127%nat ltac:(lia) ltac:(lia)).
      vm_compute in Hwf. discriminate Hwf.
    + vm_compute. reflexivity.
    + vm_compute. discriminate.
Qed.

Lemma add_or_equivalence_witness :
  (forall (k : nat) n s, net_2001_db8_1_2 !! k = Some n -> host_1 !! k = Some s ->
     add_combine n s (byte_mask (Z.of_nat k) 64) =
     or_combine n s (byte_mask (Z.of_nat k) 64)) /\
  constructIp net_2001_db8_1_2 64 host_1 =
    Some (constructIp_or net_2001_db8_1_2 64 host_1).
Proof.
  apply (proj1 add_or_equivalence net_2001_db8_1_2 host_1 64);
    [reflexivity | reflexivity |].
  apply wellformedb_sound. vm_compute. reflexivity.
Defined.

End PrefixCombinerClaims.

(** * Facts about [net.IP] *)

Section NetIPFacts.

Lemma bytes_Equal_eq (a b : IP) : bytes_Equal a b = true <-> a = b.
Proof.
  revert b. induction a as [| x a IH]; intros [| y b]; cbn; try easy.
  rewrite andb_true_iff, IH. split.
  - intros [Hxy ->]. now rewrite (Byte.byte_dec_bl x y Hxy).
  - intros [= -> ->]. split; [now apply Byte.byte_dec_lb | reflexivity].
Qed.

Lemma bytes_Equal_refl (a : IP) : bytes_Equal a a = true.
Proof. now apply bytes_Equal_eq. Qed.

Lemma Equal_canonical (a b : IP) : Equal a b = true <-> canonical a = canonical b.
Proof.
  unfold Equal, canonical, IPv4len, IPv6len.
  destruct (Nat.eqb_spec (length a) (length b)) as [Hab | Hab].
  - rewrite Hab.
    destruct (Nat.eqb_spec (length b) 4); rewrite bytes_Equal_eq.
    + split; [now intros -> | now intros ?%app_inv_head].
    + reflexivity.
  - destruct (Nat.eqb_spec (length a) 4) as [Ha4 | Ha4];
      destruct (Nat.eqb_spec (length b) 4) as [Hb4 | Hb4];
      destruct (Nat.eqb_spec (length a) 16) as [Ha16 | Ha16];
      destruct (Nat.eqb_spec (length b) 16) as [Hb16 | Hb16];
      try lia; cbn [andb];
      try (split;
           [discriminate
           | intros Heq; apply (f_equal length) in Heq;
             rewrite ?length_app in Heq; cbn in Heq; lia]);
      rewrite andb_true_iff, !bytes_Equal_eq.
    + split.
      * intros [Hp ->]. rewrite <- Hp. apply take_drop.
      * intros <-. rewrite take_app_length', drop_app_length'; easy.
    + split.
      * intros [Hp <-]. rewrite <- Hp. symmetry. apply take_drop.
      * intros ->. rewrite take_app_length', drop_app_length'; easy.
Qed.

Lemma Equal_refl (a : IP) : Equal a a = true.
Proof. now apply Equal_canonical. Qed.

Lemma Equal_trans (a b c : IP) :
  Equal a b = true -> Equal b c = true -> Equal a c = true.
Proof. rewrite !Equal_canonical. congruence. Qed.

(** Whether [To4] answers [nil] depends on the canonical form only. *)
Lemma To4_canonical (ip : IP) : To4 (canonical ip) = None <-> To4 ip = None.
Proof.
  unfold canonical, IPv4len.
  destruct (Nat.eqb_spec (length ip) 4) as [H4 | H4]; [| reflexivity].
  unfold To4, IPv4len, IPv6len. rewrite length_app, H4. cbn.
  replace (length ip =? 4)%nat with true by (symmetry; now apply Nat.eqb_eq).
  easy.
Qed.

(** Equal addresses are of one family. *)
Lemma Equal_To4 (a b : IP) :
  Equal a b = true -> (To4 a = None <-> To4 b = None).
Proof.
  intros H%Equal_canonical.
  rewrite <- (To4_canonical a), <- (To4_canonical b), H. reflexivity.
Qed.

End NetIPFacts.

(** * Facts about the worker *)

Section WorkerFacts.
Import Updater.
Context {provider : Provider} {runtime : Runtime}.

Lemma for_range_app {A} (l1 l2 : list A) (body : A -> M unit) (s : Sys) :
  for_range (l1 ++ l2) body s = bind (for_range l1 body) (fun _ => for_range l2 body) s.
Proof.
  revert s. induction l1 as [| x l1 IH]; intros s; cbn.
  - reflexivity.
  - unfold bind in *. destruct (body x s); [apply IH | reflexivity | reflexivity].
Qed.

Lemma bind_ret {A B} (x : A) (k : A -> M B) (s : Sys) : bind (ret x) k s = k x s.
Proof. reflexivity. Qed.

Lemma state_of_bind {A B} (m : M A) (k : A -> M B) (s : Sys) :
  state_of (bind m k s) =
    match m s with
    | Running x s1 => state_of (k x s1)
    | Exited _ s1 => s1
    | Panicked _ s1 => s1
    end.
Proof. unfold bind. now destruct (m s). Qed.

Lemma last_of_family (o : UpdaterOptions) (a b : IP) :
  family_of a = family_of b -> last_of o a = last_of o b.
Proof.
  unfold family_of, last_of.
  destruct (To4 a), (To4 b); intros; (reflexivity || lia).
Qed.

Lemma is_duplicate_last_of (o : UpdaterOptions) (ip : IP) :
  is_duplicate o ip = true <->
  exists last, last_of o ip = Some last /\ Equal last ip = true.
Proof.
  unfold is_duplicate, last_of. destruct (To4 ip).
  - destruct (lastIpv4 o) as [last |].
    + split; [eauto | now intros (? & [= <-] & ?)].
    + split; [discriminate | now intros (? & [=] & ?)].
  - destruct (lastIpv6 o) as [last |].
    + split; [eauto | now intros (? & [= <-] & ?)].
    + split; [discriminate | now intros (? & [=] & ?)].
Qed.

Lemma Equal_family (a b : IP) : Equal a b = true -> family_of a = family_of b.
Proof.
  intros H%Equal_To4. unfold family_of.
  destruct (To4 a) as [a4 |], (To4 b) as [b4 |]; try reflexivity.
  - pose proof (proj2 H eq_refl) as Habs. discriminate Habs.
  - pose proof (proj1 H eq_refl) as Habs. discriminate Habs.
Qed.

(** A duplicate is dropped: nothing at all changes. *)
Lemma receive_duplicate (ip : IP) (s : Sys) :
  is_duplicate (options (updater s)) ip = true -> receive ip s = Running tt s.
Proof.
  intros Hdup. unfold receive, bind, get_updater. now rewrite Hdup.
Qed.

(** After an address went through the action loop, the slot of its family
    holds it. *)
Lemma receive_sets_last (ip : IP) (s s' : Sys) :
  is_duplicate (options (updater s)) ip = false ->
  receive ip s = Running tt s' ->
  last_of (options (updater s')) ip = Some ip.
Proof.
  intros Hdup. unfold receive, bind at 1, get_updater. rewrite Hdup.
  unfold bind at 1. cbn.
  unfold bind at 1.
  destruct (for_range _ _ _) as [[] s1 | |]; try discriminate.
  unfold last_of.
  destruct (To4 ip); cbn; intros [= <-]; reflexivity.
Qed.

(** Once [receive] returned, the slot of the family holds an address
    equal to the one received. *)
Lemma receive_remembers (ip : IP) (s s' : Sys) :
  receive ip s = Running tt s' ->
  exists last, last_of (options (updater s')) ip = Some last /\ Equal last ip = true.
Proof.
  intros Hrun.
  destruct (is_duplicate (options (updater s)) ip) eqn:Hdup.
  - rewrite (receive_duplicate ip s Hdup) in Hrun. injection Hrun as <-.
    now apply is_duplicate_last_of.
  - exists ip. split; [now apply (receive_sets_last ip s) | apply Equal_refl].
Qed.

(** The worker on a list of addresses of one family, the slot of that
    family remembering [prev]: the addresses equal to the last one kept
    change nothing. *)
Lemma spawnWorker_skip_equal (l : list IP) (prev : IP) (s : Sys) :
  (forall ip, ip ∈ l -> family_of ip = family_of prev) ->
  (exists last, last_of (options (updater s)) prev = Some last /\
                Equal last prev = true) ->
  spawnWorker l s = spawnWorker (skip_equal prev l) s.
Proof.
  unfold spawnWorker.
  revert prev s. induction l as [| ip l IH]; intros prev s Hfam Hlast.
  - reflexivity.
  - assert (family_of ip = family_of prev) as Hip by (apply Hfam; left).
    assert (forall x, x ∈ l -> family_of x = family_of prev) as Hl
      by (intros x Hx; apply Hfam; now right).
    cbn [skip_equal]. destruct (Equal prev ip) eqn:Heq.
    + cbn [for_range]. unfold bind at 1.
      rewrite receive_duplicate.
      * now apply IH.
      * apply is_duplicate_last_of.
        destruct Hlast as (last & Hslot & Hlp).
        exists last. split.
        -- now rewrite (last_of_family _ ip prev Hip).
        -- now apply (Equal_trans last prev ip).
    + cbn [for_range]. unfold bind.
      destruct (receive ip s) as [[] s1 | |] eqn:Hrecv; try reflexivity.
      apply IH.
      * intros x Hx. rewrite Hip. now apply Hl.
      * now apply (receive_remembers ip s).
Qed.

(** ** The shape of a run: calls, exits, log *)

Lemma ended_weaken (P Q : Action -> Prop) (s : Sys) {A} (o : Outcome A) evs :
  (forall a, P a -> Q a) -> ended P s o evs -> ended Q s o evs.
Proof.
  intros HPQ (Hc & Hu & Ho). split; [exact Hc |]. split; [exact Hu |].
  destruct o as [x s' | code s' | reason s']; [exact Ho | | exact Ho].
  destruct Ho as (-> & evs0 & e & err & action & m & H1 & H2 & H3 & H4 & H5).
  split; [reflexivity |]. exists evs0, e, err, action, m. repeat split; auto.
Qed.

(** Sequencing: a first part that returned, then a second part. *)
Lemma ended_bind (P : Action -> Prop) {A B} (m : M A) (k : A -> M B)
    (s s1 : Sys) (x : A) (evs1 evs2 : list Event) :
  m s = Running x s1 -> ended P s (m s) evs1 -> ended P s1 (k x s1) evs2 ->
  ended P s (bind m k s) (evs1 ++ evs2).
Proof.
  intros Hm (Hc1 & Hu1 & Ho1) (Hc2 & Hu2 & Ho2).
  unfold bind, ended. rewrite Hm in *. cbn in Hc1, Hu1, Ho1.
  destruct (k x s1) as [y s2 | code s2 | reason s2]; cbn in *.
  - split; [now rewrite Hc2, Hc1, app_assoc |]. split; [congruence |].
    now apply Forall_app.
  - split; [now rewrite Hc2, Hc1, app_assoc |]. split; [congruence |].
    destruct Ho2 as (-> & evs0 & e & err & action & msg0 & -> & H2 & H3 & H4 & H5).
    split; [reflexivity |].
    exists (evs1 ++ evs0), e, err, action, msg0.
    split; [now rewrite app_assoc |]. split; [now apply Forall_app |].
    repeat split; assumption.
  - destruct Ho2.
Qed.

(** A first part that did not return ends the whole. *)
Lemma ended_bind_stop (P : Action -> Prop) {A B} (m : M A) (k : A -> M B)
    (s : Sys) (evs : list Event) :
  (forall x s1, m s <> Running x s1) -> ended P s (m s) evs ->
  ended P s (bind m k s) evs.
Proof.
  intros Hm Hend. unfold bind.
  destruct (m s) as [x s1 | code s1 | reason s1] eqn:Heq.
  - now destruct (Hm x s1).
  - exact Hend.
  - exact Hend.
Qed.

(** Writing to the log makes no call. *)
Lemma ended_log (P : Action -> Prop) (e : LogEntry) (s : Sys) :
  ended P s (write_log e s) [].
Proof.
  unfold ended, write_log. cbn. rewrite app_nil_r. repeat split; constructor.
Qed.

(** ** One record, one action *)

Lemma update_record_ended (ip : IP) (action : Action) (record : DNSRecord) (s : Sys) :
  ended (eq action) s (update_record ip action record s)
    (if stale ip record then [update_event ip action record s] else []).
Proof.
  unfold update_record, stale, update_event, alog, u_log, update_call.
  unfold bind at 1. unfold write_log at 1. cbn.
  destruct (String.eqb (Content record) (IP_String ip)); cbn.
  - unfold ended. cbn. rewrite app_nil_r. repeat split; constructor.
  - unfold bind at 1, api_call. cbn.
    destruct (UpdateDNSRecord _ _ _) as [w [rec | err]]; cbn.
    + unfold ended. cbn. repeat split. repeat constructor.
    + unfold bind, write_log, os_Exit, ended. cbn. repeat split.
      eexists [], _, err, action, _. cbn.
      split; [reflexivity |]. split; [constructor |]. split; [reflexivity |].
      split; [reflexivity |]. rewrite last_snoc. reflexivity.
Qed.

(** The update loop reaches the stale records in order: [reached] got
    their update call, [rest] did not because the process exited. *)
Lemma update_loop_spec (ip : IP) (action : Action) (records : list DNSRecord)
    (s : Sys) :
  exists reached rest evs,
    List.filter (stale ip) records = reached ++ rest /\
    map ev_call evs = map (update_call ip action) reached /\
    ended (eq action) s (for_range records (update_record ip action) s) evs /\
    (rest <> [] ->
     exists s', for_range records (update_record ip action) s = Exited 1 s').
Proof.
  revert s. induction records as [| r l IH]; intros s.
  - exists [], [], []. cbn. repeat split; try constructor.
    + now rewrite app_nil_r.
    + intros Habs. now destruct Habs.
  - pose proof (update_record_ended ip action r s) as Hr.
    cbn [for_range List.filter].
    destruct (update_record ip action r s) as [[] s1 | code s1 | reason s1] eqn:Hrun.
    + destruct (IH s1) as (reached & rest & evs & Hsplit & Hcalls & Hend & Hrest).
      exists ((if stale ip r then [r] else []) ++ reached), rest,
             ((if stale ip r then [update_event ip action r s] else []) ++ evs).
      split; [destruct (stale ip r); cbn; now rewrite Hsplit |].
      split; [destruct (stale ip r); cbn; now rewrite Hcalls |].
      split.
      * apply (ended_bind (eq action) _ _ s s1 tt); [exact Hrun | | exact Hend].
        now rewrite Hrun.
      * intros Hne. unfold bind. rewrite Hrun. now apply Hrest.
    + assert (stale ip r = true /\ code = 1) as [Hst ->].
      { destruct Hr as (_ & _ & -> & evs0 & e & _ & _ & _ & Hevs & _).
        split; [| reflexivity].
        destruct (stale ip r); [reflexivity |].
        now destruct evs0. }
      rewrite Hst in *.
      exists [r], (List.filter (stale ip) l), [update_event ip action r s].
      split; [reflexivity |]. split; [reflexivity |]. split.
      * apply ended_bind_stop; [| now rewrite Hrun].
        intros x s'. now rewrite Hrun.
      * intros _. exists s1. unfold bind. now rewrite Hrun.
    + now destruct Hr as (_ & _ & Hfalse).
Qed.

Lemma recordType_family (ip : IP) :
  recordType_of ip = if decide (family_of ip = 4) then "A"%string else "AAAA"%string.
Proof. unfold recordType_of, family_of. now destruct (To4 ip). Qed.

(** [reconcile] after its list call. *)
Lemma reconcile_after_list (ip : IP) (action : Action) (s : Sys) (w : World)
    (r : result (list DNSRecord)) :
  ListDNSRecords (world s) (CfZoneId action) (list_params ip action) = (w, r) ->
  reconcile ip action s =
    match r with
    | Err err =>
        bind (alog action LevelError "Action failed, could not research DNS records"
                [("error", AError err)])
             (fun _ => os_Exit 1) (listed ip action s w r)
    | Ok records =>
        bind (if (length records =? 0)%nat
              then bind (alog action LevelInfo "Creating DNS record" [])
                     (fun _ =>
                        bind (api_call
                                (CallCreateDNSRecord (CfZoneId action)
                                   (create_params ip action))
                                (fun w0 => CreateDNSRecord w0 (CfZoneId action)
                                             (create_params ip action)))
                          (fun r0 =>
                             match r0 with
                             | Err err =>
                                 bind (alog action LevelError
                                         "Action failed, could not create DNS record"
                                         [("error", AError err)])
                                      (fun _ => os_Exit 1)
                             | Ok _ => ret tt
                             end))
              else ret tt)
             (fun _ => for_range records (update_record ip action))
             (listed ip action s w r)
    end.
Proof.
  intros Hlist. unfold reconcile. fold (list_params ip action).
  unfold bind at 1, api_call at 1. rewrite Hlist.
  unfold create_params. rewrite <- recordType_family.
  destruct r; reflexivity.
Qed.

(** Calls made from the state after the list call, seen from before it. *)
Lemma ended_listed (ip : IP) (action : Action) (s : Sys) (w : World)
    (records : list DNSRecord) {A} (o : Outcome A) (evs : list Event) :
  ended (eq action) (listed ip action s w (Ok records)) o evs ->
  ended (eq action) s o (list_event ip action (Ok records) :: evs).
Proof.
  intros (Hc & Hu & Ho). split; [| split].
  - rewrite Hc. cbn. now rewrite <- app_assoc.
  - rewrite Hu. reflexivity.
  - destruct o as [x s' | code s' | reason s']; [| | exact Ho].
    + constructor; [reflexivity | exact Ho].
    + destruct Ho as (-> & evs0 & e & err & a & m & -> & H2 & H3 & H4 & H5).
      split; [reflexivity |].
      exists (list_event ip action (Ok records) :: evs0), e, err, a, m.
      repeat split; try assumption. constructor; [reflexivity | assumption].
Qed.

(** The list phase failed: one call, the error logged, the process
    exits. *)
Lemma reconcile_list_error (ip : IP) (action : Action) (s : Sys) (w : World)
    (err : error) :
  ListDNSRecords (world s) (CfZoneId action) (list_params ip action) = (w, Err err) ->
  exists s', reconcile ip action s = Exited 1 s' /\
    ended (eq action) s (reconcile ip action s) [list_event ip action (Err err)].
Proof.
  intros Hlist. rewrite (reconcile_after_list ip action s w _ Hlist).
  unfold bind, alog, u_log, write_log, os_Exit, ended. cbn.
  eexists. split; [reflexivity |]. repeat split.
  eexists [], _, err, action, _. cbn.
  split; [reflexivity |]. split; [constructor |]. split; [reflexivity |].
  split; [reflexivity |]. rewrite last_snoc. reflexivity.
Qed.

(** The list phase returned [records]: a create call exactly when there
    is no record, then the update loop. *)
Lemma reconcile_listed (ip : IP) (action : Action) (s : Sys) (w : World)
    (records : list DNSRecord) :
  ListDNSRecords (world s) (CfZoneId action) (list_params ip action) = (w, Ok records) ->
  exists cevs reached rest uevs,
    ended (eq action) s (reconcile ip action s)
      (list_event ip action (Ok records) :: cevs ++ uevs) /\
    map ev_call cevs =
      (if (length records =? 0)%nat
       then [CallCreateDNSRecord (CfZoneId action) (create_params ip action)]
       else []) /\
    List.filter (stale ip) records = reached ++ rest /\
    map ev_call uevs = map (update_call ip action) reached /\
    (rest <> [] -> exists s', reconcile ip action s = Exited 1 s').
Proof.
  intros Hlist. rewrite (reconcile_after_list ip action s w _ Hlist).
  set (s1 := listed ip action s w (Ok records)).
  destruct records as [| r l]; cbn [length Nat.eqb].
  - (* no record: create, then an empty update loop *)
    unfold bind, alog, u_log, write_log, api_call. cbn.
    destruct (CreateDNSRecord w (CfZoneId action) _) as [w' [rec | err]] eqn:Hcreate;
      cbn.
    + exists [{| ev_call := CallCreateDNSRecord (CfZoneId action)
                                (create_params ip action);
                 ev_err := None |}], [], [], [].
      split; [| split; [reflexivity |]; split; [reflexivity |];
                split; [reflexivity |]; intros Habs; now destruct Habs].
      apply (ended_listed ip action s w []). unfold ended. cbn.
      repeat split. repeat constructor.
    + exists [{| ev_call := CallCreateDNSRecord (CfZoneId action)
                                (create_params ip action);
                 ev_err := Some err |}], [], [], [].
      split; [| split; [reflexivity |]; split; [reflexivity |];
                split; [reflexivity |]; intros Habs; now destruct Habs].
      apply (ended_listed ip action s w []). unfold ended, os_Exit. cbn.
      repeat split.
      eexists [], _, err, action, _. cbn.
      split; [reflexivity |]. split; [constructor |]. split; [reflexivity |].
      split; [reflexivity |]. rewrite last_snoc. reflexivity.
  - (* some records: the update loop only *)
    rewrite !bind_ret.
    destruct (update_loop_spec ip action (r :: l) s1)
      as (reached & rest & uevs & Hsplit & Hcalls & Hend & Hrest).
    exists [], reached, rest, uevs.
    split; [apply (ended_listed ip action s w (r :: l)); exact Hend |].
    split; [reflexivity |]. split; [exact Hsplit |]. split; [exact Hcalls |].
    exact Hrest.
Qed.

(** ** The action loop *)

Lemma action_step_skipped (ip : IP) (action : Action) (s : Sys) :
  action_step ip action s =
    if skipped ip action then Running tt s else reconcile ip action s.
Proof.
  unfold action_step, skipped.
  destruct (bool_decide (To4 ip = None)), (IpVersion action =? 6); reflexivity.
Qed.

(** An action of the family of the address is not skipped; an action of
    the other family, 4 or 6, is. *)
Lemma skipped_family (ip : IP) (action : Action) :
  IpVersion action = 4 \/ IpVersion action = 6 ->
  skipped ip action = negb (IpVersion action =? family_of ip).
Proof.
  unfold skipped, family_of.
  destruct (To4 ip) as [p4 |]; cbn; intros [-> | ->]; reflexivity.
Qed.

Lemma reconcile_ended (ip : IP) (action : Action) (s : Sys) :
  exists evs, ended (eq action) s (reconcile ip action s) evs.
Proof.
  destruct (ListDNSRecords (world s) (CfZoneId action) (list_params ip action))
    as [w [records | err]] eqn:Hlist.
  - destruct (reconcile_listed ip action s w records Hlist)
      as (cevs & reached & rest & uevs & Hend & _). eauto.
  - destruct (reconcile_list_error ip action s w err Hlist) as (s' & _ & Hend).
    eauto.
Qed.

Lemma ended_nothing (P : Action -> Prop) {A} (x : A) (s : Sys) :
  ended P s (Running x s) [].
Proof. unfold ended. cbn. rewrite app_nil_r. repeat split. constructor. Qed.

Lemma action_loop_ended (ip : IP) (acts : list Action) (s : Sys) :
  exists evs,
    ended (fun a => a ∈ acts /\ skipped ip a = false) s
      (for_range acts (action_step ip) s) evs.
Proof.
  revert s. induction acts as [| a acts IH]; intros s.
  - exists []. apply ended_nothing.
  - cbn [for_range].
    assert (exists evs1,
              ended (fun x => x ∈ a :: acts /\ skipped ip x = false) s
                (action_step ip a s) evs1) as [evs1 H1].
    { rewrite action_step_skipped. destruct (skipped ip a) eqn:Hsk.
      - exists []. apply ended_nothing.
      - destruct (reconcile_ended ip a s) as [evs Hend]. exists evs.
        apply (ended_weaken (eq a)); [| exact Hend].
        intros ? <-. split; [left | exact Hsk]. }
    destruct (action_step ip a s) as [[] s1 | code s1 | reason s1] eqn:Hstep.
    + destruct (IH s1) as [evs2 H2]. exists (evs1 ++ evs2).
      apply (ended_bind _ _ _ s s1 tt); [exact Hstep | now rewrite Hstep |].
      apply (ended_weaken (fun x => x ∈ acts /\ skipped ip x = false));
        [| exact H2].
      intros x [Hx Hsk]. split; [now right | exact Hsk].
    + exists evs1. apply ended_bind_stop; [| now rewrite Hstep].
      intros x s'. now rewrite Hstep.
    + now destruct H1 as (_ & _ & Hfalse).
Qed.

(** ** One notification *)

(** [receive] on an address that is not a duplicate. *)
Lemma receive_fresh (ip : IP) (s : Sys) :
  is_duplicate (options (updater s)) ip = false ->
  receive ip s =
    bind (for_range (actions (updater s)) (action_step ip))
         (fun _ => match To4 ip with
                   | None => set_lastIpv6 ip
                   | Some _ => set_lastIpv4 ip
                   end)
         (received ip s).
Proof.
  intros Hdup. unfold receive, bind at 1, get_updater. now rewrite Hdup.
Qed.

(** How [receive] ends: it never panics; when the process exits, the
    updater struct is as it was, so no LastAddress slot was written. *)
Lemma receive_ended (ip : IP) (s : Sys) :
  exists evs,
    calls (state_of (receive ip s)) = calls s ++ evs /\
    actions (updater (state_of (receive ip s))) = actions (updater s) /\
    match receive ip s with
    | Running _ _ => Forall succeeded evs
    | Exited code s' =>
        code = 1 /\ updater s' = updater s /\
        exists evs0 e err action m,
          evs = evs0 ++ [e] /\ Forall succeeded evs0 /\ ev_err e = Some err /\
          (action ∈ actions (updater s) /\ skipped ip action = false) /\
          last (logs s') = Some (error_entry action m err)
    | Panicked _ _ => False
    end.
Proof.
  destruct (is_duplicate (options (updater s)) ip) eqn:Hdup.
  - rewrite (receive_duplicate ip s Hdup). exists []. cbn.
    rewrite app_nil_r. repeat split. constructor.
  - rewrite (receive_fresh ip s Hdup).
    destruct (action_loop_ended ip (actions (updater s)) (received ip s))
      as (evs & Hc & Hu & Ho).
    exists evs. unfold bind.
    destruct (for_range (actions (updater s)) (action_step ip) (received ip s))
      as [[] s2 | code s2 | reason s2]; cbn in Hc, Hu, Ho.
    + destruct (To4 ip); cbn; (split; [exact Hc |]); (split; [| exact Ho]);
        now rewrite Hu.
    + cbn. destruct Ho as (-> & Hfatal).
      split; [exact Hc |]. split; [now rewrite Hu |].
      split; [reflexivity |]. split; [exact Hu |]. exact Hfatal.
    + destruct Ho.
Qed.

(** The action list is never written after [init]. *)
Lemma spawnWorker_actions (In : list IP) (s : Sys) :
  actions (updater (state_of (spawnWorker In s))) = actions (updater s).
Proof.
  unfold spawnWorker. revert s. induction In as [| ip In IH]; intros s.
  - reflexivity.
  - cbn [for_range]. unfold bind.
    destruct (receive_ended ip s) as (evs & _ & Hacts & _).
    destruct (receive ip s) as [[] s1 | code s1 | reason s1]; cbn in Hacts.
    + now rewrite IH.
    + exact Hacts.
    + exact Hacts.
Qed.

(** ** [init] *)

Lemma dom_foldl_insert (l : list string) (m : gmap string string) (k : string) :
  k ∈ dom (foldl (fun m val => <[val := EmptyString]> m) m l) <->
  k ∈ dom m \/ k ∈ l.
Proof.
  revert m. induction l as [| x l IH]; intros m; cbn.
  - rewrite elem_of_nil. tauto.
  - rewrite IH, dom_insert, elem_of_union, elem_of_singleton, elem_of_cons. tauto.
Qed.

Lemma dom_zone_map0 (v4 v6 : list string) (k : string) :
  k ∈ dom (zone_map0 v4 v6) <-> k ∈ v4 \/ k ∈ v6.
Proof.
  unfold zone_map0. rewrite !dom_foldl_insert, dom_empty, elem_of_empty. tauto.
Qed.

Lemma append_actions_loop (f : string -> Action) (l : list string) (s : Sys) :
  for_range l (fun val => append_action (f val)) s =
    Running tt (with_actions (actions (updater s) ++ map f l) s).
Proof.
  revert s. induction l as [| x l IH]; intros s.
  - cbn. rewrite app_nil_r. now destruct s as [[] ? ? ?].
  - cbn [for_range map]. unfold bind at 1.
    unfold append_action at 1, set_actions, bind, get_updater, set_updater.
    rewrite IH. cbn. unfold with_actions. cbn. now rewrite <- app_assoc.
Qed.

(** The lookups of [init] when none fails: one successful call per key,
    in the order of the keys, and nothing else changes. *)
Lemma resolve_zones_ok (keys : list string) (m m' : gmap string string)
    (s s' : Sys) :
  resolve_zones keys m s = Running (Ok m') s' ->
  updater s' = updater s /\ logs s' = logs s /\
  exists evs, calls s' = calls s ++ evs /\ Forall2 resolved keys evs.
Proof.
  revert m s. induction keys as [| val keys IH]; intros m s; cbn [resolve_zones].
  - intros [= <- <-]. repeat split. exists []. split; [now rewrite app_nil_r |].
    constructor.
  - destruct (EffectiveTLDPlusOne val) as [zone | err] eqn:Hzone; [| discriminate].
    unfold bind, api_call.
    destruct (ZoneIDByName (world s) zone) as [w [id | err]]; [| discriminate].
    cbn. intros Hrest. apply IH in Hrest as (Hu & Hl & evs & Hc & Hall).
    cbn in Hu, Hl, Hc. repeat split; try assumption.
    exists ({| ev_call := CallZoneIDByName zone; ev_err := None |} :: evs).
    split; [now rewrite Hc, <- app_assoc |].
    constructor; [now exists zone | exact Hall].
Qed.

(** What a successful [init] leaves. *)
Lemma init_ok (s0 s : Sys) :
  init s0 = Running None s ->
  let v4 := ipv4Zones (options (updater s0)) in
  let v6 := ipv6Zones (options (updater s0)) in
  exists (zoneIdMap : gmap string string) (evs : list Event),
    actions (updater s) =
      actions (updater s0) ++ map (mk_action zoneIdMap 4) v4
                           ++ map (mk_action zoneIdMap 6) v6 /\
    options (updater s) = options (updater s0) /\
    isInit (updater s) = true /\
    calls s = calls s0 ++ evs /\
    Forall2 resolved (range_keys (zone_map0 v4 v6)) evs.
Proof.
  intros Hinit v4 v6. unfold init, bind at 1, get_updater in Hinit.
  fold (zone_map0 (ipv4Zones (options (updater s0)))
          (ipv6Zones (options (updater s0)))) in Hinit.
  fold v4 v6 in Hinit. unfold bind at 1 in Hinit.
  destruct (resolve_zones _ _ s0) as [[m | err] s1 | code s1 | reason s1] eqn:Hres;
    try discriminate.
  apply resolve_zones_ok in Hres as (Hu & Hl & evs & Hc & Hall).
  unfold bind at 1 in Hinit.
  rewrite (append_actions_loop (mk_action m 4)) in Hinit.
  unfold bind at 1 in Hinit.
  rewrite (append_actions_loop (mk_action m 6)) in Hinit.
  unfold bind, set_isInit, get_updater, set_updater, ret in Hinit. cbn in Hinit.
  injection Hinit as <-. cbn. exists m, evs.
  rewrite Hu, Hc. rewrite <- app_assoc. repeat split. exact Hall.
Qed.

End WorkerFacts.

(** * The stated properties of the worker *)

Section WorkerClaims.
Import Updater.
Context {provider : Provider} {runtime : Runtime}.

Lemma spawnWorker_one (ip : IP) (s : Sys) :
  state_of (spawnWorker [ip] s) = state_of (receive ip s).
Proof.
  unfold spawnWorker, for_range, bind, ret.
  destruct (receive ip s) as [[] ? | |]; reflexivity.
Qed.

Lemma Equal_sym (a b : IP) : Equal a b = true -> Equal b a = true.
Proof. rewrite !Equal_canonical. congruence. Qed.

(** The dedup check, by the slot of the family of the address. *)
Lemma is_duplicate_slot (o : UpdaterOptions) (ip : IP) :
  is_duplicate o ip =
    match last_of o ip with
    | Some last => Equal last ip
    | None => false
    end.
Proof. unfold is_duplicate, last_of. now destruct (To4 ip). Qed.

Lemma changed_not_duplicate (o : UpdaterOptions) (ip : IP) :
  changed o ip <-> is_duplicate o ip = false.
Proof.
  unfold changed. rewrite is_duplicate_slot.
  destruct (last_of o ip) as [last |].
  - split; [intros H; now apply H | now intros H ? [= <-]].
  - split; [reflexivity | discriminate].
Qed.

(** [receive] is the dedup check followed by [process]. *)
Lemma receive_process (ip : IP) (s : Sys) :
  receive ip s =
    if is_duplicate (options (updater s)) ip then Running tt s else process ip s.
Proof.
  unfold receive, process, bind at 1, get_updater.
  destruct (is_duplicate (options (updater s)) ip); reflexivity.
Qed.

(** An address that differs from the one processed before it, of the
    same family, is not dropped. *)
Lemma changed_after (o : UpdaterOptions) (ip ip' : IP) :
  family_of ip = family_of ip' -> Equal ip ip' = false ->
  (exists last, last_of o ip = Some last /\ Equal last ip = true) ->
  changed o ip'.
Proof.
  intros Hfam Hne (last & Hslot & Hlast) last' Hslot'.
  rewrite <- (last_of_family o ip ip' Hfam), Hslot in Hslot'.
  injection Hslot' as <-.
  destruct (Equal last ip') eqn:Heq; [| reflexivity].
  rewrite (Equal_trans ip last ip' (Equal_sym _ _ Hlast) Heq) in Hne.
  discriminate Hne.
Qed.

(** The worker on addresses of one family is [process] on the addresses
    that differ from the one before them. *)
Lemma spawnWorker_kept (l : list IP) (f : Z) (prev : option IP) (s : Sys) :
  (forall ip, ip ∈ l -> family_of ip = f) ->
  (forall ip, family_of ip = f -> last_of (options (updater s)) ip = prev) ->
  spawnWorker l s = for_range (kept prev l) process s.
Proof.
  unfold spawnWorker.
  revert prev s. induction l as [| ip l IH]; intros prev s Hfam Hslot.
  - now destruct prev.
  - assert (family_of ip = f) as Hip by (apply Hfam; left).
    assert (forall x, x ∈ l -> family_of x = f) as Hl
      by (intros x Hx; apply Hfam; now right).
    assert (kept prev (ip :: l) =
            if is_duplicate (options (updater s)) ip
            then kept prev l else ip :: kept (Some ip) l) as ->.
    { rewrite is_duplicate_slot, (Hslot ip Hip). now destruct prev. }
    cbn [for_range]. unfold bind at 1. rewrite receive_process.
    destruct (is_duplicate (options (updater s)) ip) eqn:Hdup.
    + now apply IH.
    + cbn [for_range]. unfold bind.
      destruct (process ip s) as [[] s1 | code s1 | reason s1] eqn:Hrun;
        try reflexivity.
      apply IH; [exact Hl |].
      intros x Hx. rewrite <- (last_of_family _ ip x) by congruence.
      apply (receive_sets_last ip s s1 Hdup).
      now rewrite receive_process, Hdup.
Qed.

(** The action loop with an action that is not skipped: its first call
    is the list call of the first such action. *)
Lemma action_loop_first_call (ip : IP) (acts : list Action) (s : Sys) :
  (exists action, action ∈ acts /\ skipped ip action = false) ->
  exists action e evs,
    action ∈ acts /\ skipped ip action = false /\
    calls (state_of (for_range acts (action_step ip) s)) = calls s ++ e :: evs /\
    ev_call e = CallListDNSRecords (CfZoneId action) (list_params ip action).
Proof.
  induction acts as [| a acts IH]; intros (action & Hin & Hsk).
  - now apply elem_of_nil in Hin.
  - cbn [for_range]. rewrite state_of_bind, action_step_skipped.
    destruct (skipped ip a) eqn:Hska.
    + apply elem_of_cons in Hin as [-> | Hin]; [congruence |].
      destruct IH as (a0 & e & evs & Hin0 & Hsk0 & Hc & He); [eauto |].
      exists a0, e, evs. split; [now right |]. auto.
    + assert (exists e evs1,
                calls (state_of (reconcile ip a s)) = calls s ++ e :: evs1 /\
                ev_call e = CallListDNSRecords (CfZoneId a) (list_params ip a))
        as (e & evs1 & Hc1 & He).
      { destruct (ListDNSRecords (world s) (CfZoneId a) (list_params ip a))
          as [w [records | err]] eqn:Hlist.
        - destruct (reconcile_listed ip a s w records Hlist)
            as (cevs & reached & rest & uevs & Hend & _).
          exists (list_event ip a (Ok records)), (cevs ++ uevs).
          split; [exact (proj1 Hend) | reflexivity].
        - destruct (reconcile_list_error ip a s w err Hlist) as (s' & _ & Hend).
          exists (list_event ip a (Err err)), [].
          split; [exact (proj1 Hend) | reflexivity]. }
      exists a, e. 
      destruct (reconcile ip a s) as [[] s1 | code s1 | reason s1]; cbn in Hc1.
      * destruct (action_loop_ended ip acts s1) as (evs2 & Hc2 & _).
        exists (evs1 ++ evs2). split; [left |]. split; [exact Hska |].
        split; [| exact He]. rewrite Hc2, Hc1, <- app_assoc. reflexivity.
      * exists evs1. split; [left |]. auto.
      * exists evs1. split; [left |]. auto.
Qed.

(** The calls [process] makes are those of its action loop. *)
Lemma calls_process (ip : IP) (s : Sys) :
  calls (state_of (process ip s)) =
  calls (state_of (for_range (actions (updater s)) (action_step ip) (received ip s))).
Proof.
  assert (process ip s =
          bind (for_range (actions (updater s)) (action_step ip))
            (fun _ => match To4 ip with
                      | None => set_lastIpv6 ip
                      | Some _ => set_lastIpv4 ip
                      end) (received ip s)) as -> by reflexivity.
  rewrite state_of_bind.
  destruct (for_range _ _ (received ip s)) as [[] s1 | code s1 | reason s1];
    try reflexivity.
  now destruct (To4 ip).
Qed.

(** C1. Dedup. The worker drops an address exactly on the dedup check,
    and handles every other address in full.

    On addresses of one family, the slot of the family holding [prev]
    at the start, the worker is [process] (the receipt logged, the loop
    over the actions, the slot written) on the addresses that differ
    from the address before them, and on these alone; so it behaves as
    on the first address of each run of equal addresses, and an address
    repeated makes the calls of its first delivery only.

    An address equal (by [Equal]) to the address in the LastAddress slot
    of its family is dropped with the whole state, calls and slots
    included, unchanged. An address that is not equal to it, or that
    finds the slot empty, is not dropped: [receive] is [process]; with
    an action of its family in the list, it makes provider calls, the
    first being the list call of the first such action; and when its
    action loop completes, the slot of its family holds that address.
    After an address was handled, a different address of the same family
    is handled too. *)
Theorem dedup_property :
  (forall (l : list IP) (f : Z) (prev : option IP) (s : Sys),
     (forall ip, ip ∈ l -> family_of ip = f) ->
     (forall ip, family_of ip = f -> last_of (options (updater s)) ip = prev) ->
     spawnWorker l s = for_range (kept prev l) process s) /\
  (forall (l : list IP) (f : Z) (s : Sys),
     (forall ip, ip ∈ l -> family_of ip = f) ->
     spawnWorker l s = spawnWorker (first_of_runs l) s) /\
  (forall (ip : IP) (n : nat) (s : Sys),
     calls (state_of (spawnWorker (ip :: replicate n ip) s)) =
     calls (state_of (receive ip s))) /\
  (forall (ip last : IP) (s : Sys),
     last_of (options (updater s)) ip = Some last -> Equal last ip = true ->
     receive ip s = Running tt s) /\
  (forall (ip : IP) (s : Sys),
     changed (options (updater s)) ip -> receive ip s = process ip s) /\
  (forall (ip : IP) (s : Sys),
     changed (options (updater s)) ip ->
     (exists action, action ∈ actions (updater s) /\ skipped ip action = false) ->
     exists action e evs,
       action ∈ actions (updater s) /\ skipped ip action = false /\
       calls (state_of (receive ip s)) = calls s ++ e :: evs /\
       ev_call e = CallListDNSRecords (CfZoneId action) (list_params ip action)) /\
  (forall (ip : IP) (s s' : Sys),
     changed (options (updater s)) ip ->
     receive ip s = Running tt s' ->
     last_of (options (updater s')) ip = Some ip) /\
  (forall (ip ip' : IP) (s s1 : Sys),
     family_of ip = family_of ip' -> Equal ip ip' = false ->
     receive ip s = Running tt s1 ->
     receive ip' s1 = process ip' s1).
Proof.
  assert (forall (l : list IP) (f : Z) (s : Sys),
            (forall ip, ip ∈ l -> family_of ip = f) ->
            spawnWorker l s = spawnWorker (first_of_runs l) s) as Hruns.
  { intros [| ip l] f s Hfam; [reflexivity |].
    cbn [first_of_runs]. unfold spawnWorker. cbn [for_range]. unfold bind.
    destruct (receive ip s) as [[] s1 | |] eqn:Hrecv; try reflexivity.
    apply spawnWorker_skip_equal.
    - intros x Hx. rewrite (Hfam x), (Hfam ip); [reflexivity | left | now right].
    - now apply (receive_remembers ip s). }
  assert (forall (ip : IP) (s : Sys),
            changed (options (updater s)) ip -> receive ip s = process ip s)
    as Hprocess.
  { intros ip s Hch%changed_not_duplicate. now rewrite receive_process, Hch. }
  split; [exact spawnWorker_kept |].
  split; [exact Hruns |]. split; [| split; [| split; [| split; [| split]]]].
  - intros ip n s. rewrite <- spawnWorker_one. f_equal. f_equal.
    rewrite (Hruns _ (family_of ip)).
    + cbn [first_of_runs]. f_equal.
      induction n as [| n IH]; [reflexivity |].
      cbn. now rewrite Equal_refl.
    + intros x [-> | Hx%elem_of_replicate]%elem_of_cons; [reflexivity |].
      now destruct Hx as [-> _].
  - intros ip last s Hslot Heq. apply receive_duplicate.
    apply is_duplicate_last_of. eauto.
  - exact Hprocess.
  - intros ip s Hch Hact. rewrite (Hprocess ip s Hch), calls_process.
    destruct (action_loop_first_call ip (actions (updater s)) (received ip s) Hact)
      as (action & e & evs & Hin & Hsk & Hc & He).
    exists action, e, evs. auto.
  - intros ip s s' Hch%changed_not_duplicate. now apply receive_sets_last.
  - intros ip ip' s s1 Hfam Hne Hrecv. apply Hprocess.
    apply (changed_after _ ip ip' Hfam Hne).
    now apply (receive_remembers ip s).
Qed.

Lemma filter_create_updates (ip : IP) (action : Action) (l : list DNSRecord) :
  List.filter is_create (map (update_call ip action) l) = [].
Proof. induction l as [| r l IH]; [reflexivity | exact IH]. Qed.

Lemma filter_update_updates (ip : IP) (action : Action) (l : list DNSRecord) :
  List.filter is_update (map (update_call ip action) l) =
  map (update_call ip action) l.
Proof. induction l as [| r l IH]; [reflexivity | cbn; now rewrite IH]. Qed.

Lemma family_not_skipped (ip : IP) (action : Action) :
  IpVersion action = family_of ip -> skipped ip action = false.
Proof.
  intros Hfam. rewrite skipped_family, Hfam, Z.eqb_refl; [reflexivity |].
  rewrite Hfam. unfold family_of. destruct (To4 ip); auto.
Qed.

(** C2. Create path. For an action of the family of the notification
    whose list phase returns [records]: when [records] is empty the
    action makes exactly one create call, with type "A" for an IPv4
    address and "AAAA" for an IPv6 address, the record name of the
    action, content [ip.String()], TTL 120 and proxied false (the fields
    of [create_params]); when [records] is not empty it makes no create
    call. *)
Theorem create_path (ip : IP) (action : Action) (s : Sys) (w : World)
    (records : list DNSRecord) :
  IpVersion action = family_of ip ->
  ListDNSRecords (world s) (CfZoneId action) (list_params ip action) = (w, Ok records) ->
  exists evs,
    calls (state_of (action_step ip action s)) = calls s ++ evs /\
    List.filter is_create (map ev_call evs) =
      match records with
      | [] =>
          [CallCreateDNSRecord (CfZoneId action)
             {| c_Type := if decide (family_of ip = 4) then "A" else "AAAA";
                c_Name := DnsRecord action;
                c_Content := IP_String ip;
                c_Proxied := Some false;
                c_TTL := 120;
                c_ZoneID := CfZoneId action |}]
      | _ :: _ => []
      end.
Proof.
  intros Hfam Hlist.
  rewrite action_step_skipped, (family_not_skipped ip action Hfam).
  destruct (reconcile_listed ip action s w records Hlist)
    as (cevs & reached & rest & uevs & Hend & Hc & Hsplit & Hu & Hrest).
  exists (list_event ip action (Ok records) :: cevs ++ uevs).
  split; [exact (proj1 Hend) |].
  cbn [map List.filter ev_call list_event is_create].
  rewrite map_app, List.filter_app, Hc, Hu, filter_create_updates, app_nil_r.
  now destruct records.
Qed.

(** C3 (as amended). Update path with field preservation. For an action
    of the family of the notification whose list phase returns
    [records], the update calls made are, in the order of the list, one
    call per stale record reached ([reached]), each for the identifier of
    its record with content [ip.String()] and the TTL and proxied flag
    observed on that record; no update call is made for a record whose
    content already equals [ip.String()]. Stale records are left without
    their call ([rest]) only when the process exited on the error an
    update call before them returned; when the action returns, every
    stale record got exactly its one call. *)
Theorem update_path (ip : IP) (action : Action) (s : Sys) (w : World)
    (records : list DNSRecord) :
  IpVersion action = family_of ip ->
  ListDNSRecords (world s) (CfZoneId action) (list_params ip action) = (w, Ok records) ->
  exists evs reached rest,
    calls (state_of (action_step ip action s)) = calls s ++ evs /\
    List.filter (stale ip) records = reached ++ rest /\
    List.filter is_update (map ev_call evs) =
      map (fun record =>
             CallUpdateDNSRecord (CfZoneId action)
               {| u_ID := ID record; u_Content := IP_String ip;
                  u_TTL := TTL record; u_Proxied := Proxied record |}) reached /\
    (rest <> [] ->
     exists s' e err,
       action_step ip action s = Exited 1 s' /\
       last (calls s') = Some e /\ ev_err e = Some err /\
       is_update (ev_call e) = true) /\
    (forall s', action_step ip action s = Running tt s' -> rest = []).
Proof.
  intros Hfam Hlist.
  rewrite action_step_skipped, (family_not_skipped ip action Hfam).
  destruct (reconcile_listed ip action s w records Hlist)
    as (cevs & reached & rest & uevs & Hend & Hc & Hsplit & Hu & Hrest).
  exists (list_event ip action (Ok records) :: cevs ++ uevs), reached, rest.
  split; [exact (proj1 Hend) |]. split; [exact Hsplit |]. split; [| split].
  - cbn [map List.filter ev_call list_event is_update].
    rewrite map_app, List.filter_app, Hc, Hu, filter_update_updates.
    now destruct (length records =? 0)%nat.
  - intros Hne. destruct (Hrest Hne) as [s' Hexit]. rewrite Hexit in *.
    destruct Hend as (Hcalls & _ & _ & evs0 & e & err & _ & _ & Hevs & _ & Herr & _).
    exists s', e, err. split; [reflexivity |].
    split; [cbn in Hcalls; rewrite Hcalls, Hevs, app_assoc; apply last_snoc |].
    split; [exact Herr |].
    (* the call that failed is an update call *)
    assert (cevs = []) as ->.
    { destruct records as [| r l].
      - cbn in Hsplit. now destruct reached, rest.
      - cbn in Hc. now destruct cevs. }
    cbn [app] in Hevs.
    assert (last (list_event ip action (Ok records) :: uevs) = Some e) as Hlast
      by (rewrite Hevs; apply last_snoc).
    destruct uevs as [| u uevs].
    + cbn in Hlast. injection Hlast as <-. discriminate Herr.
    + rewrite last_cons_cons in Hlast. apply last_Some_elem_of in Hlast.
      apply (list_elem_of_fmap_2 ev_call) in Hlast.
      change (ev_call <$> u :: uevs) with (map ev_call (u :: uevs)) in Hlast.
      rewrite Hu in Hlast.
      apply list_elem_of_fmap in Hlast as (record & -> & _). reflexivity.
  - intros s' Hrun. destruct rest as [| r rest]; [reflexivity |].
    destruct (Hrest ltac:(discriminate)) as [s'' Hexit]. congruence.
Qed.

(** The list call failed. *)
Lemma list_error_exits (ip : IP) (action : Action) (s : Sys) (w : World)
    (err : error) :
  ListDNSRecords (world s) (CfZoneId action) (list_params ip action) = (w, Err err) ->
  exists s',
    reconcile ip action s = Exited 1 s' /\
    calls s' = calls s ++ [list_event ip action (Err err)] /\
    last (logs s') =
      Some (error_entry action "Action failed, could not research DNS records" err) /\
    updater s' = updater s.
Proof.
  intros Hlist. rewrite (reconcile_after_list ip action s w _ Hlist).
  unfold bind, alog, u_log, write_log, os_Exit. cbn.
  eexists. split; [reflexivity |]. cbn. rewrite last_snoc. repeat split.
Qed.

(** The create call failed. *)
Lemma create_error_exits (ip : IP) (action : Action) (s : Sys) (w w' : World)
    (err : error) :
  ListDNSRecords (world s) (CfZoneId action) (list_params ip action) = (w, Ok []) ->
  CreateDNSRecord w (CfZoneId action) (create_params ip action) = (w', Err err) ->
  exists s',
    reconcile ip action s = Exited 1 s' /\
    calls s' = calls s ++
      [list_event ip action (Ok []);
       {| ev_call := CallCreateDNSRecord (CfZoneId action) (create_params ip action);
          ev_err := Some err |}] /\
    last (logs s') =
      Some (error_entry action "Action failed, could not create DNS record" err) /\
    updater s' = updater s.
Proof.
  intros Hlist Hcreate. rewrite (reconcile_after_list ip action s w _ Hlist).
  unfold bind, alog, u_log, write_log, api_call, os_Exit. cbn.
  rewrite Hcreate. cbn.
  eexists. split; [reflexivity |]. cbn. rewrite last_snoc, <- app_assoc.
  repeat split.
Qed.

(** An update call failed: the records after it are not looked at. *)
Lemma update_error_exits (ip : IP) (action : Action) (s s1 : Sys) (w : World)
    (before after : list DNSRecord) (record : DNSRecord) (err : error) :
  for_range before (update_record ip action) s = Running tt s1 ->
  stale ip record = true ->
  UpdateDNSRecord (world s1) (CfZoneId action)
    {| u_ID := ID record; u_Content := IP_String ip;
       u_TTL := TTL record; u_Proxied := Proxied record |} = (w, Err err) ->
  exists s',
    for_range (before ++ record :: after) (update_record ip action) s = Exited 1 s' /\
    calls s' = calls s1 ++
      [{| ev_call := update_call ip action record; ev_err := Some err |}] /\
    last (logs s') =
      Some (error_entry action "Action failed, could not update DNS record" err) /\
    updater s' = updater s1.
Proof.
  intros Hbefore Hstale Hupdate.
  rewrite for_range_app. unfold bind at 1. rewrite Hbefore.
  cbn [for_range]. unfold bind at 1.
  unfold update_record, stale in *. apply negb_true_iff in Hstale.
  unfold bind, alog, u_log, write_log, api_call, os_Exit. cbn.
  rewrite Hstale. cbn. rewrite Hupdate. cbn.
  eexists. split; [reflexivity |]. cbn. rewrite last_snoc. repeat split.
Qed.

(** C9. Fatal provider errors. When the list call, the create call or
    an update call of an action returns an error, the process exits with
    code 1, that call being the last one made, the error logged with the
    domain of the action, the updater struct (the LastAddress slots with
    it) as it was: the remaining records, the remaining actions and the
    remaining notifications are not processed. Seen from a whole
    notification: [receive] never panics; when it returns, every call it
    made succeeded; otherwise the process exited on the one call that
    failed. *)
Theorem fatal_provider_errors :
  (forall ip action s w err,
     ListDNSRecords (world s) (CfZoneId action) (list_params ip action) = (w, Err err) ->
     exists s',
       reconcile ip action s = Exited 1 s' /\
       calls s' = calls s ++ [list_event ip action (Err err)] /\
       last (logs s') =
         Some (error_entry action "Action failed, could not research DNS records"
                 err) /\
       updater s' = updater s) /\
  (forall ip action s w w' err,
     ListDNSRecords (world s) (CfZoneId action) (list_params ip action) = (w, Ok []) ->
     CreateDNSRecord w (CfZoneId action) (create_params ip action) = (w', Err err) ->
     exists s',
       reconcile ip action s = Exited 1 s' /\
       calls s' = calls s ++
         [list_event ip action (Ok []);
          {| ev_call := CallCreateDNSRecord (CfZoneId action) (create_params ip action);
             ev_err := Some err |}] /\
       last (logs s') =
         Some (error_entry action "Action failed, could not create DNS record" err) /\
       updater s' = updater s) /\
  (forall ip action s s1 w before after record err,
     for_range before (update_record ip action) s = Running tt s1 ->
     stale ip record = true ->
     UpdateDNSRecord (world s1) (CfZoneId action)
       {| u_ID := ID record; u_Content := IP_String ip;
          u_TTL := TTL record; u_Proxied := Proxied record |} = (w, Err err) ->
     exists s',
       for_range (before ++ record :: after) (update_record ip action) s
         = Exited 1 s' /\
       calls s' = calls s1 ++
         [{| ev_call := update_call ip action record; ev_err := Some err |}] /\
       last (logs s') =
         Some (error_entry action "Action failed, could not update DNS record" err) /\
       updater s' = updater s1) /\
  (forall ip action (acts : list Action) (In : list IP) s code s',
     action_step ip action s = Exited code s' ->
     for_range (action :: acts) (action_step ip) s = Exited code s' /\
     (receive ip s = Exited code s' -> spawnWorker (ip :: In) s = Exited code s')) /\
  (forall ip s,
     exists evs,
       calls (state_of (receive ip s)) = calls s ++ evs /\
       match receive ip s with
       | Running _ _ => Forall succeeded evs
       | Exited code s' =>
           code = 1 /\ updater s' = updater s /\
           exists evs0 e err action m,
             evs = evs0 ++ [e] /\ Forall succeeded evs0 /\ ev_err e = Some err /\
             (action ∈ actions (updater s) /\ skipped ip action = false) /\
             last (logs s') = Some (error_entry action m err)
       | Panicked _ _ => False
       end).
Proof.
  split; [exact list_error_exits |]. split; [exact create_error_exits |].
  split; [exact update_error_exits |]. split.
  - intros ip action acts In s code s' Hstep. split.
    + cbn [for_range]. unfold bind. now rewrite Hstep.
    + intros Hrecv. unfold spawnWorker. cbn [for_range]. unfold bind.
      now rewrite Hrecv.
  - intros ip s. destruct (receive_ended ip s) as (evs & Hc & _ & Ho).
    exists evs. split; [exact Hc | exact Ho].
Qed.

Lemma init_versions (s0 s : Sys) (action : Action) :
  actions (updater s0) = [] -> init s0 = Running None s ->
  action ∈ actions (updater s) ->
  IpVersion action = 4 \/ IpVersion action = 6.
Proof.
  intros Hnil Hinit Hin.
  destruct (init_ok s0 s Hinit) as (m & evs & Hacts & _).
  rewrite Hacts, Hnil in Hin. cbn in Hin.
  apply elem_of_app in Hin as [Hin | Hin];
    apply list_elem_of_fmap in Hin as (val & -> & _); auto.
Qed.

(** With actions of version 4 or 6 only, the action loop is the
    reconciliation of the actions of the family of the address. *)
Lemma action_loop_filter (ip : IP) (acts : list Action) (st : Sys) :
  (forall a, a ∈ acts -> IpVersion a = 4 \/ IpVersion a = 6) ->
  for_range acts (action_step ip) st =
  for_range (List.filter (fun a => IpVersion a =? family_of ip) acts)
    (reconcile ip) st.
Proof.
  revert st. induction acts as [| a acts IH]; intros st Hver; [reflexivity |].
  cbn [for_range List.filter].
  assert (forall x, x ∈ acts -> IpVersion x = 4 \/ IpVersion x = 6) as Hrest
    by (intros x Hx; apply Hver; now right).
  unfold bind at 1. rewrite action_step_skipped, skipped_family by (apply Hver; left).
  destruct (IpVersion a =? family_of ip); cbn [negb for_range].
  - unfold bind. destruct (reconcile ip a st); try reflexivity. now apply IH.
  - now apply IH.
Qed.

(** C4. Family routing. For the action list a successful [init] built
    and any notification: an action is of version 4 or 6; the loop body
    reconciles an action whose version is the family of the address (4
    when [ip.To4()] is not nil, 6 when it is) and does nothing at all,
    whatever the state, for an action of the other family; so the action
    loop is the reconciliation of the actions of that family only. *)
Theorem family_routing (s0 s : Sys) (ip : IP) :
  actions (updater s0) = [] ->
  init s0 = Running None s ->
  (forall action, action ∈ actions (updater s) ->
     (IpVersion action = 4 \/ IpVersion action = 6) /\
     (IpVersion action = family_of ip ->
      forall st, action_step ip action st = reconcile ip action st) /\
     (IpVersion action <> family_of ip ->
      forall st, action_step ip action st = Running tt st)) /\
  (forall st,
     for_range (actions (updater s)) (action_step ip) st =
     for_range (List.filter (fun a => IpVersion a =? family_of ip)
                  (actions (updater s)))
       (reconcile ip) st).
Proof.
  intros Hnil Hinit. split.
  - intros action Hin.
    pose proof (init_versions s0 s action Hnil Hinit Hin) as Hver.
    split; [exact Hver |]. split.
    + intros Hfam st.
      now rewrite action_step_skipped, (family_not_skipped ip action Hfam).
    + intros Hfam st. rewrite action_step_skipped, skipped_family by exact Hver.
      now apply Z.eqb_neq in Hfam as ->.
  - intros st. apply action_loop_filter.
    intros a Ha. now apply (init_versions s0 s a).
Qed.

Lemma actions_for_app (acts1 acts2 : list Action) (name : string) (fam : Z) :
  actions_for (acts1 ++ acts2) name fam =
  actions_for acts1 name fam ++ actions_for acts2 name fam.
Proof. apply List.filter_app. Qed.

Lemma actions_for_other (m : gmap string string) (fam fam' : Z) (name : string)
    (l : list string) :
  fam <> fam' -> actions_for (map (mk_action m fam) l) name fam' = [].
Proof.
  intros Hne. unfold actions_for.
  induction l as [| x l IH]; [reflexivity |]. cbn.
  apply Z.eqb_neq in Hne as ->. now rewrite andb_false_r.
Qed.

Lemma actions_for_same (m : gmap string string) (fam : Z) (name : string)
    (l : list string) :
  length (actions_for (map (mk_action m fam) l) name fam) = count_occ string_dec l name.
Proof.
  unfold actions_for. induction l as [| x l IH]; [reflexivity |]. cbn.
  rewrite Z.eqb_refl, andb_true_r.
  destruct (String.eqb_spec x name) as [-> | Hne];
    destruct (string_dec _ _) as [Heq | Hneq]; cbn; congruence.
Qed.

(** C8 (as amended). The action list after a successful [init], started
    as [NewCloudflareUpdater] starts it (no action yet): one Action per
    entry of the IPv4 list, then one per entry of the IPv6 list, so for
    every record name and family as many Actions as the list of that
    family names the record: exactly one when the list names it once. A
    name is resolved once however often, and in whichever list, it is
    configured: the zone lookups made are one per distinct name, and the
    Actions of a name all carry the zone identifier one map holds for
    it. No run of the worker changes the action list. *)
Theorem action_list_invariant (s0 s : Sys) :
  range_visits_each_key_once ->
  actions (updater s0) = [] ->
  init s0 = Running None s ->
  exists (zoneIdMap : gmap string string) (keys : list string) (evs : list Event),
    actions (updater s) =
      map (mk_action zoneIdMap 4) (ipv4Zones (options (updater s0))) ++
      map (mk_action zoneIdMap 6) (ipv6Zones (options (updater s0))) /\
    (forall name,
       length (actions_for (actions (updater s)) name 4) =
         count_occ string_dec (ipv4Zones (options (updater s0))) name /\
       length (actions_for (actions (updater s)) name 6) =
         count_occ string_dec (ipv6Zones (options (updater s0))) name) /\
    (forall name,
       (NoDup (ipv4Zones (options (updater s0))) ->
        name ∈ ipv4Zones (options (updater s0)) ->
        length (actions_for (actions (updater s)) name 4) = 1%nat) /\
       (NoDup (ipv6Zones (options (updater s0))) ->
        name ∈ ipv6Zones (options (updater s0)) ->
        length (actions_for (actions (updater s)) name 6) = 1%nat)) /\
    calls s = calls s0 ++ evs /\
    Forall2 resolved keys evs /\
    NoDup keys /\
    (forall name, name ∈ keys <->
       name ∈ ipv4Zones (options (updater s0)) \/
       name ∈ ipv6Zones (options (updater s0))) /\
    (forall In st,
       actions (updater (state_of (spawnWorker In st))) = actions (updater st)).
Proof.
  intros Hrange Hnil Hinit.
  destruct (init_ok s0 s Hinit) as (m & evs & Hacts & _ & _ & Hcalls & Hres).
  rewrite Hnil in Hacts. cbn in Hacts, Hres.
  set (v4 := ipv4Zones (options (updater s0))) in *.
  set (v6 := ipv6Zones (options (updater s0))) in *.
  assert (forall name,
            length (actions_for (actions (updater s)) name 4) =
              count_occ string_dec v4 name /\
            length (actions_for (actions (updater s)) name 6) =
              count_occ string_dec v6 name) as Hcount.
  { intros name. rewrite Hacts, !actions_for_app, !length_app.
    rewrite !actions_for_same.
    rewrite (actions_for_other m 6 4), (actions_for_other m 4 6) by lia.
    cbn. lia. }
  exists m, (range_keys (zone_map0 v4 v6)), evs.
  split; [exact Hacts |]. split; [exact Hcount |]. split.
  { intros name. destruct (Hcount name) as [H4 H6]. split.
    - intros Hnd Hin. rewrite H4.
      apply NoDup_count_occ'; [now apply NoDup_ListNoDup | now apply list_elem_of_In].
    - intros Hnd Hin. rewrite H6.
      apply NoDup_count_occ'; [now apply NoDup_ListNoDup | now apply list_elem_of_In]. }
  split; [exact Hcalls |]. split; [exact Hres |].
  destruct (Hrange (zone_map0 v4 v6)) as [Hnodup Hdom].
  split; [exact Hnodup |]. split.
  - intros name. rewrite Hdom. apply dom_zone_map0.
  - intros In st. apply spawnWorker_actions.
Qed.

(** C10, at the inputs where it fails. With the client made and a retry
    policy that is not empty, has fewer than three space-separated
    fields, and whose fields all parse as integers, [InitApi] does not
    return an error: it panics on an index out of range. *)
Theorem InitApi_short_policy_panics (s : Sys) (api0 : API) :
  (if String.eqb (token (configs (updater s))) ""
   then cf_New (key (configs (updater s))) (email (configs (updater s)))
   else cf_NewWithAPIToken (token (configs (updater s)))) = Ok api0 ->
  retryPolicy (configs (updater s)) <> EmptyString ->
  (length (Split (retryPolicy (configs (updater s))) " ") < 3)%nat ->
  Forall (fun field => exists n, Atoi field = Ok n)
         (Split (retryPolicy (configs (updater s))) " ") ->
  exists s', InitApi s = Panicked "index out of range" s'.
Proof.
  intros Hmade Hpolicy Hlen Hparse.
  unfold InitApi, bind at 1, get_updater. rewrite Hmade.
  unfold bind at 1, set_api, bind at 1, get_updater, set_updater.
  apply String.eqb_neq in Hpolicy. rewrite Hpolicy. cbn [negb].
  destruct (Split (retryPolicy (configs (updater s))) " ") as [| f0 [| f1 [| f2 fs]]];
    cbn in Hlen; try lia.
  - unfold bind, index, panic. cbn. eauto.
  - apply Forall_cons in Hparse as [[n0 H0] _].
    unfold bind, index, ret, panic. cbn. rewrite H0. cbn. eauto.
  - apply Forall_cons in Hparse as [[n0 H0] Hparse].
    apply Forall_cons in Hparse as [[n1 H1] _].
    unfold bind, index, ret, panic. cbn. rewrite H0. cbn. rewrite H1. cbn. eauto.
Qed.

End WorkerClaims.

(** * The engine on concrete inputs *)

Section Scenarios.
Import Updater Script.

Lemma small_runtime_range : range_visits_each_key_once.
Proof.
  intros m. split; [apply NoDup_fst_map_to_list |].
  intros k. cbn. rewrite elem_of_dom, list_elem_of_fmap. split.
  - intros ([k' x] & -> & Hin%elem_of_map_to_list). now exists x.
  - intros [x Hx]. exists (k, x). split; [reflexivity |].
    now apply elem_of_map_to_list.
Qed.

(** The create path of the design document: no "A" record of
    [home.example.com] exists, [203.0.113.5] arrives. *)
Example scenario_create_path :
  map ev_call
    (calls (state_of (receive ip_203_0_113_5
                        (sys0 u_home [RList (Ok []); RCreate (Ok r1)])))) =
  [CallListDNSRecords "z1" {| l_Type := "A"; l_Name := "home.example.com" |};
   CallCreateDNSRecord "z1"
     {| c_Type := "A"; c_Name := "home.example.com"; c_Content := "203.0.113.5";
        c_Proxied := Some false; c_TTL := 120; c_ZoneID := "z1" |}].
Proof. vm_compute. reflexivity. Qed.

(** The update path: record [r1] holds [203.0.113.5] with TTL 300,
    proxied; [203.0.113.9] arrives. *)
Example scenario_update_path :
  map ev_call
    (calls (state_of (receive ip_203_0_113_9
                        (sys0 u_home [RList (Ok [r1]); RUpdate (Ok r1)])))) =
  [CallListDNSRecords "z1" {| l_Type := "A"; l_Name := "home.example.com" |};
   CallUpdateDNSRecord "z1"
     {| u_ID := "r1"; u_Content := "203.0.113.9"; u_TTL := 300;
        u_Proxied := Some true |}].
Proof. vm_compute. reflexivity. Qed.

(** The no-op path: the record already holds the address. *)
Example scenario_noop_path :
  map ev_call
    (calls (state_of (receive ip_203_0_113_5 (sys0 u_home [RList (Ok [r1])])))) =
  [CallListDNSRecords "z1" {| l_Type := "A"; l_Name := "home.example.com" |}].
Proof. vm_compute. reflexivity. Qed.

(** [::ffff:203.0.113.5] is an IPv4 address, equal to [203.0.113.5]. *)
Example To4_of_mapped :
  To4 (v4InV6Prefix ++ ip_203_0_113_5) = Some ip_203_0_113_5 /\
  Equal ip_203_0_113_5 (v4InV6Prefix ++ ip_203_0_113_5) = true /\
  To4 PrefixCombiner.addr_2001_db8_1_2_1 = None.
Proof. repeat split. Qed.

(** Three times the same address: one list call and one create call. *)
Example scenario_dedup :
  map ev_call
    (calls (state_of (spawnWorker
                        [ip_203_0_113_5; ip_203_0_113_5; ip_203_0_113_5]
                        (sys0 u_home [RList (Ok []); RCreate (Ok r1)])))) =
  [CallListDNSRecords "z1" {| l_Type := "A"; l_Name := "home.example.com" |};
   CallCreateDNSRecord "z1"
     {| c_Type := "A"; c_Name := "home.example.com"; c_Content := "203.0.113.5";
        c_Proxied := Some false; c_TTL := 120; c_ZoneID := "z1" |}].
Proof. vm_compute. reflexivity. Qed.

(** The address changes after two deliveries: the second delivery of each
    address is dropped, the changed address reaches the provider. *)
Example scenario_changed_address :
  map ev_call
    (calls (state_of (spawnWorker
                        [ip_203_0_113_5; ip_203_0_113_5;
                         ip_203_0_113_9; ip_203_0_113_9]
                        (sys0 u_home [RList (Ok []); RCreate (Ok r1);
                                      RList (Ok [r1]); RUpdate (Ok r1)])))) =
  [CallListDNSRecords "z1" {| l_Type := "A"; l_Name := "home.example.com" |};
   CallCreateDNSRecord "z1"
     {| c_Type := "A"; c_Name := "home.example.com"; c_Content := "203.0.113.5";
        c_Proxied := Some false; c_TTL := 120; c_ZoneID := "z1" |};
   CallListDNSRecords "z1" {| l_Type := "A"; l_Name := "home.example.com" |};
   CallUpdateDNSRecord "z1"
     {| u_ID := "r1"; u_Content := "203.0.113.9"; u_TTL := 300;
        u_Proxied := Some true |}].
Proof. vm_compute. reflexivity. Qed.

Lemma dedup_property_witness :
  spawnWorker [ip_203_0_113_5; ip_203_0_113_5; ip_203_0_113_9; ip_203_0_113_9]
    (sys0 u_home [RList (Ok []); RCreate (Ok r1);
                  RList (Ok [r1]); RUpdate (Ok r1)]) =
  for_range [ip_203_0_113_5; ip_203_0_113_9] process
    (sys0 u_home [RList (Ok []); RCreate (Ok r1);
                  RList (Ok [r1]); RUpdate (Ok r1)]).
Proof.
  apply (proj1 dedup_property
           [ip_203_0_113_5; ip_203_0_113_5; ip_203_0_113_9; ip_203_0_113_9]
           4 None).
  - intros ip Hin.
    repeat (apply elem_of_cons in Hin as [-> | Hin]; [reflexivity |]).
    now apply elem_of_nil in Hin.
  - intros ip Hfam. unfold last_of, family_of in *. cbn.
    destruct (To4 ip); [reflexivity | discriminate Hfam].
Defined.

Lemma create_path_witness :
  exists evs,
    calls (state_of (action_step ip_203_0_113_5 home4
                       (sys0 u_home [RList (Ok []); RCreate (Ok r1)]))) =
      calls (sys0 u_home [RList (Ok []); RCreate (Ok r1)]) ++ evs /\
    List.filter is_create (map ev_call evs) =
      [CallCreateDNSRecord "z1"
         {| c_Type := "A"; c_Name := "home.example.com";
            c_Content := "203.0.113.5"; c_Proxied := Some false;
            c_TTL := 120; c_ZoneID := "z1" |}].
Proof.
  exact (create_path ip_203_0_113_5 home4
           (sys0 u_home [RList (Ok []); RCreate (Ok r1)])
           [RCreate (Ok r1)] [] eq_refl eq_refl).
Defined.

Lemma update_path_witness :
  exists evs reached rest,
    calls (state_of (action_step ip_203_0_113_9 home4
                       (sys0 u_home [RList (Ok [r1]); RUpdate (Ok r1)]))) =
      calls (sys0 u_home [RList (Ok [r1]); RUpdate (Ok r1)]) ++ evs /\
    List.filter (stale ip_203_0_113_9) [r1] = reached ++ rest /\
    List.filter is_update (map ev_call evs) =
      map (fun record =>
             CallUpdateDNSRecord "z1"
               {| u_ID := ID record; u_Content := "203.0.113.9";
                  u_TTL := TTL record; u_Proxied := Proxied record |}) reached /\
    (rest <> [] ->
     exists s' e err,
       action_step ip_203_0_113_9 home4
         (sys0 u_home [RList (Ok [r1]); RUpdate (Ok r1)]) = Exited 1 s' /\
       last (calls s') = Some e /\ ev_err e = Some err /\
       is_update (ev_call e) = true) /\
    (forall s',
       action_step ip_203_0_113_9 home4
         (sys0 u_home [RList (Ok [r1]); RUpdate (Ok r1)]) = Running tt s' ->
       rest = []).
Proof.
  exact (update_path ip_203_0_113_9 home4
           (sys0 u_home [RList (Ok [r1]); RUpdate (Ok r1)])
           [RUpdate (Ok r1)] [r1] eq_refl eq_refl).
Defined.

(** C3 as stated does not hold: the list phase returns the stale
    records [r1] and [r2], the update of [r1] returns an error, the
    process exits, and no update call is made for [r2]. *)
Lemma update_path_counterexample :
  ListDNSRecords (world (sys0 u_home [RList (Ok [r1; r2]); RUpdate (Err "timeout")]))
    "z1" (list_params ip_203_0_113_9 home4)
    = ([RUpdate (Err "timeout")], Ok [r1; r2]) /\
  stale ip_203_0_113_9 r2 = true /\
  List.filter is_update
    (map ev_call
       (calls (state_of (action_step ip_203_0_113_9 home4
                           (sys0 u_home [RList (Ok [r1; r2]);
                                         RUpdate (Err "timeout")]))))) =
    [CallUpdateDNSRecord "z1"
       {| u_ID := "r1"; u_Content := "203.0.113.9"; u_TTL := 300;
          u_Proxied := Some true |}].
Proof. split; [reflexivity |]. split; vm_compute; reflexivity. Qed.

Lemma family_routing_witness :
  (forall action, action ∈ actions (updater s_both) ->
     (IpVersion action = 4 \/ IpVersion action = 6) /\
     (IpVersion action = family_of ip_203_0_113_5 ->
      forall st, action_step ip_203_0_113_5 action st
                 = reconcile ip_203_0_113_5 action st) /\
     (IpVersion action <> family_of ip_203_0_113_5 ->
      forall st, action_step ip_203_0_113_5 action st = Running tt st)) /\
  (forall st,
     for_range (actions (updater s_both)) (action_step ip_203_0_113_5) st =
     for_range (List.filter (fun a => IpVersion a =? family_of ip_203_0_113_5)
                  (actions (updater s_both)))
       (reconcile ip_203_0_113_5) st).
Proof.
  apply (family_routing s_both0 s_both ip_203_0_113_5);
    [reflexivity | vm_compute; reflexivity].
Defined.

Lemma action_list_invariant_witness :
  exists (zoneIdMap : gmap string string) (keys : list string) (evs : list Event),
    actions (updater s_both) =
      map (mk_action zoneIdMap 4) ["home.example.com"] ++
      map (mk_action zoneIdMap 6) ["home.example.com"] /\
    length (actions_for (actions (updater s_both)) "home.example.com" 4) = 1%nat /\
    length (actions_for (actions (updater s_both)) "home.example.com" 6) = 1%nat /\
    calls s_both = calls s_both0 ++ evs /\ length evs = 1%nat /\ NoDup keys.
Proof.
  destruct (action_list_invariant s_both0 s_both small_runtime_range eq_refl)
    as (m & keys & evs & Hacts & _ & Hone & Hcalls & _ & Hnodup & _).
  { vm_compute. reflexivity. }
  exists m, keys, evs. split; [exact Hacts |].
  assert (NoDup ["home.example.com"%string]) as Hnd
    by (apply NoDup_singleton).
  assert ("home.example.com"%string ∈ ["home.example.com"%string]) as Hin
    by (apply elem_of_cons; now left).
  split; [exact (proj1 (Hone _) Hnd Hin) |].
  split; [exact (proj2 (Hone _) Hnd Hin) |].
  split; [exact Hcalls |]. split; [| exact Hnodup].
  apply (f_equal length) in Hcalls. rewrite length_app in Hcalls.
  change (length (calls s_both0)) with 0%nat in Hcalls.
  replace (length (calls s_both)) with 1%nat in Hcalls
    by (vm_compute; reflexivity).
  lia.
Defined.

(** C8 as stated does not hold: [home.example.com] named twice in
    the IPv4 list gives two Actions for the pair (home.example.com, 4). *)
Lemma action_list_duplicate_counterexample :
  actions (updater s_twice0) = [] /\
  init s_twice0 = Running None (state_of (init s_twice0)) /\
  actions_for (actions (updater (state_of (init s_twice0)))) "home.example.com" 4 =
    [home4; home4].
Proof. split; [reflexivity |]. split; vm_compute; reflexivity. Qed.

Lemma fatal_provider_errors_witness :
  exists s',
    reconcile ip_203_0_113_5 home4 (sys0 u_home [RList (Err "boom")]) = Exited 1 s' /\
    calls s' = calls (sys0 u_home [RList (Err "boom")]) ++
               [list_event ip_203_0_113_5 home4 (Err "boom")] /\
    last (logs s') =
      Some (error_entry home4 "Action failed, could not research DNS records" "boom") /\
    updater s' = updater (sys0 u_home [RList (Err "boom")]).
Proof.
  exact (proj1 fatal_provider_errors ip_203_0_113_5 home4
           (sys0 u_home [RList (Err "boom")]) [] "boom"%string eq_refl).
Defined.

Lemma InitApi_short_policy_panics_witness :
  exists s', InitApi (sys0 (updater0 [] [] "5") []) = Panicked "index out of range" s'.
Proof.
  apply (InitApi_short_policy_panics (sys0 (updater0 [] [] "5") [])
           {| made_with := ["t"%string]; retry := None |}).
  - reflexivity.
  - discriminate.
  - cbn. lia.
  - repeat constructor. now exists 5.
Defined.

End Scenarios.

(** * Startup: [InitApi], [init], [NewCloudflareUpdater] *)

Section StartupFacts.
Import Updater.
Context {provider : Provider} {runtime : Runtime}.

Lemma parses_dec (field : string) : parses field \/ ~ parses field.
Proof.
  unfold parses. destruct (Atoi field) as [n | err].
  - left. now exists n.
  - right. now intros [n Hn].
Qed.

(** X1. [InitApi] panics exactly when the client was made, the retry
    policy is not empty, it has fewer than three space-separated fields
    and every field it has is an integer. *)
Theorem InitApi_panics_iff (s : Sys) :
  (exists reason s', InitApi s = Panicked reason s') <->
  (exists api0, made_client (configs (updater s)) = Ok api0) /\
  retryPolicy (configs (updater s)) <> EmptyString /\
  (length (Split (retryPolicy (configs (updater s))) " ") < 3)%nat /\
  Forall parses (Split (retryPolicy (configs (updater s))) " ").
Proof.
  unfold InitApi, bind at 1, get_updater. fold (made_client (configs (updater s))).
  destruct (made_client (configs (updater s))) as [api0 | err].
  2: { split.
       - intros (reason & s' & Habs). discriminate Habs.
       - intros [[api0 Habs] _]. discriminate Habs. }
  unfold bind at 1, set_api, bind at 1, get_updater, set_updater.
  destruct (String.eqb_spec (retryPolicy (configs (updater s))) "") as [Hempty | Hne];
    cbn [negb].
  { split.
    - intros (reason & s' & Habs). discriminate Habs.
    - intros (_ & Habs & _). now destruct Habs. }
  destruct (Split (retryPolicy (configs (updater s))) " ") as [| f0 [| f1 [| f2 fs]]].
  - unfold bind, index, panic. cbn. split; [| eauto].
    intros _. split; [eauto |]. split; [exact Hne |]. split; [cbn; lia | constructor].
  - unfold bind, index, ret, panic. cbn.
    destruct (Atoi f0) as [n0 | e0] eqn:H0; cbn.
    + split; [| eauto]. intros _. split; [eauto |]. split; [exact Hne |].
      split; [cbn; lia |]. repeat constructor. now exists n0.
    + split; [intros (reason & s' & Habs); discriminate Habs |].
      intros (_ & _ & _ & Hall). apply Forall_cons in Hall as [[n Hn] _]. congruence.
  - unfold bind, index, ret, panic. cbn.
    destruct (Atoi f0) as [n0 | e0] eqn:H0; cbn.
    + destruct (Atoi f1) as [n1 | e1] eqn:H1; cbn.
      * split; [| eauto]. intros _. split; [eauto |]. split; [exact Hne |].
        split; [cbn; lia |]. repeat constructor; [now exists n0 | now exists n1].
      * split; [intros (reason & s' & Habs); discriminate Habs |].
        intros (_ & _ & _ & Hall). apply Forall_cons in Hall as [_ Hall].
        apply Forall_cons in Hall as [[n Hn] _]. congruence.
    + split; [intros (reason & s' & Habs); discriminate Habs |].
      intros (_ & _ & _ & Hall). apply Forall_cons in Hall as [[n Hn] _]. congruence.
  - split; [| intros (_ & _ & Hlen & _); cbn in Hlen; lia].
    unfold bind, index, ret, panic, u_log, write_log. cbn.
    destruct (Atoi f0); cbn; [| intros (? & ? & Habs); discriminate Habs].
    destruct (Atoi f1); cbn; [| intros (? & ? & Habs); discriminate Habs].
    destruct (Atoi f2); cbn; intros (? & ? & Habs); discriminate Habs.
Qed.

(** X2. With the client made and a retry policy whose first three
    space-separated fields are the integers [a], [b], [c], [InitApi]
    returns no error and leaves the client with the retry policy
    [(a, b, c)]; whatever follows the third field is ignored. *)
Theorem InitApi_sets_retry_policy (s : Sys) (api0 : API) (f0 f1 f2 : string)
    (fs : list string) (a b c : Z) :
  made_client (configs (updater s)) = Ok api0 ->
  Split (retryPolicy (configs (updater s))) " " = f0 :: f1 :: f2 :: fs ->
  Atoi f0 = Ok a -> Atoi f1 = Ok b -> Atoi f2 = Ok c ->
  exists s',
    InitApi s = Running None s' /\
    api (updater s') = Some (cf_UsingRetryPolicy a b c api0).
Proof.
  intros Hmade Hsplit H0 H1 H2.
  assert (retryPolicy (configs (updater s)) <> EmptyString) as Hne.
  { intros Hempty. rewrite Hempty in Hsplit. discriminate Hsplit. }
  unfold InitApi, bind at 1, get_updater. fold (made_client (configs (updater s))).
  rewrite Hmade. unfold bind at 1, set_api, bind at 1, get_updater, set_updater.
  apply String.eqb_neq in Hne. rewrite Hne, Hsplit. cbn [negb].
  unfold bind, index, ret, u_log, write_log. cbn. rewrite H0. cbn.
  rewrite H1. cbn. rewrite H2. cbn. eauto.
Qed.

(** X18. A retry policy with a field that is no integer among its first
    three, the fields before it being integers, is rejected with an
    error that names the field and carries the error of [strconv.Atoi];
    [InitApi] does not panic, whatever follows that field, and the
    client is left without a retry policy. *)
Theorem InitApi_rejects_bad_field (s : Sys) (api0 : API) (i : nat)
    (field : string) (err : error) :
  made_client (configs (updater s)) = Ok api0 ->
  retryPolicy (configs (updater s)) <> EmptyString ->
  (i < 3)%nat ->
  Split (retryPolicy (configs (updater s))) " " !! i = Some field ->
  Atoi field = Err err ->
  (forall (j : nat) earlier, (j < i)%nat ->
     Split (retryPolicy (configs (updater s))) " " !! j = Some earlier ->
     parses earlier) ->
  exists s',
    InitApi s =
      Running (Some ("Failed to parse retry policy's " ++ retry_field i ++ ": "
                     ++ err)%string) s' /\
    api (updater s') = Some api0.
Proof.
  intros Hmade Hne Hi Hfield Herr Hearlier.
  unfold InitApi, bind at 1, get_updater. fold (made_client (configs (updater s))).
  rewrite Hmade. unfold bind at 1, set_api, bind at 1, get_updater, set_updater.
  apply String.eqb_neq in Hne. rewrite Hne. cbn [negb].
  destruct (Split (retryPolicy (configs (updater s))) " ") as [| f0 fields];
    [discriminate Hfield |].
  destruct i as [| i].
  { injection Hfield as ->. unfold bind, index, ret. cbn. rewrite Herr.
    eexists. split; reflexivity. }
  destruct (Hearlier 0%nat f0 ltac:(lia) eq_refl) as [n0 H0].
  destruct fields as [| f1 fields]; [discriminate Hfield |].
  destruct i as [| i].
  { injection Hfield as ->. unfold bind, index, ret. cbn. rewrite H0. cbn.
    rewrite Herr. eexists. split; reflexivity. }
  destruct (Hearlier 1%nat f1 ltac:(lia) eq_refl) as [n1 H1].
  destruct fields as [| f2 fields]; [discriminate Hfield |].
  destruct i as [| i]; [| lia].
  injection Hfield as ->. unfold bind, index, ret. cbn. rewrite H0. cbn.
  rewrite H1. cbn. rewrite Herr. eexists. split; reflexivity.
Qed.

(** The state [InitApi] leaves: of the state it started in, only the
    client and the log can differ. *)
Lemma InitApi_state (s : Sys) :
  exists (a : option API) (lg : list LogEntry),
    state_of (InitApi s) =
      {| updater := {| options := options (updater s); configs := configs (updater s);
                       actions := actions (updater s); isInit := isInit (updater s);
                       api := a |};
         world := world s; calls := calls s; logs := logs s ++ lg |}.
Proof.
  assert (s = {| updater := {| options := options (updater s);
                               configs := configs (updater s);
                               actions := actions (updater s);
                               isInit := isInit (updater s);
                               api := api (updater s) |};
                 world := world s; calls := calls s; logs := logs s ++ [] |}) as Hs.
  { rewrite app_nil_r. now destruct s as [[] ? ? ?]. }
  assert (forall a,
            {| updater := {| options := options (updater s);
                             configs := configs (updater s);
                             actions := actions (updater s);
                             isInit := isInit (updater s); api := a |};
               world := world s; calls := calls s; logs := logs s |} =
            {| updater := {| options := options (updater s);
                             configs := configs (updater s);
                             actions := actions (updater s);
                             isInit := isInit (updater s); api := a |};
               world := world s; calls := calls s; logs := logs s ++ [] |}) as Hnil
    by (intros a; now rewrite app_nil_r).
  unfold InitApi, bind, get_updater, set_api, set_updater, index, ret, panic,
    u_log, write_log.
  destruct (if String.eqb (token (configs (updater s))) "" then _ else _)
    as [api0 | err]; [| exists (api (updater s)), []; exact Hs].
  destruct (negb _); [| exists (Some api0), []; apply Hnil].
  destruct (Split (retryPolicy (configs (updater s))) " ") as [| f0 [| f1 [| f2 fs]]];
    cbn.
  - exists (Some api0), []. apply Hnil.
  - destruct (Atoi f0); cbn; exists (Some api0), []; apply Hnil.
  - destruct (Atoi f0); cbn; [destruct (Atoi f1); cbn |];
      exists (Some api0), []; apply Hnil.
  - destruct (Atoi f0); cbn;
      [destruct (Atoi f1); cbn; [destruct (Atoi f2); cbn | ] |];
      try (exists (Some api0), []; apply Hnil).
    eexists _, [_]. reflexivity.
Qed.

(** X3. Whatever [InitApi] does (return, error or panic), it makes no
    provider call and leaves the options, the configuration, the action
    list and [isInit] of the updater as they were: of the updater struct
    it writes the client only. *)
Theorem InitApi_frame (s : Sys) :
  world (state_of (InitApi s)) = world s /\
  calls (state_of (InitApi s)) = calls s /\
  options (updater (state_of (InitApi s))) = options (updater s) /\
  configs (updater (state_of (InitApi s))) = configs (updater s) /\
  actions (updater (state_of (InitApi s))) = actions (updater s) /\
  isInit (updater (state_of (InitApi s))) = isInit (updater s).
Proof.
  destruct (InitApi_state s) as (a & lg & ->). cbn. repeat split.
Qed.

(** The lookups of [init], whether they fail or not: the loop returns,
    makes zone lookups only, and touches neither the updater struct nor
    the log. An error is that of [EffectiveTLDPlusOne] for a key, or that
    of the last lookup made. *)
Lemma resolve_zones_returns (keys : list string) (m : gmap string string) (s : Sys) :
  exists r s' evs,
    resolve_zones keys m s = Running r s' /\
    updater s' = updater s /\ logs s' = logs s /\
    calls s' = calls s ++ evs /\ Forall zone_lookup evs /\
    match r with
    | Ok _ => Forall succeeded evs
    | Err err =>
        (exists val, val ∈ keys /\ EffectiveTLDPlusOne val = Err err /\
                     Forall succeeded evs) \/
        (exists evs0 e, evs = evs0 ++ [e] /\ Forall succeeded evs0 /\
                        ev_err e = Some err)
    end.
Proof.
  revert m s. induction keys as [| val keys IH]; intros m s; cbn [resolve_zones].
  - exists (Ok m), s, []. rewrite app_nil_r. repeat split; constructor.
  - destruct (EffectiveTLDPlusOne val) as [zone | err] eqn:Hzone.
    + unfold bind, api_call.
      destruct (ZoneIDByName (world s) zone) as [w [id | err]] eqn:Hid; cbn.
      * destruct (IH (<[val := id]> m)
                    {| updater := updater s; world := w;
                       calls := calls s ++ [{| ev_call := CallZoneIDByName zone;
                                               ev_err := None |}];
                       logs := logs s |})
          as (r & s' & evs & Hrun & Hu & Hl & Hc & Hz & Hr).
        cbn in Hu, Hl, Hc.
        exists r, s', ({| ev_call := CallZoneIDByName zone; ev_err := None |} :: evs).
        split; [exact Hrun |]. split; [exact Hu |]. split; [exact Hl |].
        split; [now rewrite Hc, <- app_assoc |].
        split; [constructor; [reflexivity | exact Hz] |].
        destruct r as [m' | err].
        -- constructor; [reflexivity | exact Hr].
        -- destruct Hr as [(v & Hv & He & Hs) | (evs0 & e & -> & Hs & He)].
           ++ left. exists v. split; [now right |]. split; [exact He |].
              constructor; [reflexivity | exact Hs].
           ++ right. eexists (_ :: evs0), e. split; [reflexivity |].
              split; [constructor; [reflexivity | exact Hs] | exact He].
      * eexists (Err err), _, [_]. split; [reflexivity |]. cbn.
        split; [reflexivity |]. split; [reflexivity |]. split; [reflexivity |].
        split; [repeat constructor |].
        right. eexists [], _. split; [reflexivity |].
        split; [constructor | reflexivity].
    + exists (Err err), s, []. rewrite app_nil_r.
      split; [reflexivity |]. split; [reflexivity |]. split; [reflexivity |].
      split; [reflexivity |]. split; [constructor |].
      left. exists val. split; [left |]. split; [exact Hzone | constructor].
Qed.

(** [init] by the outcome of its lookups. *)
Lemma init_cases (s : Sys) :
  let v4 := ipv4Zones (options (updater s)) in
  let v6 := ipv6Zones (options (updater s)) in
  match resolve_zones (range_keys (zone_map0 v4 v6)) (zone_map0 v4 v6) s with
  | Running (Ok m) s1 =>
      exists s2, init s = Running None s2 /\
        calls s2 = calls s1 /\ logs s2 = logs s1 /\
        isInit (updater s2) = true /\
        actions (updater s2) =
          actions (updater s1) ++ map (mk_action m 4) v4 ++ map (mk_action m 6) v6
  | Running (Err err) s1 => init s = Running (Some err) s1
  | Exited code s1 => init s = Exited code s1
  | Panicked reason s1 => init s = Panicked reason s1
  end.
Proof.
  intros v4 v6.
  assert (init s =
          bind (resolve_zones (range_keys (zone_map0 v4 v6)) (zone_map0 v4 v6))
            (fun r =>
               match r with
               | Err err => ret (Some err)
               | Ok zoneIdMap =>
                   bind (for_range v4 (fun val => append_action (mk_action zoneIdMap 4 val)))
                     (fun _ =>
                        bind (for_range v6
                                (fun val => append_action (mk_action zoneIdMap 6 val)))
                          (fun _ => bind (set_isInit true) (fun _ => ret None)))
               end) s) as -> by reflexivity.
  destruct (resolve_zones (range_keys (zone_map0 v4 v6)) (zone_map0 v4 v6) s)
    as [[m | err] s1 | code s1 | reason s1] eqn:Hres;
    unfold bind at 1; rewrite Hres; try reflexivity.
  unfold bind at 1. rewrite (append_actions_loop (mk_action m 4)).
  unfold bind at 1. rewrite (append_actions_loop (mk_action m 6)).
  unfold bind, set_isInit, get_updater, set_updater, ret. cbn.
  eexists. split; [reflexivity |]. cbn. rewrite <- app_assoc. repeat split.
Qed.

(** [init] returns, after zone lookups only; on an error the updater
    struct is as it was. *)
Lemma init_returns (s : Sys) :
  exists r s' evs,
    init s = Running r s' /\
    calls s' = calls s ++ evs /\ Forall zone_lookup evs /\
    match r with
    | Some _ => updater s' = updater s
    | None => isInit (updater s') = true
    end.
Proof.
  pose proof (init_cases s) as Hcases. cbn zeta in Hcases.
  set (m0 := zone_map0 _ _) in Hcases.
  destruct (resolve_zones_returns (range_keys m0) m0 s)
    as (r & s1 & evs & Hrun & Hu & _ & Hc & Hz & _).
  rewrite Hrun in Hcases. destruct r as [m | err].
  - destruct Hcases as (s2 & Hinit & Hc2 & _ & Hisinit & _).
    exists None, s2, evs. split; [exact Hinit |].
    split; [now rewrite Hc2 |]. split; [exact Hz | exact Hisinit].
  - exists (Some err), s1, evs.
    split; [exact Hcases |]. split; [exact Hc |]. split; [exact Hz | exact Hu].
Qed.

(** X4. [init] always returns. It makes zone lookups only and writes no
    log. When it returns an error the updater struct is as it was (no
    action added, [isInit] not set), and the error is that of
    [EffectiveTLDPlusOne] for a name it ranged over or that of the last
    lookup made; when it returns no error every lookup succeeded,
    [isInit] is set and one action was added per entry of the two
    lists. *)
Theorem init_all_or_nothing (s : Sys) :
  exists r s' evs,
    init s = Running r s' /\
    calls s' = calls s ++ evs /\ Forall zone_lookup evs /\ logs s' = logs s /\
    match r with
    | Some err =>
        updater s' = updater s /\
        ((exists val,
            val ∈ range_keys (zone_map0 (ipv4Zones (options (updater s)))
                                (ipv6Zones (options (updater s)))) /\
            EffectiveTLDPlusOne val = Err err /\ Forall succeeded evs) \/
         (exists evs0 e, evs = evs0 ++ [e] /\ Forall succeeded evs0 /\
                         ev_err e = Some err))
    | None =>
        Forall succeeded evs /\ isInit (updater s') = true /\
        length (actions (updater s')) =
          (length (actions (updater s))
           + length (ipv4Zones (options (updater s)))
           + length (ipv6Zones (options (updater s))))%nat
    end.
Proof.
  pose proof (init_cases s) as Hcases. cbn zeta in Hcases.
  set (m0 := zone_map0 _ _) in *.
  destruct (resolve_zones_returns (range_keys m0) m0 s)
    as (r & s1 & evs & Hrun & Hu & Hl & Hc & Hz & Hr).
  rewrite Hrun in Hcases. destruct r as [m | err].
  - destruct Hcases as (s2 & Hinit & Hc2 & Hl2 & Hisinit & Hacts).
    exists None, s2, evs. split; [exact Hinit |].
    split; [now rewrite Hc2 |]. split; [exact Hz |].
    split; [now rewrite Hl2 |]. split; [exact Hr |]. split; [exact Hisinit |].
    rewrite Hacts, Hu, !length_app, !length_map. lia.
  - exists (Some err), s1, evs. split; [exact Hcases |].
    split; [exact Hc |]. split; [exact Hz |]. split; [exact Hl |].
    split; [exact Hu | exact Hr].
Qed.

End StartupFacts.

(** * More about the worker *)

Section WorkerMore.
Import Updater.
Context {provider : Provider} {runtime : Runtime}.

(** X5. The calls of one reconciliation: the list call comes first and
    is the only one; after it come either update calls only or exactly
    one create call, never both. *)
Theorem reconcile_call_shape (ip : IP) (action : Action) (s : Sys) :
  exists evs rest,
    calls (state_of (reconcile ip action s)) = calls s ++ evs /\
    map ev_call evs =
      CallListDNSRecords (CfZoneId action) (list_params ip action) :: rest /\
    (Forall (fun c => is_update c = true) rest \/
     rest = [CallCreateDNSRecord (CfZoneId action) (create_params ip action)]).
Proof.
  destruct (ListDNSRecords (world s) (CfZoneId action) (list_params ip action))
    as [w [records | err]] eqn:Hlist.
  - destruct (reconcile_listed ip action s w records Hlist)
      as (cevs & reached & rest & uevs & Hend & Hc & Hsplit & Hu & _).
    exists (list_event ip action (Ok records) :: cevs ++ uevs),
           (map ev_call cevs ++ map ev_call uevs).
    split; [exact (proj1 Hend) |]. split; [cbn; now rewrite map_app |].
    destruct records as [| r l].
    + right. cbn in Hsplit. destruct reached; [| discriminate Hsplit].
      cbn in Hu. destruct uevs; [| discriminate Hu].
      cbn in Hc. rewrite Hc. reflexivity.
    + left. cbn in Hc. destruct cevs; [| discriminate Hc]. cbn. rewrite Hu.
      apply Forall_forall. intros c Hin.
      apply list_elem_of_fmap in Hin as (record & -> & _). reflexivity.
  - destruct (reconcile_list_error ip action s w err Hlist) as (s' & _ & Hend).
    exists [list_event ip action (Err err)], [].
    split; [exact (proj1 Hend) |]. split; [reflexivity |]. left. constructor.
Qed.

(** The calls of one reconciliation are calls for its action. *)
Lemma reconcile_targets (ip : IP) (action : Action) (s : Sys) :
  exists evs,
    calls (state_of (reconcile ip action s)) = calls s ++ evs /\
    Forall (fun e => targets ip action (ev_call e)) evs.
Proof.
  destruct (ListDNSRecords (world s) (CfZoneId action) (list_params ip action))
    as [w [records | err]] eqn:Hlist.
  - destruct (reconcile_listed ip action s w records Hlist)
      as (cevs & reached & rest & uevs & Hend & Hc & Hsplit & Hu & _).
    exists (list_event ip action (Ok records) :: cevs ++ uevs).
    split; [exact (proj1 Hend) |].
    constructor; [cbn; auto |]. apply Forall_app. split.
    + apply Forall_forall. intros e He.
      apply (list_elem_of_fmap_2 ev_call) in He.
      change (ev_call <$> cevs) with (map ev_call cevs) in He. rewrite Hc in He.
      destruct (length records =? 0)%nat.
      * apply list_elem_of_singleton in He as ->. cbn.
        unfold create_params. cbn. rewrite <- recordType_family. auto.
      * now apply elem_of_nil in He.
    + apply Forall_forall. intros e He.
      apply (list_elem_of_fmap_2 ev_call) in He.
      change (ev_call <$> uevs) with (map ev_call uevs) in He. rewrite Hu in He.
      apply list_elem_of_fmap in He as (record & -> & _). cbn. auto.
  - destruct (reconcile_list_error ip action s w err Hlist) as (s' & _ & Hend).
    exists [list_event ip action (Err err)]. split; [exact (proj1 Hend) |].
    repeat constructor.
Qed.

Lemma action_loop_targets (ip : IP) (acts : list Action) (s : Sys) :
  exists evs,
    calls (state_of (for_range acts (action_step ip) s)) = calls s ++ evs /\
    Forall (fun e => exists action,
                action ∈ acts /\ skipped ip action = false /\
                targets ip action (ev_call e)) evs.
Proof.
  revert s. induction acts as [| a acts IH]; intros s.
  - exists []. cbn. rewrite app_nil_r. split; [reflexivity | constructor].
  - cbn [for_range]. rewrite state_of_bind.
    assert (exists evs1,
              calls (state_of (action_step ip a s)) = calls s ++ evs1 /\
              Forall (fun e => exists action,
                          action ∈ a :: acts /\ skipped ip action = false /\
                          targets ip action (ev_call e)) evs1) as (evs1 & Hc1 & H1).
    { rewrite action_step_skipped. destruct (skipped ip a) eqn:Hsk.
      - exists []. cbn. rewrite app_nil_r. split; [reflexivity | constructor].
      - destruct (reconcile_targets ip a s) as (evs & Hc & Ht).
        exists evs. split; [exact Hc |].
        eapply Forall_impl; [exact Ht |]. intros e He. exists a.
        split; [left |]. split; [exact Hsk | exact He]. }
    destruct (action_step ip a s) as [[] s1 | code s1 | reason s1]; cbn in Hc1.
    + destruct (IH s1) as (evs2 & Hc2 & H2). exists (evs1 ++ evs2).
      split; [now rewrite Hc2, Hc1, app_assoc |].
      apply Forall_app. split; [exact H1 |].
      eapply Forall_impl; [exact H2 |].
      intros e (action & Hin & Hsk & Ht). exists action.
      split; [now right |]. split; [exact Hsk | exact Ht].
    + exists evs1. split; [exact Hc1 | exact H1].
    + exists evs1. split; [exact Hc1 | exact H1].
Qed.

(** X6. Every call the worker makes for a notification is a list,
    create or update call for an action of its list that passed the two
    family checks: in the zone of that action, for its record name and
    the record type of the family of the address, with the text of the
    address as content. The worker makes no zone lookup. *)
Theorem receive_calls_target_actions (ip : IP) (s : Sys) :
  exists evs,
    calls (state_of (receive ip s)) = calls s ++ evs /\
    Forall (fun e => exists action,
                action ∈ actions (updater s) /\ skipped ip action = false /\
                targets ip action (ev_call e)) evs.
Proof.
  destruct (is_duplicate (options (updater s)) ip) eqn:Hdup.
  - rewrite (receive_duplicate ip s Hdup). exists []. cbn.
    rewrite app_nil_r. split; [reflexivity | constructor].
  - rewrite (receive_fresh ip s Hdup), state_of_bind.
    destruct (action_loop_targets ip (actions (updater s)) (received ip s))
      as (evs & Hc & Ht).
    exists evs. split; [| exact Ht].
    destruct (for_range _ _ (received ip s)) as [[] s1 | code s1 | reason s1];
      cbn in Hc; [| exact Hc | exact Hc].
    destruct (To4 ip); cbn; exact Hc.
Qed.

(** What [receive] leaves of the updater struct. *)
Lemma receive_slot_frame (ip : IP) (s : Sys) :
  configs (updater (state_of (receive ip s))) = configs (updater s) /\
  actions (updater (state_of (receive ip s))) = actions (updater s) /\
  isInit (updater (state_of (receive ip s))) = isInit (updater s) /\
  api (updater (state_of (receive ip s))) = api (updater s) /\
  ipv4Zones (options (updater (state_of (receive ip s))))
    = ipv4Zones (options (updater s)) /\
  ipv6Zones (options (updater (state_of (receive ip s))))
    = ipv6Zones (options (updater s)) /\
  (family_of ip = 6 ->
   lastIpv4 (options (updater (state_of (receive ip s))))
     = lastIpv4 (options (updater s))) /\
  (family_of ip = 4 ->
   lastIpv6 (options (updater (state_of (receive ip s))))
     = lastIpv6 (options (updater s))).
Proof.
  destruct (is_duplicate (options (updater s)) ip) eqn:Hdup.
  - rewrite (receive_duplicate ip s Hdup). cbn. repeat split.
  - rewrite (receive_fresh ip s Hdup), state_of_bind.
    destruct (action_loop_ended ip (actions (updater s)) (received ip s))
      as (evs & _ & Hu & Ho).
    destruct (for_range _ _ (received ip s)) as [[] s1 | code s1 | reason s1];
      cbn in Hu; [| rewrite Hu; repeat split | destruct Ho].
    unfold family_of. destruct (To4 ip); cbn; rewrite Hu; repeat split;
      intros; lia.
Qed.

(** X7. Of the updater struct a notification can write one field only:
    the LastAddress slot of its own family, and there nothing but the
    address received. Whatever [receive] does, the configuration, the
    action list, [isInit], the client, the two configured lists and the
    slot of the other family are as before. *)
Theorem receive_writes_one_slot (ip : IP) (s : Sys) :
  (configs (updater (state_of (receive ip s))) = configs (updater s) /\
   actions (updater (state_of (receive ip s))) = actions (updater s) /\
   isInit (updater (state_of (receive ip s))) = isInit (updater s) /\
   api (updater (state_of (receive ip s))) = api (updater s) /\
   ipv4Zones (options (updater (state_of (receive ip s))))
     = ipv4Zones (options (updater s)) /\
   ipv6Zones (options (updater (state_of (receive ip s))))
     = ipv6Zones (options (updater s)) /\
   (family_of ip = 6 ->
    lastIpv4 (options (updater (state_of (receive ip s))))
      = lastIpv4 (options (updater s))) /\
   (family_of ip = 4 ->
    lastIpv6 (options (updater (state_of (receive ip s))))
      = lastIpv6 (options (updater s)))) /\
  (last_of (options (updater (state_of (receive ip s)))) ip
     = last_of (options (updater s)) ip \/
   last_of (options (updater (state_of (receive ip s)))) ip = Some ip).
Proof.
  split; [exact (receive_slot_frame ip s) |].
  destruct (is_duplicate (options (updater s)) ip) eqn:Hdup.
  - rewrite (receive_duplicate ip s Hdup). now left.
  - rewrite (receive_fresh ip s Hdup), state_of_bind.
    destruct (action_loop_ended ip (actions (updater s)) (received ip s))
      as (evs & _ & Hu & Ho).
    destruct (for_range _ _ (received ip s)) as [[] s1 | code s1 | reason s1];
      cbn in Hu; [| left; now rewrite Hu | destruct Ho].
    right. unfold last_of. destruct (To4 ip); reflexivity.
Qed.

Lemma receive_other_slot (ip x : IP) (s : Sys) :
  family_of x <> family_of ip ->
  last_of (options (updater (state_of (receive x s)))) ip =
  last_of (options (updater s)) ip.
Proof.
  intros Hfam.
  destruct (receive_slot_frame x s) as (_ & _ & _ & _ & _ & _ & H6 & H4).
  unfold last_of, family_of in *.
  destruct (To4 ip), (To4 x); try lia; [apply H6 | apply H4]; reflexivity.
Qed.

(** The worker on addresses of the other family than [ip], then on
    [ip'], equal to an address the slot of the family of [ip]
    remembers: [ip'] is dropped. *)
Lemma spawnWorker_other_family (ip ip' : IP) (between after : list IP) (s : Sys) :
  Equal ip ip' = true ->
  (forall x, x ∈ between -> family_of x <> family_of ip) ->
  (exists last, last_of (options (updater s)) ip = Some last /\
                Equal last ip = true) ->
  for_range (between ++ ip' :: after) receive s =
  for_range (between ++ after) receive s.
Proof.
  intros Heq. revert s. induction between as [| x between IH]; intros s Hfam Hlast.
  - cbn [app for_range]. unfold bind. rewrite receive_duplicate; [reflexivity |].
    apply is_duplicate_last_of. destruct Hlast as (last & Hslot & Hl).
    exists last. split.
    + rewrite <- Hslot. apply last_of_family. symmetry. now apply Equal_family.
    + now apply (Equal_trans last ip ip').
  - cbn [app for_range]. unfold bind.
    destruct (receive x s) as [[] s1 | code s1 | reason s1] eqn:Hrecv;
      try reflexivity.
    apply IH.
    + intros y Hy. apply Hfam. now right.
    + pose proof (receive_other_slot ip x s) as Hslot. rewrite Hrecv in Hslot.
      cbn in Hslot. rewrite Hslot; [exact Hlast |]. apply Hfam. left.
Qed.

(** X8. Dedup holds across the families: an address equal to an earlier
    one, with only addresses of the other family delivered in between,
    is dropped as if it had not been delivered. *)
Theorem dedup_across_families (before between after : list IP) (ip ip' : IP)
    (s : Sys) :
  Equal ip ip' = true ->
  (forall x, x ∈ between -> family_of x <> family_of ip) ->
  spawnWorker (before ++ ip :: between ++ ip' :: after) s =
  spawnWorker (before ++ ip :: between ++ after) s.
Proof.
  intros Heq Hfam. unfold spawnWorker. rewrite !for_range_app.
  unfold bind.
  destruct (for_range before receive s) as [[] s1 | code s1 | reason s1];
    try reflexivity.
  cbn [for_range]. unfold bind.
  destruct (receive ip s1) as [[] s2 | code s2 | reason s2] eqn:Hrecv;
    try reflexivity.
  apply (spawnWorker_other_family ip ip'); [exact Heq | exact Hfam |].
  now apply (receive_remembers ip s1).
Qed.

(** What a run of the worker leaves of the updater struct. *)
Lemma spawnWorker_frame (In : list IP) (s : Sys) :
  actions (updater (state_of (spawnWorker In s))) = actions (updater s) /\
  isInit (updater (state_of (spawnWorker In s))) = isInit (updater s).
Proof.
  unfold spawnWorker. revert s. induction In as [| ip In IH]; intros s.
  - cbn. auto.
  - cbn [for_range]. rewrite state_of_bind.
    destruct (receive_slot_frame ip s) as (_ & Ha & Hi & _).
    destruct (receive ip s) as [[] s1 | code s1 | reason s1]; cbn in Ha, Hi.
    + destruct (IH s1) as [Ha1 Hi1]. split; congruence.
    + auto.
    + auto.
Qed.

(** X9. [NewCloudflareUpdater] starts the worker on a fully built action
    list or not at all. When it returns an error, [isInit] is not set,
    the action list is empty and the only provider calls made are zone
    lookups: the worker did not run. When it returns no error, [isInit]
    is set and the action list is the one [init] built from the two
    configured lists, also after the worker has run. *)
Theorem NewCloudflareUpdater_all_or_nothing (o : UpdaterOptions)
    (c : CloudFlareConfigs) (In : list IP) (s s' : Sys) (r : option error) :
  NewCloudflareUpdater o c In s = Running r s' ->
  match r with
  | Some err =>
      isInit (updater s') = false /\ actions (updater s') = [] /\
      exists evs, calls s' = calls s ++ evs /\ Forall zone_lookup evs
  | None =>
      isInit (updater s') = true /\
      exists zoneIdMap : gmap string string,
        actions (updater s') =
          map (mk_action zoneIdMap 4) (ipv4Zones o) ++
          map (mk_action zoneIdMap 6) (ipv6Zones o)
  end.
Proof.
  unfold NewCloudflareUpdater, bind at 1, set_updater.
  set (s0 := {| updater := {| options := o; configs := c; actions := [];
                              isInit := false; api := None |};
                world := world s; calls := calls s; logs := logs s |}).
  unfold bind at 1.
  destruct (InitApi_state s0) as (a & lg & Hs1).
  destruct (InitApi s0) as [[e |] s1 | code s1 | reason s1]; cbn in Hs1;
    try discriminate.
  - intros [= <- <-]. rewrite Hs1. cbn. repeat split.
    exists []. rewrite app_nil_r. split; [reflexivity | constructor].
  - unfold bind at 1.
    destruct (init_returns s1) as (r2 & s2 & evs & Hinit & Hc & Hz & Hr2).
    rewrite Hinit. destruct r2 as [e |].
    + intros [= <- <-]. rewrite Hr2, Hs1. cbn.
      repeat split. exists evs. split; [| exact Hz]. rewrite Hc, Hs1. reflexivity.
    + pose proof Hr2 as Hisinit.
      destruct (init_ok s1 s2 Hinit) as (m & _ & Hacts & _).
      rewrite Hs1 in Hacts. cbn in Hacts.
      unfold bind at 1, StartWorker, bind at 1, get_updater. rewrite Hisinit.
      cbn [negb].
      destruct (spawnWorker_frame In s2) as [Ha Hi].
      destruct (spawnWorker In s2) as [[] s3 | code s3 | reason s3];
        cbn in Ha, Hi; try discriminate.
      intros [= <- <-]. split; [congruence |]. exists m. congruence.
Qed.

End WorkerMore.

(** * Configuration: [splitZones], [newUpdater] *)

Section ConfigurationFacts.
Import Updater Main.
Context {provider : Provider} {runtime : Runtime} {main_runtime : MainRuntime}.

Lemma Split_not_nil (s : string) (c : ascii) : Split s c <> [].
Proof.
  destruct s as [| a s]; cbn; [discriminate |].
  destruct (Ascii.eqb a c); [discriminate |].
  destruct (Split s c); discriminate.
Qed.

Lemma concat_cons_char (sep : string) (a : ascii) (field : string)
    (fields : list string) :
  String.concat sep (String a field :: fields) =
  String a (String.concat sep (field :: fields)).
Proof. destruct fields; reflexivity. Qed.

(** Joining the fields with the separator gives the string back. *)
Lemma Split_concat (s : string) (c : ascii) :
  String.concat (String c EmptyString) (Split s c) = s.
Proof.
  induction s as [| a s IH]; [reflexivity |]. cbn [Split].
  destruct (Ascii.eqb_spec a c) as [-> | Hne].
  - pose proof (Split_not_nil s c) as Hnil.
    destruct (Split s c) as [| field fields]; [now destruct Hnil |].
    cbn [String.concat]. cbn. now rewrite <- IH.
  - pose proof (Split_not_nil s c) as Hnil.
    destruct (Split s c) as [| field fields]; [now destruct Hnil |].
    now rewrite concat_cons_char, IH.
Qed.

(** No field holds the separator. *)
Lemma Split_fields (s : string) (c : ascii) :
  Forall (fun field => contains c field = false) (Split s c).
Proof.
  induction s as [| a s IH]; cbn [Split]; [repeat constructor |].
  destruct (Ascii.eqb_spec a c) as [-> | Hne].
  - constructor; [reflexivity | exact IH].
  - destruct (Split s c) as [| field fields]; [repeat constructor; cbn |].
    + apply Ascii.eqb_neq in Hne. now rewrite Hne.
    + apply Forall_cons in IH as [Hfield Hfields].
      constructor; [| exact Hfields]. cbn.
      apply Ascii.eqb_neq in Hne. now rewrite Hne.
Qed.

Lemma Split_length (s : string) (c : ascii) :
  length (Split s c) = S (count_char c s).
Proof.
  induction s as [| a s IH]; [reflexivity |]. cbn [Split count_char].
  destruct (Ascii.eqb a c); cbn [length]; [now rewrite IH |].
  destruct (Split s c) as [| field fields]; [discriminate IH | exact IH].
Qed.

Lemma splitZones_nil (zones : string) : splitZones zones = [] <-> zones = EmptyString.
Proof.
  unfold splitZones. destruct (String.eqb_spec zones "") as [-> | Hne].
  - tauto.
  - split; [| now intros ->]. intros Habs. now destruct (Split_not_nil zones ",").
Qed.

(** X10. [splitZones] gives no name exactly for the empty string; for
    any other string it gives the names between the commas, none
    dropped, trimmed or reordered (joined with commas they give the
    string back), none holding a comma, one more than there are commas:
    empty names are kept. *)
Theorem splitZones_round_trip (zones : string) :
  (splitZones zones = [] <-> zones = EmptyString) /\
  String.concat "," (splitZones zones) = zones /\
  Forall (fun name => contains "," name = false) (splitZones zones) /\
  (zones <> EmptyString ->
   length (splitZones zones) = S (count_char "," zones)).
Proof.
  split; [apply splitZones_nil |]. unfold splitZones.
  destruct (String.eqb_spec zones "") as [-> | Hne].
  - repeat split; [constructor | now intros Habs].
  - split; [apply Split_concat |]. split; [apply Split_fields |].
    intros _. apply Split_length.
Qed.

(** X11. [newUpdater] checks the configuration before it makes anything:
    with both zone variables empty it returns the error of the missing
    zones; otherwise, with [UPDATER] equal to NOOP up to case, it returns
    the no-op updater for the two split lists, whatever the credentials;
    otherwise, with no token and no complete email and key pair, it
    returns the error of the missing credentials. In these three cases
    it writes no log and leaves the state (the provider with it) as it
    was. *)
Theorem newUpdater_checks_first (env : string -> string) (In : list IP) (s : Sys) :
  (env "CLOUDFLARE_ZONES_IPV4"%string = EmptyString ->
   env "CLOUDFLARE_ZONES_IPV6"%string = EmptyString ->
   newUpdater env In s =
     ([], Running
            (Err "Env CLOUDFLARE_ZONES_IPV4 and CLOUDFLARE_ZONES_IPV6 not found"%string)
            s)) /\
  (env "CLOUDFLARE_ZONES_IPV4"%string <> EmptyString \/
   env "CLOUDFLARE_ZONES_IPV6"%string <> EmptyString ->
   (EqualFold (env "UPDATER"%string) "NOOP" = true ->
    newUpdater env In s =
      ([], Running
             (Ok (NoOPUpdater
                    (NewUpdaterOptions
                       (splitZones (env "CLOUDFLARE_ZONES_IPV4"%string))
                       (splitZones (env "CLOUDFLARE_ZONES_IPV6"%string))))) s)) /\
   (EqualFold (env "UPDATER"%string) "NOOP" = false ->
    env "CLOUDFLARE_API_TOKEN"%string = EmptyString ->
    env "CLOUDFLARE_API_EMAIL"%string = EmptyString \/
    env "CLOUDFLARE_API_KEY"%string = EmptyString ->
    newUpdater env In s =
      ([], Running
             (Err "No CloudFlare token or email&key pair was provided."%string) s))).
Proof.
  split.
  - intros H4 H6. unfold newUpdater. rewrite H4, H6. reflexivity.
  - intros Hzones.
    assert ((length (splitZones (env "CLOUDFLARE_ZONES_IPV4"%string)) =? 0)%nat
            && (length (splitZones (env "CLOUDFLARE_ZONES_IPV6"%string)) =? 0)%nat
            = false) as Hlen.
    { apply andb_false_iff.
      destruct Hzones as [H | H]; [left | right]; apply Nat.eqb_neq;
        intros Hnil%length_zero_iff_nil%splitZones_nil; now destruct H. }
    split.
    + intros Hnoop. unfold newUpdater. now rewrite Hlen, Hnoop.
    + intros Hnoop Htoken Hcred. unfold newUpdater. rewrite Hlen, Hnoop, Htoken.
      destruct Hcred as [-> | ->]; cbn; [reflexivity |].
      now rewrite orb_true_r.
Qed.

End ConfigurationFacts.

(** * The poller and the address it constructs *)

Section ConstructionBounds.
Import PrefixCombiner.

Lemma length_copy (dst src : IP) : length (copy dst src) = length dst.
Proof.
  unfold copy. rewrite length_app, length_take, length_drop. lia.
Qed.

Lemma lookup_copy_zero (src : IP) (k : nat) :
  (k < IPv6len)%nat ->
  copy (make_IP IPv6len) src !! k = Some (default Byte.x00 (src !! k)).
Proof.
  intros Hk. unfold copy, make_IP. rewrite length_replicate.
  destruct (decide (k < length src)%nat) as [Hlt | Hge].
  - rewrite lookup_app_l by (rewrite length_take; lia).
    rewrite lookup_take_lt by exact Hk.
    destruct (lookup_lt_is_Some_2 src k Hlt) as [b ->]. reflexivity.
  - rewrite (lookup_ge_None_2 src k) by lia. cbn [default].
    rewrite lookup_app_r by (rewrite length_take; lia).
    rewrite length_take, lookup_drop. apply lookup_replicate_2. lia.
Qed.

(** The loop panics when the host address ends within its range. *)
Lemma combine_loop_short (n a : nat) (L : Z) (l c : IP) :
  (a + n <= length c)%nat -> (a <= length l < a + n)%nat ->
  combine_loop (seq a n) L l c = None.
Proof.
  revert a c. induction n as [| n IH]; intros a c Hc Hl; [lia |].
  cbn [seq combine_loop].
  destruct (lookup_lt_is_Some_2 c a ltac:(lia)) as [b ->]. cbn.
  destruct (decide (length l = a)) as [Heq | Hne].
  - rewrite (lookup_ge_None_2 l a) by lia. reflexivity.
  - destruct (lookup_lt_is_Some_2 l a ltac:(lia)) as [lb ->]. cbn.
    apply IH; [rewrite length_insert; lia | lia].
Qed.

(** The construction for any prefix address and any host address of at
    least sixteen bytes. *)
Lemma constructIp_any (prefixIP localIp : IP) (L : Z) :
  (IPv6len <= length localIp)%nat ->
  exists r, constructIp prefixIP L localIp = Some r /\ length r = IPv6len /\
    forall (k : nat) s, (k < IPv6len)%nat -> localIp !! k = Some s ->
      r !! k = Some (add_combine (default Byte.x00 (prefixIP !! k)) s
                       (byte_mask (Z.of_nat k) L)).
Proof.
  intros Hl. unfold constructIp.
  destruct (combine_loop_seq IPv6len 0 L localIp (copy (make_IP IPv6len) prefixIP))
    as (r & Hr & Hlen & Hk).
  { rewrite length_copy. unfold make_IP. now rewrite length_replicate. }
  { exact Hl. }
  exists r. split; [exact Hr |]. split.
  { rewrite Hlen, length_copy. unfold make_IP. now rewrite length_replicate. }
  intros k s Hklt Hs. rewrite Hk, decide_True by lia.
  rewrite (lookup_copy_zero prefixIP k Hklt), Hs. reflexivity.
Qed.

(** A host address that ends before the sixteenth byte makes the
    construction panic. *)
Lemma constructIp_short (prefixIP localIp : IP) (L : Z) :
  (length localIp < IPv6len)%nat -> constructIp prefixIP L localIp = None.
Proof.
  intros Hshort. unfold constructIp. apply combine_loop_short.
  - rewrite length_copy. unfold make_IP. now rewrite length_replicate.
  - lia.
Qed.

Lemma constructIp_None_iff (prefixIP localIp : IP) (L : Z) :
  constructIp prefixIP L localIp = None <-> (length localIp < IPv6len)%nat.
Proof.
  split; [| apply constructIp_short].
  intros Hnone.
  destruct (decide (IPv6len <= length localIp)%nat) as [Hlong | Hshort]; [| lia].
  destruct (constructIp_any prefixIP localIp L Hlong) as (r & Hr & _).
  congruence.
Qed.

(** X12. The construction panics exactly when the host address has
    fewer than sixteen bytes, whatever the prefix. Otherwise it returns
    sixteen bytes, byte [k] being the sum of byte [k] of the prefix
    address (zero where the prefix address is shorter) and the masked
    byte [k] of the host address; bytes after the sixteenth of either
    address are ignored. *)
Theorem constructIp_panics_iff (prefixIP localIp : IP) (L : Z) :
  (constructIp prefixIP L localIp = None <-> (length localIp < IPv6len)%nat) /\
  (forall r, constructIp prefixIP L localIp = Some r ->
     length r = IPv6len /\
     forall (k : nat) s, (k < IPv6len)%nat -> localIp !! k = Some s ->
       r !! k = Some (byte_add (default Byte.x00 (prefixIP !! k))
                        (byte_and s (byte_mask (Z.of_nat k) L)))).
Proof.
  destruct (decide (IPv6len <= length localIp)%nat) as [Hlong | Hshort].
  - destruct (constructIp_any prefixIP localIp L Hlong) as (r & Hr & Hlen & Hk).
    rewrite Hr. split.
    + split; [discriminate | lia].
    + intros r' [= <-]. split; [exact Hlen | exact Hk].
  - rewrite (constructIp_short prefixIP localIp L) by lia. split.
    + split; [lia | reflexivity].
    + intros r Habs. discriminate Habs.
Qed.

End ConstructionBounds.

Section PollerFacts.
Import Main.
Context {router : Router} {main_runtime : MainRuntime}.

Lemma poll_ipv4_ok (s : PollState) (ipv4 : IP) :
  (GetWanIpv4 (box s)).2 = Ok ipv4 ->
  sent (poll_ipv4 s) = sent s ++ [ipv4] /\
  lastV6 (poll_ipv4 s) = lastV6 s /\
  Equal (lastV4 (poll_ipv4 s)) ipv4 = true.
Proof.
  intros Hr. unfold poll_ipv4. destruct (GetWanIpv4 (box s)) as [b r].
  cbn in Hr. subst r. cbn.
  destruct (Equal (lastV4 s) ipv4) eqn:Heq; cbn.
  - auto.
  - split; [reflexivity |]. split; [reflexivity | apply Equal_refl].
Qed.

Lemma poll_ipv4_err (s : PollState) (err : error) :
  (GetWanIpv4 (box s)).2 = Err err ->
  sent (poll_ipv4 s) = sent s /\
  lastV4 (poll_ipv4 s) = lastV4 s /\ lastV6 (poll_ipv4 s) = lastV6 s.
Proof.
  intros Hr. unfold poll_ipv4. destruct (GetWanIpv4 (box s)) as [b r].
  cbn in Hr. subst r. cbn. auto.
Qed.

Lemma poll_ipv6_ok (s : PollState) (ipv6 : IP) :
  (GetwanIpv6 (box s)).2 = Ok ipv6 ->
  sent (poll_ipv6 s) = sent s ++ (if Equal (lastV6 s) ipv6 then [] else [ipv6]) /\
  lastV4 (poll_ipv6 s) = lastV4 s /\
  Equal (lastV6 (poll_ipv6 s)) ipv6 = true.
Proof.
  intros Hr. unfold poll_ipv6. destruct (GetwanIpv6 (box s)) as [b r].
  cbn in Hr. subst r. cbn.
  destruct (Equal (lastV6 s) ipv6) eqn:Heq; cbn.
  - rewrite app_nil_r. auto.
  - split; [reflexivity |]. split; [reflexivity | apply Equal_refl].
Qed.

Lemma poll_ipv6_err (s : PollState) (err : error) :
  (GetwanIpv6 (box s)).2 = Err err ->
  sent (poll_ipv6 s) = sent s /\
  lastV4 (poll_ipv6 s) = lastV4 s /\ lastV6 (poll_ipv6 s) = lastV6 s.
Proof.
  intros Hr. unfold poll_ipv6. destruct (GetwanIpv6 (box s)) as [b r].
  cbn in Hr. subst r. cbn. auto.
Qed.

Lemma poll_prefix_err (lip : IP) (s : PollState) (err : error) :
  (GetIpv6Prefix (box s)).2 = Err err ->
  exists s', poll_prefix lip s = Some s' /\ sent s' = sent s /\
    lastV4 s' = lastV4 s /\ lastV6 s' = lastV6 s.
Proof.
  intros Hr. unfold poll_prefix. destruct (GetIpv6Prefix (box s)) as [b r].
  cbn in Hr. subst r. eexists. split; [reflexivity |]. cbn. auto.
Qed.

Lemma poll_prefix_ok (lip : IP) (s : PollState) (prefix : IPNet) :
  (GetIpv6Prefix (box s)).2 = Ok prefix ->
  poll_prefix lip s = None /\
    PrefixCombiner.constructIp (net_IP prefix) (maskLen_of prefix) lip = None \/
  exists ip s', poll_prefix lip s = Some s' /\
    PrefixCombiner.constructIp (net_IP prefix) (maskLen_of prefix) lip = Some ip /\
    sent s' = sent s ++ [ip] /\ lastV4 s' = lastV4 s /\
    Equal (lastV6 s') (net_IP prefix) = true.
Proof.
  intros Hr. unfold poll_prefix, maskLen_of.
  destruct (GetIpv6Prefix (box s)) as [b r]. cbn in Hr. subst r.
  destruct (PrefixCombiner.constructIp _ _ lip) as [ip |]; cbn; [right | now left].
  eexists ip, _. split; [reflexivity |]. split; [reflexivity |].
  destruct (Equal (lastV6 s) (net_IP prefix)) eqn:Heq; cbn.
  - auto.
  - split; [reflexivity |]. split; [reflexivity | apply Equal_refl].
Qed.

(** One poll in direct mode with both calls answered. *)
Lemma poll_direct_step (a4 a6 : IP) (s : PollState) :
  (forall b, (GetWanIpv4 b).2 = Ok a4) ->
  (forall b, (GetwanIpv6 b).2 = Ok a6) ->
  exists s', poll direct_mode s = Some s' /\
    sent s' = sent s ++ [a4] ++ (if Equal (lastV6 s) a6 then [] else [a6]) /\
    Equal (lastV4 s') a4 = true /\ Equal (lastV6 s') a6 = true.
Proof.
  intros H4 H6. unfold poll, direct_mode. cbn.
  set (s0 := slog_write SlogDebug "Polling WAN IPs from router" [] s).
  destruct (poll_ipv4_ok s0 a4 (H4 _)) as (Hs4 & Hl6 & Hl4).
  destruct (poll_ipv6_ok (poll_ipv4 s0) a6 (H6 _)) as (Hs6 & Hk4 & Hk6).
  eexists. split; [reflexivity |].
  rewrite Hs6, Hs4, Hl6, Hk4, <- app_assoc. auto.
Qed.

(** X13. With both families configured, no local address and a router
    that answers every poll with the same IPv4 and the same IPv6
    address, the poller hands the IPv4 address to the updater at every
    poll and the IPv6 address once at most: at the first poll, unless
    it equals the address remembered already. *)
Theorem polls_direct_mode (a4 a6 : IP) (ticks : nat) (s : PollState) :
  (forall b, (GetWanIpv4 b).2 = Ok a4) ->
  (forall b, (GetwanIpv6 b).2 = Ok a6) ->
  exists s', polls direct_mode ticks s = Some s' /\
    sent s' = sent s ++ [a4] ++ (if Equal (lastV6 s) a6 then [] else [a6])
                     ++ replicate ticks a4 /\
    Equal (lastV4 s') a4 = true /\ Equal (lastV6 s') a6 = true.
Proof.
  intros H4 H6. revert s. induction ticks as [| n IH]; intros s.
  - destruct (poll_direct_step a4 a6 s H4 H6) as (s' & Hp & Hs & Hl4 & Hl6).
    exists s'. cbn [polls replicate]. rewrite app_nil_r. auto.
  - destruct (poll_direct_step a4 a6 s H4 H6) as (s1 & Hp & Hs & Hl4 & Hl6).
    destruct (IH s1) as (s' & Hps & Hs' & Hl4' & Hl6').
    exists s'. cbn [polls]. rewrite Hp. cbn. split; [exact Hps |].
    split; [| auto].
    rewrite Hs', Hs, Hl6. cbn [app].
    rewrite <- !app_assoc. reflexivity.
Qed.

Lemma box_poll_ipv4 (s : PollState) :
  box (poll_ipv4 s) = (GetWanIpv4 (box s)).1.
Proof.
  unfold poll_ipv4. destruct (GetWanIpv4 (box s)) as [b [ipv4 | err]]; cbn;
    [| reflexivity].
  now destruct (Equal (lastV4 s) ipv4).
Qed.

(** The state in which the IPv6 branch of [poll] starts has the router
    of [box_for_ipv6]. *)
Lemma poll_unfold (cfg : PollConfig) (s : PollState) :
  exists s1, box s1 = box_for_ipv6 cfg s /\
    (useIpv4 cfg = false -> sent s1 = sent s /\ lastV4 s1 = lastV4 s /\
                            lastV6 s1 = lastV6 s) /\
    poll cfg s =
      (match localIp cfg with
       | None => if useIpv6 cfg then Some (poll_ipv6 s1) else Some s1
       | Some lip => if useIpv6 cfg then poll_prefix lip s1 else Some s1
       end).
Proof.
  unfold poll, box_for_ipv6.
  set (s0 := slog_write SlogDebug "Polling WAN IPs from router" [] s).
  destruct (useIpv4 cfg).
  - exists (poll_ipv4 s0). split; [exact (box_poll_ipv4 s0) |].
    split; [discriminate | reflexivity].
  - exists s0. split; [reflexivity |]. split; [| reflexivity]. cbn. auto.
Qed.

Lemma poll_prefix_None (lip : IP) (s : PollState) :
  poll_prefix lip s = None <->
  (length lip < IPv6len)%nat /\
  exists prefix, (GetIpv6Prefix (box s)).2 = Ok prefix.
Proof.
  destruct (GetIpv6Prefix (box s)) as [b [prefix | err]] eqn:Hget.
  - assert ((GetIpv6Prefix (box s)).2 = Ok prefix) as Hr by now rewrite Hget.
    cbn [snd].
    pose proof (constructIp_None_iff (net_IP prefix) lip (maskLen_of prefix))
      as Hiff.
    destruct (poll_prefix_ok lip s prefix Hr)
      as [[Hnone Hc] | (ip & s' & Hsome & Hc & _)].
    + rewrite Hnone. split; [| reflexivity].
      intros _. split; [now apply Hiff | now exists prefix].
    + rewrite Hsome. split; [discriminate |].
      intros [Hshort _]. apply Hiff in Hshort. congruence.
  - assert ((GetIpv6Prefix (box s)).2 = Err err) as Hr by now rewrite Hget.
    destruct (poll_prefix_err lip s err Hr) as (s' & Hsome & _).
    rewrite Hsome. cbn [snd]. split; [discriminate |].
    intros [_ [prefix Habs]]. discriminate Habs.
Qed.

Lemma poll_None (cfg : PollConfig) (s : PollState) :
  poll cfg s = None <->
  useIpv6 cfg = true /\
  exists lip, localIp cfg = Some lip /\ (length lip < IPv6len)%nat /\
    exists prefix, (GetIpv6Prefix (box_for_ipv6 cfg s)).2 = Ok prefix.
Proof.
  destruct (poll_unfold cfg s) as (s1 & Hbox & _ & ->). rewrite <- Hbox.
  destruct (localIp cfg) as [lip |], (useIpv6 cfg).
  - rewrite poll_prefix_None. split.
    + intros [Hshort Hp]. split; [reflexivity |]. exists lip. auto.
    + intros [_ (lip' & [= <-] & Hshort & Hp)]. auto.
  - split; [discriminate | intros [Habs _]; discriminate Habs].
  - split; [discriminate | intros [_ (lip & Habs & _)]; discriminate Habs].
  - split; [discriminate | intros [Habs _]; discriminate Habs].
Qed.

(** X14. A poll panics in one case only: IPv6 is in use, the local
    address is set and shorter than sixteen bytes, and the router
    answers the request for the prefix. So with no local address, or one
    of sixteen bytes or more (what [net.ParseIP] returns has sixteen),
    no sequence of polls panics, whatever the router answers. *)
Theorem poll_panics_iff (cfg : PollConfig) (s : PollState) :
  (poll cfg s = None <->
   useIpv6 cfg = true /\
   exists lip, localIp cfg = Some lip /\ (length lip < IPv6len)%nat /\
     exists prefix, (GetIpv6Prefix (box_for_ipv6 cfg s)).2 = Ok prefix) /\
  ((forall lip, localIp cfg = Some lip -> (IPv6len <= length lip)%nat) ->
   forall ticks, exists s', polls cfg ticks s = Some s').
Proof.
  split; [apply poll_None |].
  intros Hlong ticks. revert s. induction ticks as [| n IH]; intros s.
  - cbn [polls]. destruct (poll cfg s) as [s' |] eqn:Hp; [now exists s' |].
    apply poll_None in Hp as [_ (lip & Hlip & Hshort & _)].
    specialize (Hlong lip Hlip). lia.
  - cbn [polls]. destruct (poll cfg s) as [s1 |] eqn:Hp.
    + cbn. apply IH.
    + apply poll_None in Hp as [_ (lip & Hlip & Hshort & _)].
      specialize (Hlong lip Hlip). lia.
Qed.

(** X15. In prefix mode (a local address of sixteen bytes, IPv6 in use,
    IPv4 not) a poll the router answers with a sixteen-byte prefix whose
    bits from the prefix length on are zero hands one address to the
    updater: the bits of the prefix below the prefix length, the bits of
    the local address from there on. It does so at every such poll,
    whether or not the prefix is the one remembered, and remembers the
    address of the prefix, not the address it handed over. *)
Theorem poll_prefix_sends_combined (cfg : PollConfig) (lip : IP)
    (prefix : IPNet) (s : PollState) :
  useIpv4 cfg = false -> useIpv6 cfg = true -> localIp cfg = Some lip ->
  (GetIpv6Prefix (box s)).2 = Ok prefix ->
  length lip = IPv6len -> length (net_IP prefix) = IPv6len ->
  PrefixCombiner.wellformed (net_IP prefix) (maskLen_of prefix) ->
  exists ip s', poll cfg s = Some s' /\
    sent s' = sent s ++ [ip] /\ length ip = IPv6len /\
    (forall i : nat, (i < 128)%nat ->
       ip_bit ip i = if Z.of_nat i <? maskLen_of prefix
                     then ip_bit (net_IP prefix) i else ip_bit lip i) /\
    lastV4 s' = lastV4 s /\ Equal (lastV6 s') (net_IP prefix) = true.
Proof.
  intros H4 H6 Hlip Hr Hl Hn Hwf.
  destruct (poll_unfold cfg s) as (s1 & Hbox & Hsame & ->).
  destruct (Hsame H4) as (Hsent & Hl4 & Hl6).
  unfold box_for_ipv6 in Hbox. rewrite H4 in Hbox.
  rewrite Hlip, H6. rewrite <- Hbox in Hr.
  destruct (poll_prefix_ok lip s1 prefix Hr)
    as [[Hnone Hc] | (ip & s' & Hsome & Hc & Hs & Hk4 & Hk6)].
  - apply (constructIp_None_iff (net_IP prefix) lip (maskLen_of prefix)) in Hc.
    lia.
  - exists ip, s'. split; [exact Hsome |].
    split; [now rewrite Hs, Hsent |]. split.
    { destruct (constructIp_any (net_IP prefix) lip (maskLen_of prefix))
        as (r0 & Hr0 & Hlen0 & _); [lia | congruence]. }
    split.
    { intros i Hi. now apply constructIp_bit. }
    split; [congruence | exact Hk6].
Qed.

(** One poll with every call of the router failing. *)
Lemma poll_all_fail_step (cfg : PollConfig) (s : PollState) :
  (forall b, exists err, (GetWanIpv4 b).2 = Err err) ->
  (forall b, exists err, (GetwanIpv6 b).2 = Err err) ->
  (forall b, exists err, (GetIpv6Prefix b).2 = Err err) ->
  exists s', poll cfg s = Some s' /\ sent s' = sent s /\
    lastV4 s' = lastV4 s /\ lastV6 s' = lastV6 s.
Proof.
  intros F4 F6 Fp. unfold poll.
  set (s0 := slog_write SlogDebug "Polling WAN IPs from router" [] s).
  assert (exists s1, (if useIpv4 cfg then poll_ipv4 s0 else s0) = s1 /\
            sent s1 = sent s /\ lastV4 s1 = lastV4 s /\ lastV6 s1 = lastV6 s)
    as (s1 & -> & Hs & Hl4 & Hl6).
  { destruct (useIpv4 cfg).
    - destruct (F4 (box s0)) as [err Herr].
      destruct (poll_ipv4_err s0 err Herr) as (? & ? & ?). eexists. split; [reflexivity |].
      auto.
    - exists s0. auto. }
  destruct (localIp cfg) as [lip |], (useIpv6 cfg).
  - destruct (Fp (box s1)) as [err Herr].
    destruct (poll_prefix_err lip s1 err Herr) as (s' & Hp & Hs' & Hl4' & Hl6').
    exists s'. split; [exact Hp |]. split; [congruence |]. split; congruence.
  - exists s1. auto.
  - destruct (F6 (box s1)) as [err Herr].
    destruct (poll_ipv6_err s1 err Herr) as (Hs' & Hl4' & Hl6').
    eexists. split; [reflexivity |]. split; [congruence |]. split; congruence.
  - exists s1. auto.
Qed.

(** X16. While every call of the router fails, polling hands nothing to
    the updater, keeps both remembered addresses and does not panic, in
    any configuration: the local address is not read before the router
    answers. *)
Theorem polls_router_down (cfg : PollConfig) (ticks : nat) (s : PollState) :
  (forall b, exists err, (GetWanIpv4 b).2 = Err err) ->
  (forall b, exists err, (GetwanIpv6 b).2 = Err err) ->
  (forall b, exists err, (GetIpv6Prefix b).2 = Err err) ->
  exists s', polls cfg ticks s = Some s' /\ sent s' = sent s /\
    lastV4 s' = lastV4 s /\ lastV6 s' = lastV6 s.
Proof.
  intros F4 F6 Fp. revert s. induction ticks as [| n IH]; intros s.
  - cbn [polls]. now apply poll_all_fail_step.
  - cbn [polls].
    destruct (poll_all_fail_step cfg s F4 F6 Fp) as (s1 & -> & Hs & Hl4 & Hl6).
    cbn. destruct (IH s1) as (s' & Hp & Hs' & Hl4' & Hl6').
    exists s'. split; [exact Hp |]. split; [congruence |]. split; congruence.
Qed.

End PollerFacts.

(** * The poller feeding the worker *)

Section PollerAndWorker.
Import Updater Main.
Context {provider : Provider} {runtime : Runtime}.
Context {router : Router} {main_runtime : MainRuntime}.

(** Repetitions of an address the slot of its family remembers, after
    addresses of the other family, are dropped. *)
Lemma for_range_repeats (ip : IP) (between : list IP) (n : nat) (s : Sys) :
  (forall x, x ∈ between -> family_of x <> family_of ip) ->
  (exists last, last_of (options (updater s)) ip = Some last /\
                Equal last ip = true) ->
  for_range (between ++ replicate n ip) receive s = for_range between receive s.
Proof.
  intros Hfam Hlast. induction n as [| n IH].
  - cbn [replicate]. now rewrite app_nil_r.
  - cbn [replicate].
    rewrite (spawnWorker_other_family ip ip between (replicate n ip) s
               (Equal_refl ip) Hfam Hlast).
    exact IH.
Qed.

(** X17. Steady polling is quiet. In direct mode, with a router that
    answers every poll with the same IPv4 and the same IPv6 address, the
    worker fed with everything the poller hands over, however many
    polls there were, ends as the worker fed with the addresses of the
    first poll alone: the repetitions of the IPv4 address are dropped by
    the worker, also with the IPv6 address delivered in between. *)
Theorem steady_polling_is_quiet (a4 a6 : IP) (ticks : nat) (s : PollState)
    (w : Sys) :
  family_of a4 <> family_of a6 ->
  (forall b, (GetWanIpv4 b).2 = Ok a4) ->
  (forall b, (GetwanIpv6 b).2 = Ok a6) ->
  exists s', polls direct_mode ticks s = Some s' /\
    spawnWorker (sent s') w =
    spawnWorker (sent s ++ a4 :: (if Equal (lastV6 s) a6 then [] else [a6])) w.
Proof.
  intros Hfam H4 H6. unfold spawnWorker.
  revert s. induction ticks as [| n IH]; intros s.
  - destruct (poll_direct_step a4 a6 s H4 H6) as (s' & Hp & Hs & _).
    exists s'. split; [exact Hp |]. now rewrite Hs.
  - destruct (poll_direct_step a4 a6 s H4 H6) as (s1 & Hp & Hs & _ & Hl6).
    destruct (IH s1) as (s' & Hps & Hw).
    exists s'. cbn [polls]. rewrite Hp. split; [exact Hps |].
    rewrite Hw, Hs, Hl6.
    set (first6 := if Equal (lastV6 s) a6 then [] else [a6]).
    change ((sent s ++ [a4] ++ first6) ++ [a4])
      with ((sent s ++ a4 :: first6) ++ [a4]).
    rewrite <- app_assoc. cbn [app]. rewrite !for_range_app. unfold bind.
    destruct (for_range (sent s) receive w) as [[] w1 | code w1 | reason w1];
      try reflexivity.
    cbn [for_range]. unfold bind.
    destruct (receive a4 w1) as [[] w2 | code w2 | reason w2] eqn:Hrecv;
      try reflexivity.
    apply (for_range_repeats a4 first6 1 w2).
    + intros x Hx. subst first6.
      destruct (Equal (lastV6 s) a6); [now apply elem_of_nil in Hx |].
      apply list_elem_of_singleton in Hx as ->. congruence.
    + now apply (receive_remembers a4 w1).
Qed.

End PollerAndWorker.

(** * The further properties on concrete inputs *)

Section FurtherScenarios.
Import Updater Script Main MainScript PrefixCombiner.

Lemma InitApi_sets_retry_policy_witness :
  exists s',
    InitApi (sys0 (updater0 [] [] "5 1 2 x") []) = Running None s' /\
    api (updater s') =
      Some (cf_UsingRetryPolicy 5 1 2 {| made_with := ["t"%string]; retry := None |}).
Proof.
  apply (InitApi_sets_retry_policy (sys0 (updater0 [] [] "5 1 2 x") [])
           {| made_with := ["t"%string]; retry := None |}
           "5" "1" "2" ["x"%string] 5 1 2); reflexivity.
Defined.

Lemma dedup_across_families_witness :
  spawnWorker ([] ++ ip_203_0_113_5 :: [addr_2001_db8_1_2_1]
                  ++ ip_203_0_113_5 :: [])
    (sys0 u_home [RList (Ok []); RCreate (Ok r1)]) =
  spawnWorker ([] ++ ip_203_0_113_5 :: [addr_2001_db8_1_2_1] ++ [])
    (sys0 u_home [RList (Ok []); RCreate (Ok r1)]).
Proof.
  apply (dedup_across_families [] [addr_2001_db8_1_2_1] [] ip_203_0_113_5
           ip_203_0_113_5 (sys0 u_home [RList (Ok []); RCreate (Ok r1)]));
    [reflexivity |].
  intros x ->%list_elem_of_singleton. vm_compute. discriminate.
Defined.

(** The retry policy [5 x 2]. *)
Lemma InitApi_rejects_bad_field_witness :
  exists s',
    InitApi (sys0 (updater0 [] [] "5 x 2") []) =
      Running (Some ("Failed to parse retry policy's " ++ retry_field 1 ++ ": "
                     ++ "strconv.Atoi: parsing: invalid syntax")%string) s' /\
    api (updater s') = Some {| made_with := ["t"%string]; retry := None |}.
Proof.
  apply (InitApi_rejects_bad_field (sys0 (updater0 [] [] "5 x 2") [])
           {| made_with := ["t"%string]; retry := None |} 1 "x"
           "strconv.Atoi: parsing: invalid syntax").
  - reflexivity.
  - discriminate.
  - lia.
  - reflexivity.
  - reflexivity.
  - intros [| j] earlier Hj; [| lia]. intros [= <-]. now exists 5.
Defined.

(** The one zone lookup fails: the constructor returns its error. *)
Lemma NewCloudflareUpdater_all_or_nothing_witness :
  isInit (updater (state_of (NewCloudflareUpdater o_home4 c_token [ip_203_0_113_5]
                               (sys0 (updater0 [] [] "") [RZone (Err "no zone")]))))
    = false /\
  actions (updater (state_of (NewCloudflareUpdater o_home4 c_token [ip_203_0_113_5]
                                (sys0 (updater0 [] [] "") [RZone (Err "no zone")]))))
    = [] /\
  exists evs,
    calls (state_of (NewCloudflareUpdater o_home4 c_token [ip_203_0_113_5]
                       (sys0 (updater0 [] [] "") [RZone (Err "no zone")])))
      = calls (sys0 (updater0 [] [] "") [RZone (Err "no zone")]) ++ evs /\
    Forall zone_lookup evs.
Proof.
  apply (NewCloudflareUpdater_all_or_nothing o_home4 c_token [ip_203_0_113_5]
           (sys0 (updater0 [] [] "") [RZone (Err "no zone")])
           (state_of (NewCloudflareUpdater o_home4 c_token [ip_203_0_113_5]
                        (sys0 (updater0 [] [] "") [RZone (Err "no zone")])))
           (Some "no zone"%string)).
  vm_compute. reflexivity.
Defined.

(** Three polls of the steady home. *)
Lemma polls_direct_mode_witness :
  exists s',
    polls (router := steady_home) direct_mode 2 (poll_start (router := steady_home) tt)
      = Some s' /\
    sent s' =
      sent (poll_start (router := steady_home) tt) ++ [ip_203_0_113_5]
        ++ (if Equal (lastV6 (poll_start (router := steady_home) tt))
                     addr_2001_db8_1_2_1
            then [] else [addr_2001_db8_1_2_1])
        ++ replicate 2 ip_203_0_113_5 /\
    Equal (lastV4 s') ip_203_0_113_5 = true /\
    Equal (lastV6 s') addr_2001_db8_1_2_1 = true.
Proof.
  apply (polls_direct_mode (router := steady_home) ip_203_0_113_5
           addr_2001_db8_1_2_1 2 (poll_start (router := steady_home) tt));
    intros b; reflexivity.
Defined.

(** The prefix [2001:db8:1:2::/64] with the local address [::1]. *)
Lemma poll_prefix_sends_combined_witness :
  exists ip s',
    poll (router := scripted_router) (prefix_only host_1) (poll_start (router := scripted_router)
            [APrefix (Ok prefix_2001_db8_1_2)])
      = Some s' /\
    sent s' = sent (poll_start (router := scripted_router)
            [APrefix (Ok prefix_2001_db8_1_2)]) ++ [ip] /\
    length ip = IPv6len /\
    (forall i : nat, (i < 128)%nat ->
       ip_bit ip i = if Z.of_nat i <? maskLen_of prefix_2001_db8_1_2
                     then ip_bit (net_IP prefix_2001_db8_1_2) i
                     else ip_bit host_1 i) /\
    lastV4 s' = lastV4 (poll_start (router := scripted_router)
            [APrefix (Ok prefix_2001_db8_1_2)]) /\
    Equal (lastV6 s') (net_IP prefix_2001_db8_1_2) = true.
Proof.
  apply (poll_prefix_sends_combined (router := scripted_router)
           (prefix_only host_1) host_1
           prefix_2001_db8_1_2 (poll_start (router := scripted_router)
            [APrefix (Ok prefix_2001_db8_1_2)]));
    try reflexivity.
  apply wellformedb_sound. vm_compute. reflexivity.
Defined.

(** The router down and a local address of no byte at all. *)
Lemma polls_router_down_witness :
  exists s',
    polls (router := router_down) (prefix_only []) 2
      (poll_start (router := router_down) tt) = Some s' /\
    sent s' = sent (poll_start (router := router_down) tt) /\
    lastV4 s' = lastV4 (poll_start (router := router_down) tt) /\
    lastV6 s' = lastV6 (poll_start (router := router_down) tt).
Proof.
  apply (polls_router_down (router := router_down) (prefix_only []) 2
           (poll_start (router := router_down) tt));
    intros b; eexists; reflexivity.
Defined.

(** Three polls of the steady home feeding the worker of [u_home]. *)
Lemma steady_polling_is_quiet_witness :
  exists s',
    polls (router := steady_home) direct_mode 2 (poll_start (router := steady_home) tt)
      = Some s' /\
    spawnWorker (sent s') (sys0 u_home [RList (Ok []); RCreate (Ok r1)]) =
    spawnWorker
      (sent (poll_start (router := steady_home) tt)
         ++ ip_203_0_113_5
            :: (if Equal (lastV6 (poll_start (router := steady_home) tt))
                         addr_2001_db8_1_2_1
                then [] else [addr_2001_db8_1_2_1]))
      (sys0 u_home [RList (Ok []); RCreate (Ok r1)]).
Proof.
  apply (steady_polling_is_quiet (router := steady_home) ip_203_0_113_5
           addr_2001_db8_1_2_1 2 (poll_start (router := steady_home) tt)
           (sys0 u_home [RList (Ok []); RCreate (Ok r1)])).
  - vm_compute. discriminate.
  - intros b. reflexivity.
  - intros b. reflexivity.
Defined.

End FurtherScenarios.
